(** * SecureConnect messenger: client vault, hybrid encryption and relay database

    A shallow embedding of the Python sources
    [Client/encryption.py], [Client/data_manager.py],
    [Client/main_messenger.py], [Client/server_api.py],
    [ServerSide/database.py] and [ServerSide/server.py],
    together with the properties of the specification that can be stated
    over it. *)

From Stdlib Require Import ZArith Strings.Ascii Strings.String Strings.Byte Lia.
From stdpp Require Import sorting base tactics option strings gmap pretty countable list.

Set Warnings "-register-all".

(** ** Python values and control flow *)

(** A Python [bytes] object. *)
Abbreviation bytes := (list byte).

#[global] Instance byte_eq_decision : EqDecision byte := byte_eq_dec.

(** The exception classes that the modelled code can meet. *)
Inductive Exn :=
  | TypeError
  | ValueError
  | KeyError
  | IndexError
  | AttributeError
  | BinasciiError
  | UnicodeDecodeError
  | JSONDecodeError
  | InvalidToken
  | FileNotFoundError
  | OSError
  | IntegrityError
  | OverflowError
  | OperationalError
  | HTTPException (status_code : Z) (detail : string).

Inductive Outcome (A : Type) :=
  | Ok (a : A)
  | Raised (e : Exn).
Arguments Ok {A} a.
Arguments Raised {A} e.

(** A Python statement sequence over a mutable state [S]: it either returns
    a value or raises, and the state changes made before a [raise] stay. *)
Definition Py (S A : Type) : Type := S → Outcome A * S.

Definition ret {S A} (a : A) : Py S A := λ s, (Ok a, s).
Definition raise {S A} (e : Exn) : Py S A := λ s, (Raised e, s).
Definition bind {S A B} (m : Py S A) (k : A → Py S B) : Py S B :=
  λ s, match m s with
       | (Ok a, s') => k a s'
       | (Raised e, s') => (Raised e, s')
       end.
(** [try: m  except Exception: h] *)
Definition try_except {S A} (m : Py S A) (h : Exn → Py S A) : Py S A :=
  λ s, match m s with
       | (Ok a, s') => (Ok a, s')
       | (Raised e, s') => h e s'
       end.
Definition get {S} : Py S S := λ s, (Ok s, s).
Definition gets {S A} (f : S → A) : Py S A := λ s, (Ok (f s), s).
Definition modify {S} (f : S → S) : Py S unit := λ s, (Ok tt, f s).
(** A library call that raises [e] when it has no result. *)
Definition or_raise {S A} (e : Exn) (o : option A) : Py S A :=
  match o with Some a => ret a | None => raise e end.
(** [for x in l: body x] *)
Fixpoint for_each {S A} (l : list A) (body : A → Py S unit) : Py S unit :=
  match l with
  | [] => ret tt
  | x :: l' => bind (body x) (λ _, for_each l' body)
  end.

Declare Scope py_scope.
Delimit Scope py_scope with py.
Notation "x <- m ;; k" := (bind m (λ x, k))
  (at level 100, m at next level, right associativity) : py_scope.
Notation "m ;;; k" := (bind m (λ _, k))
  (at level 100, right associativity) : py_scope.

Definition outcome {S A} (r : Outcome A * S) : Outcome A := r.1.
Definition state_after {S A} (r : Outcome A * S) : S := r.2.

(** ** Insertion-ordered dictionaries with string keys

    A Python [dict] keeps its keys in insertion order; assigning to an
    existing key replaces the value in place. *)
Abbreviation dict V := (list (string * V)).

Fixpoint dict_get {V} (k : string) (d : dict V) : option V :=
  match d with
  | [] => None
  | (k', v) :: d' => if decide (k' = k) then Some v else dict_get k d'
  end.

Fixpoint dict_set {V} (k : string) (v : V) (d : dict V) : dict V :=
  match d with
  | [] => [(k, v)]
  | (k', v') :: d' =>
      if decide (k' = k) then (k, v) :: d' else (k', v') :: dict_set k v d'
  end.

Definition dict_keys {V} (d : dict V) : list string := d.*1.

(** ** JSON values *)

Inductive json :=
  | JNull
  | JBool (b : bool)
  | JInt (z : Z)
  | JStr (s : string)
  | JList (l : list json)
  | JDict (d : list (string * json)).

(** A [json] term stands for a Python value when no dictionary in it
    repeats a key. *)
Fixpoint json_wf (j : json) : Prop :=
  match j with
  | JList l => (fix all l := match l with
                            | [] => True
                            | x :: l' => json_wf x ∧ all l'
                            end) l
  | JDict d => NoDup (d.*1) ∧
               (fix all d := match d with
                             | [] => True
                             | kv :: d' => json_wf kv.2 ∧ all d'
                             end) d
  | _ => True
  end.

(** A Python object as the storage cipher sees it: a JSON-like value or a
    [bytes] object. *)
Inductive pyobj :=
  | PJson (j : json)
  | PBytes (b : bytes).

(** ** The library interface

    [base64], [json], [str.encode]/[bytes.decode], [cryptography]'s Fernet
    and RSA-OAEP, and PEM loading are library code.  They are taken as
    operations with their documented contracts. *)
Class Primitives := {
  pubkey : Type;
  privkey : Type;
  (** [private_key.public_key()] *)
  public_of : privkey → pubkey;
  (** [base64.b64encode(b).decode('utf-8')] *)
  b64encode : bytes → string;
  (** [base64.b64decode(s)]; [None] stands for [binascii.Error] *)
  b64decode : string → option bytes;
  (** [s.encode('utf-8')] of a text; a [string] stands for a well-formed
      text, for which the call does not raise *)
  utf8_encode : string → bytes;
  (** [b.decode('utf-8')]; [None] stands for [UnicodeDecodeError] *)
  utf8_decode : bytes → option string;
  (** [json.dumps(v)] *)
  json_dumps : json → string;
  (** [json.dumps(v, indent=4)], what [json.dump(v, file, indent=4)] writes *)
  json_dumps_indent : json → string;
  (** [json.loads(s)]; [None] stands for [JSONDecodeError] *)
  json_loads : string → option json;
  (** [Fernet.generate_key()] from one draw of the system's entropy *)
  fernet_generate_key : N → bytes;
  (** whether [Fernet(key)] accepts the key *)
  fernet_key_ok : bytes → bool;
  (** [Fernet(key).encrypt(data)] with its random IV and the current time *)
  fernet_encrypt : bytes → N → Z → bytes → bytes;
  (** [Fernet(key).decrypt(token)]; [None] stands for [InvalidToken] *)
  fernet_decrypt : bytes → bytes → option bytes;
  (** [public_key.encrypt(data, OAEP(MGF1(SHA256), SHA256, None))] *)
  rsa_oaep_encrypt : pubkey → N → bytes → option bytes;
  (** [private_key.decrypt(data, OAEP(MGF1(SHA256), SHA256, None))] *)
  rsa_oaep_decrypt : privkey → bytes → option bytes;
  (** [serialization.load_pem_public_key(data)] *)
  load_pem_public_key : bytes → option pubkey;
  (** [hashlib.pbkdf2_hmac('sha256', password, salt, 100000)] *)
  pbkdf2_hmac_sha256 : bytes → bytes → bytes;
}.

Class PrimitivesLaws (P : Primitives) : Prop := {
  b64decode_b64encode b : b64decode (b64encode b) = Some b;
  b64encode_nonempty b : b ≠ [] → b64encode b ≠ ""%string;
  utf8_decode_encode s : utf8_decode (utf8_encode s) = Some s;
  utf8_encode_nonempty s : s ≠ ""%string → utf8_encode s ≠ [];
  json_loads_dumps j : json_wf j → json_loads (json_dumps j) = Some j;
  json_dumps_nonempty j : json_dumps j ≠ ""%string;
  fernet_generate_key_ok r : fernet_key_ok (fernet_generate_key r) = true;
  fernet_decrypt_encrypt k r t m :
    fernet_key_ok k = true →
    fernet_decrypt k (fernet_encrypt k r t m) = Some m;
  fernet_encrypt_nonempty k r t m : fernet_encrypt k r t m ≠ [];
  (** authenticity, in its symbolic form: only tokens made under [k] open *)
  fernet_authentic k tok m :
    fernet_decrypt k tok = Some m → ∃ r t, tok = fernet_encrypt k r t m;
  (** an RSA key of this application wraps a Fernet key, and the matching
      private key unwraps it *)
  rsa_oaep_wraps sk r r' :
    is_Some (rsa_oaep_encrypt (public_of sk) r (fernet_generate_key r'));
  rsa_oaep_decrypt_encrypt sk r m c :
    rsa_oaep_encrypt (public_of sk) r m = Some c →
    rsa_oaep_decrypt sk c = Some m;
}.

(** ** Further library calls

    The built-in [int] and [str.strip], and the generation and PEM
    serialization of RSA keys by [cryptography]. *)
Class Builtins := {
  (** [int(s)]; [None] stands for [ValueError] *)
  int_of_str : string → option Z;
  (** [s.strip()] *)
  str_strip : string → string;
}.

(** [str(z)] is the decimal numeral of [z]: [strip] leaves it as it is and
    [int] reads it back. *)
Class BuiltinsLaws (B : Builtins) : Prop := {
  str_strip_pretty (z : Z) : str_strip (pretty z) = pretty z;
  int_of_str_pretty (z : Z) : int_of_str (pretty z) = Some z;
}.

Class KeyFormats (P : Primitives) := {
  (** [rsa.generate_private_key(65537, 2048)] from one draw of the
      system's entropy *)
  rsa_generate_private_key : N → privkey;
  (** [key.private_bytes(PEM, PKCS8, NoEncryption())] *)
  private_bytes : privkey → bytes;
  (** [key.public_bytes(PEM, SubjectPublicKeyInfo)] *)
  public_bytes : pubkey → bytes;
  (** [serialization.load_pem_private_key(data, password=None)] *)
  load_pem_private_key : bytes → option privkey;
}.

Class KeyFormatsLaws (P : Primitives) (K : KeyFormats P) : Prop := {
  load_pem_private_key_bytes sk :
    load_pem_private_key (private_bytes sk) = Some sk;
  load_pem_public_key_bytes pk :
    load_pem_public_key (public_bytes pk) = Some pk;
}.

(** [json.load] reads back what [json.dump(v, file, indent=4)] wrote. *)
Class JsonFileLaws (P : Primitives) : Prop := {
  json_loads_dumps_indent j :
    json_wf j → json_loads (json_dumps_indent j) = Some j;
}.

(** ** The machine

    What the operating system and the database engine decide, and the
    program cannot see in its own state. *)
Class FileSystem := {
  (** [open(path, 'w')] for a path whose file name is not a plain one (it
      holds a slash, or is longer than the file system takes): the
      exception that the call raises, such as [FileNotFoundError] for a
      directory that is not there, or [None] when the file is opened *)
  open_refuses : string → option Exn;
}.

Class Sqlite := {
  (** [SQLITE_MAX_VARIABLE_NUMBER]: how many [?] parameters a statement can
      have; 999 before SQLite 3.32 and 32766 since, unless the build sets
      another number *)
  variable_limit : nat;
}.

(** * The client *)
Module Client.

(** What an HTTP request comes back with: [NetworkError] stands for a
    [RequestException] (no connection or an error status), [Reply] for the
    parsed JSON body with its [success] flag and payload. *)
Inductive HttpReply (A : Type) :=
  | NetworkError
  | Reply (success : bool) (payload : A).
Arguments NetworkError {A}.
Arguments Reply {A} success payload.

Section client.
Context {P : Primitives} {F : FileSystem}.
Local Open Scope py_scope.

(** ** State *)

(** [EncryptionManager]'s attributes. *)
Record EncryptionManager := {
  symmetric_key : bytes;
  private_key : privkey;
  public_key : pubkey;
  friend_public_keys : gmap string pubkey;
}.

(** [DataManager]'s attributes. *)
Record DataManager := {
  message_history : dict json;
  friends : list string;
  groups : list string;
  last_sync_time : Z;
}.

(** What surrounds the process: the files, the system's entropy and the
    clock.  [entropy] and [clock] list the successive results of
    [os.urandom] and [int(time.time())]; [drawn] and [ticks] count the
    calls made so far. *)
Record Env := {
  fs : gmap string bytes;
  entropy : nat → N;
  drawn : nat;
  clock : nat → Z;
  ticks : nat;
}.

Inductive UiEvent :=
  | ChatAppend (line : string)
  | Notification (text : string).

(** [MessengerWindow] with the objects it owns; [auth_token] is the
    [ServerAPI]'s. *)
Record Messenger := {
  encryption_manager : EncryptionManager;
  data_manager : DataManager;
  auth_token : option string;
  current_chat : option string;
  ui : list UiEvent;
  env : Env;
}.

Definition with_em (f : EncryptionManager → EncryptionManager) (w : Messenger) :=
  {| encryption_manager := f (encryption_manager w);
     data_manager := data_manager w; auth_token := auth_token w;
     current_chat := current_chat w; ui := ui w; env := env w |}.
Definition with_dm (f : DataManager → DataManager) (w : Messenger) :=
  {| encryption_manager := encryption_manager w;
     data_manager := f (data_manager w); auth_token := auth_token w;
     current_chat := current_chat w; ui := ui w; env := env w |}.
Definition with_env (f : Env → Env) (w : Messenger) :=
  {| encryption_manager := encryption_manager w;
     data_manager := data_manager w; auth_token := auth_token w;
     current_chat := current_chat w; ui := ui w; env := f (env w) |}.
Definition with_ui (f : list UiEvent → list UiEvent) (w : Messenger) :=
  {| encryption_manager := encryption_manager w;
     data_manager := data_manager w; auth_token := auth_token w;
     current_chat := current_chat w; ui := f (ui w); env := env w |}.

Definition set_friend_public_key (u : string) (k : pubkey) (em : EncryptionManager) :=
  {| symmetric_key := symmetric_key em; private_key := private_key em;
     public_key := public_key em;
     friend_public_keys := <[u := k]> (friend_public_keys em) |}.

Definition set_message_history (h : dict json) (dm : DataManager) :=
  {| message_history := h; friends := friends dm; groups := groups dm;
     last_sync_time := last_sync_time dm |}.
Definition set_friends (l : list string) (dm : DataManager) :=
  {| message_history := message_history dm; friends := l; groups := groups dm;
     last_sync_time := last_sync_time dm |}.
Definition set_groups (l : list string) (dm : DataManager) :=
  {| message_history := message_history dm; friends := friends dm; groups := l;
     last_sync_time := last_sync_time dm |}.
Definition set_last_sync_time (t : Z) (dm : DataManager) :=
  {| message_history := message_history dm; friends := friends dm;
     groups := groups dm; last_sync_time := t |}.

Definition set_fs (f : gmap string bytes) (e : Env) :=
  {| fs := f; entropy := entropy e; drawn := drawn e;
     clock := clock e; ticks := ticks e |}.
Definition set_drawn (n : nat) (e : Env) :=
  {| fs := fs e; entropy := entropy e; drawn := n;
     clock := clock e; ticks := ticks e |}.
Definition set_ticks (n : nat) (e : Env) :=
  {| fs := fs e; entropy := entropy e; drawn := drawn e;
     clock := clock e; ticks := n |}.

(** ** Environment calls *)

(** [os.urandom]: the next draw. *)
Definition os_urandom : Py Messenger N :=
  λ w, (Ok (entropy (env w) (drawn (env w))),
        with_env (set_drawn (S (drawn (env w)))) w).

(** [int(time.time())]: the next reading of the clock. *)
Definition time_time : Py Messenger Z :=
  λ w, (Ok (clock (env w) (ticks (env w))),
        with_env (set_ticks (S (ticks (env w)))) w).

(** [open(path, 'rb').read()] *)
Definition read_file (path : string) : Py Messenger bytes :=
  λ w, match fs (env w) !! path with
       | Some b => (Ok b, w)
       | None => (Raised FileNotFoundError, w)
       end.

(** Whether the character [c] occurs in [s]. *)
Fixpoint str_has (c : ascii) (s : string) : bool :=
  match s with
  | EmptyString => false
  | String c' s' => Ascii.eqb c' c || str_has c s'
  end.

(** A file name that every directory takes: no slash in it, and at most
    255 bytes. *)
Definition plain_name (name : string) : bool :=
  negb (str_has "/" name) && bool_decide (String.length name ≤ 255)%nat.

Definition file_in (directory name : string) : string :=
  directory +:+ "/" +:+ name.

(** What [open(directory/name, 'w')] raises, right after
    [os.makedirs(directory, exist_ok=True)]: [ValueError] for a name with a
    NUL character, nothing for a plain name, since the directory is there,
    and what the file system says for any other name. *)
Definition open_error (directory name : string) : option Exn :=
  if str_has Ascii.zero name then Some ValueError
  else if plain_name name then None
  else open_refuses (file_in directory name).

(** [os.makedirs(directory, exist_ok=True)] and [open(path, 'w')] for the
    file [name] of the directory: the path of the file that is open. *)
Definition open_for_writing (directory name : string) : Py Messenger string :=
  match open_error directory name with
  | Some e => raise e
  | None => ret (file_in directory name)
  end.

(** [open(path, 'w').write(text)] *)
Definition write_file (directory name : string) (text : string)
    : Py Messenger unit :=
  path <- open_for_writing directory name ;;
  modify (with_env (λ e, set_fs (<[path := utf8_encode text]> (fs e)) e)).

(** ** encryption.py *)

(** The dictionary [{'key': ..., 'message': ...}] of one recipient. *)
Record Envelope := { env_key : string; env_message : string }.

Definition friend_key_file (friend_username : string) : string :=
  friend_username +:+ ".pem".

Definition friend_key_path (friend_username : string) : string :=
  "UserData/Keys/friends/" +:+ friend_username +:+ ".pem".

Definition load_friend_public_key (friend_username : string) : Py Messenger bool :=
  try_except
    (key_data <- read_file (friend_key_path friend_username) ;;
     key <- or_raise ValueError (load_pem_public_key key_data) ;;
     modify (with_em (set_friend_public_key friend_username key)) ;;;
     ret true)
    (λ _, ret false).

(** The part of [encrypt_message] inside [try]. *)
Definition encrypt_message_body (message recipient_username : string)
    : Py Messenger (option Envelope) :=
  r <- os_urandom ;;
  let message_key := fernet_generate_key r in
  (if fernet_key_ok message_key then ret tt else raise ValueError) ;;;
  now <- time_time ;;
  iv <- os_urandom ;;
  let encrypted_message :=
    fernet_encrypt message_key iv now (utf8_encode message) in
  keys <- gets (λ w, friend_public_keys (encryption_manager w)) ;;
  recipient_key <- or_raise KeyError (keys !! recipient_username) ;;
  seed <- os_urandom ;;
  encrypted_key <-
    or_raise ValueError (rsa_oaep_encrypt recipient_key seed message_key) ;;
  ret (Some {| env_key := b64encode encrypted_key;
               env_message := b64encode encrypted_message |}).

Definition encrypt_message (message recipient_username : string)
    : Py Messenger (option Envelope) :=
  keys <- gets (λ w, friend_public_keys (encryption_manager w)) ;;
  loaded <- match keys !! recipient_username with
            | Some _ => ret true
            | None => load_friend_public_key recipient_username
            end ;;
  if loaded : bool
  then try_except (encrypt_message_body message recipient_username)
                  (λ _, ret None)
  else ret None.

Definition decrypt_message (encrypted_data : Envelope)
    : Py Messenger (option string) :=
  try_except
    (encrypted_key <- or_raise BinasciiError (b64decode (env_key encrypted_data)) ;;
     encrypted_message <-
       or_raise BinasciiError (b64decode (env_message encrypted_data)) ;;
     sk <- gets (λ w, private_key (encryption_manager w)) ;;
     message_key <- or_raise ValueError (rsa_oaep_decrypt sk encrypted_key) ;;
     (if fernet_key_ok message_key then ret tt else raise ValueError) ;;;
     plain <- or_raise InvalidToken (fernet_decrypt message_key encrypted_message) ;;
     decrypted_message <- or_raise UnicodeDecodeError (utf8_decode plain) ;;
     ret (Some decrypted_message))
    (λ _, ret None).

(** The byte form that [encrypt_data_for_storage] hands to the cipher:
    a [str] is encoded, a [dict] or [list] is dumped as JSON and encoded,
    [bytes] pass as they are, and anything else makes [cipher.encrypt]
    raise [TypeError]. *)
Definition storage_bytes (data : pyobj) : option bytes :=
  match data with
  | PJson (JStr s) => Some (utf8_encode s)
  | PJson (JDict d) => Some (utf8_encode (json_dumps (JDict d)))
  | PJson (JList l) => Some (utf8_encode (json_dumps (JList l)))
  | PBytes b => Some b
  | PJson _ => None
  end.

Definition encrypt_data_for_storage (data : pyobj) : Py Messenger (option string) :=
  try_except
    (key <- gets (λ w, symmetric_key (encryption_manager w)) ;;
     (if fernet_key_ok key then ret tt else raise ValueError) ;;;
     plain <- or_raise TypeError (storage_bytes data) ;;
     now <- time_time ;;
     iv <- os_urandom ;;
     ret (Some (b64encode (fernet_encrypt key iv now plain))))
    (λ _, ret None).

Definition decrypt_data_from_storage (encrypted_data : string)
    : Py Messenger (option bytes) :=
  try_except
    (key <- gets (λ w, symmetric_key (encryption_manager w)) ;;
     (if fernet_key_ok key then ret tt else raise ValueError) ;;;
     token <- or_raise BinasciiError (b64decode encrypted_data) ;;
     decrypted_data <- or_raise InvalidToken (fernet_decrypt key token) ;;
     ret (Some decrypted_data))
    (λ _, ret None).

(** The loop of [encrypt_group_message], with the dictionary built so far. *)
Fixpoint encrypt_group_loop (message : string) (group_members : list string)
    (encrypted_messages : dict Envelope) : Py Messenger (option (dict Envelope)) :=
  match group_members with
  | [] => ret (Some encrypted_messages)
  | member :: rest =>
      encrypted_message <- encrypt_message message member ;;
      match encrypted_message with
      | Some e => encrypt_group_loop message rest (dict_set member e encrypted_messages)
      | None => ret None
      end
  end.

Definition encrypt_group_message (message : string) (group_members : list string)
    : Py Messenger (option (dict Envelope)) :=
  encrypt_group_loop message group_members [].

(** The key that [encrypt_message] ends up using for [name]: the cached
    one, else the one in the friend's key file. *)
Definition known_public_key (w : Messenger) (name : string) : option pubkey :=
  match friend_public_keys (encryption_manager w) !! name with
  | Some k => Some k
  | None => fs (env w) !! friend_key_path name ≫= load_pem_public_key
  end.

(** The envelope that the [try] block of [encrypt_message] builds under
    the key [pk] in the environment [e], if the key wrap succeeds. *)
Definition hybrid_envelope (message : string) (pk : pubkey) (e : Env)
    : option Envelope :=
  let message_key := fernet_generate_key (entropy e (drawn e)) in
  encrypted_key ← rsa_oaep_encrypt pk (entropy e (2 + drawn e)) message_key;
  Some {| env_key := b64encode encrypted_key;
          env_message :=
            b64encode (fernet_encrypt message_key (entropy e (1 + drawn e))
                         (clock e (ticks e)) (utf8_encode message)) |}.

(** ** data_manager.py *)

(** [save_relations]: one key per friend and per group, each mapped to an
    empty dictionary, written to [UserData/relations.json]. *)
Definition relations_data (fr gr : list string) : dict json :=
  foldl (λ data group, dict_set ("g_" +:+ group) (JDict []) data)
        (foldl (λ data friend, dict_set ("f_" +:+ friend) (JDict []) data) [] fr)
        gr.

Definition save_relations : Py Messenger bool :=
  dm <- gets data_manager ;;
  try_except
    (write_file "UserData" "relations.json"
       (json_dumps_indent (JDict (relations_data (friends dm) (groups dm)))) ;;;
     ret true)
    (λ _, ret false).

Definition sync_time_path : string := "UserData/last_sync.txt".

Definition save_sync_time : Py Messenger unit :=
  t <- time_time ;;
  write_file "UserData" "last_sync.txt" (pretty t) ;;;
  t' <- time_time ;;
  modify (with_dm (set_last_sync_time t')).

Definition history_key (recipient : string) (is_group : bool) : string :=
  if is_group then "group_" +:+ recipient else recipient.

Definition history_file (key : string) : string := key +:+ ".json".

Definition history_path (key : string) : string :=
  "MessageHistory/" +:+ key +:+ ".json".

Definition save_message (recipient message : string) (is_group : bool)
    : Py Messenger bool :=
  let key := history_key recipient is_group in
  history <- gets (λ w, message_history (data_manager w)) ;;
  (match dict_get key history with
   | Some _ => ret tt
   | None => modify (with_dm (set_message_history (dict_set key (JList []) history)))
   end) ;;;
  history <- gets (λ w, message_history (data_manager w)) ;;
  match dict_get key history with
  | Some (JList l) =>
      let l' := JList (l ++ [JStr message]) in
      modify (with_dm (set_message_history (dict_set key l' history))) ;;;
      try_except
        (write_file "MessageHistory" (history_file key) (json_dumps_indent l') ;;;
         ret true)
        (λ _, ret false)
  | _ => raise AttributeError
  end.

(** The snapshot dictionary; a key that is absent is [None]. *)
Record Backup := {
  b_friends : option (list string);
  b_groups : option (list string);
  b_message_history : option (dict string);
  b_timestamp : option Z;
}.

(** The falsy snapshots: [None] and the empty dictionary. *)
Definition backup_falsy (backup_data : option Backup) : bool :=
  match backup_data with
  | None => true
  | Some b =>
      match b_friends b, b_groups b, b_message_history b, b_timestamp b with
      | None, None, None, None => true
      | _, _, _, _ => false
      end
  end.

Definition str_truthy (s : string) : bool := bool_decide (s ≠ ""%string).
Definition bytes_truthy (b : bytes) : bool := bool_decide (b ≠ []).

(** The loop of [prepare_backup_data] over [message_history.items()]. *)
Fixpoint seal_history (items : dict json) (sealed : dict string)
    : Py Messenger (dict string) :=
  match items with
  | [] => ret sealed
  | (key, messages) :: rest =>
      encrypted_messages <- encrypt_data_for_storage (PJson messages) ;;
      match encrypted_messages with
      | Some c => if str_truthy c
                  then seal_history rest (dict_set key c sealed)
                  else seal_history rest sealed
      | None => seal_history rest sealed
      end
  end.

Definition prepare_backup_data : Py Messenger Backup :=
  dm <- gets data_manager ;;
  timestamp <- time_time ;;
  sealed <- seal_history (message_history dm) [] ;;
  ret {| b_friends := Some (friends dm); b_groups := Some (groups dm);
         b_message_history := Some sealed; b_timestamp := Some timestamp |}.

(** The loop of [restore_from_backup] over the snapshot's histories. *)
Fixpoint restore_history (items : dict string) : Py Messenger unit :=
  match items with
  | [] => ret tt
  | (key, encrypted_messages) :: rest =>
      decrypted_messages <- decrypt_data_from_storage encrypted_messages ;;
      (match decrypted_messages with
       | Some b =>
           if bytes_truthy b then
             text <- or_raise UnicodeDecodeError (utf8_decode b) ;;
             messages <- or_raise JSONDecodeError (json_loads text) ;;
             history <- gets (λ w, message_history (data_manager w)) ;;
             modify (with_dm (set_message_history (dict_set key messages history))) ;;;
             write_file "MessageHistory" (history_file key)
               (json_dumps_indent messages)
           else ret tt
       | None => ret tt
       end) ;;;
      restore_history rest
  end.

Definition restore_from_backup (backup_data : option Backup) : Py Messenger bool :=
  if backup_falsy backup_data then ret false else
  match backup_data with
  | None => ret false
  | Some b =>
      try_except
        (modify (with_dm (set_friends (default [] (b_friends b)))) ;;;
         modify (with_dm (set_groups (default [] (b_groups b)))) ;;;
         save_relations ;;;
         restore_history (default [] (b_message_history b)) ;;;
         now <- time_time ;;
         modify (with_dm (set_last_sync_time (default now (b_timestamp b)))) ;;;
         save_sync_time ;;;
         ret true)
        (λ _, ret false)
  end.

(** ** server_api.py *)

Definition token_truthy (t : option string) : bool :=
  match t with Some s => str_truthy s | None => false end.

(** A message of [messages/receive] and of [messages/group], with the
    keys that [poll_for_messages] reads. *)
Record DirectMessage := {
  d_sender : string;
  d_encrypted_key : string;
  d_encrypted_content : string;
}.
Record GroupMessage := {
  g_sender : string;
  g_group_name : string;
  g_encrypted_key : string;
  g_encrypted_content : string;
}.

(** [ServerAPI.get_messages] and [ServerAPI.get_group_messages]: the pair
    [(success, messages)]; [relay] is the relay's answer to the request
    with [since] as its parameter. *)
Definition api_get_messages {A} (relay : Z → HttpReply (list A))
    (since_timestamp : Z) : Py Messenger (bool * list A) :=
  tok <- gets auth_token ;;
  if token_truthy tok then
    match relay since_timestamp with
    | Reply true messages => ret (true, messages)
    | Reply false _ => ret (false, [])
    | NetworkError => ret (false, [])
    end
  else ret (false, []).

(** [ServerAPI.backup_user_data]: its [success] flag. *)
Definition api_backup_user_data (relay : Backup → HttpReply unit)
    (data : Backup) : Py Messenger bool :=
  tok <- gets auth_token ;;
  if token_truthy tok then
    match relay data with
    | Reply success _ => ret success
    | NetworkError => ret false
    end
  else ret false.

(** ** main_messenger.py *)

Definition chat_area_append (line : string) : Py Messenger unit :=
  modify (with_ui (λ l, l ++ [ChatAppend line])).
Definition show_notification (text : string) : Py Messenger unit :=
  modify (with_ui (λ l, l ++ [Notification text])).

(** What [poll_for_messages] does with a decrypted message of the
    conversation [chat], stored under [recipient]. *)
Definition deliver (recipient : string) (is_group : bool) (chat : string)
    (formatted_message notice : string) : Py Messenger unit :=
  save_message recipient formatted_message is_group ;;;
  current <- gets current_chat ;;
  (if bool_decide (current = Some chat)
   then chat_area_append formatted_message else ret tt) ;;;
  (if bool_decide (current ≠ Some chat)
   then show_notification notice else ret tt).

Definition poll_direct (msg : DirectMessage) : Py Messenger unit :=
  decrypted_message <-
    decrypt_message {| env_key := d_encrypted_key msg;
                       env_message := d_encrypted_content msg |} ;;
  match decrypted_message with
  | Some text =>
      if str_truthy text then
        deliver (d_sender msg) false (d_sender msg)
          (d_sender msg +:+ ": " +:+ text)
          ("New message from " +:+ d_sender msg)
      else ret tt
  | None => ret tt
  end.

Definition poll_group (msg : GroupMessage) : Py Messenger unit :=
  decrypted_message <-
    decrypt_message {| env_key := g_encrypted_key msg;
                       env_message := g_encrypted_content msg |} ;;
  match decrypted_message with
  | Some text =>
      if str_truthy text then
        deliver (g_group_name msg) true ("group_" +:+ g_group_name msg)
          (g_sender msg +:+ " (in " +:+ g_group_name msg +:+ "): " +:+ text)
          ("New message in group " +:+ g_group_name msg)
      else ret tt
  | None => ret tt
  end.

Definition poll_for_messages
    (relay_direct : Z → HttpReply (list DirectMessage))
    (relay_group : Z → HttpReply (list GroupMessage)) : Py Messenger unit :=
  tok <- gets auth_token ;;
  if token_truthy tok then
    since <- gets (λ w, last_sync_time (data_manager w)) ;;
    direct <- api_get_messages relay_direct since ;;
    (if direct.1 then for_each direct.2 poll_direct else ret tt) ;;;
    since <- gets (λ w, last_sync_time (data_manager w)) ;;
    grouped <- api_get_messages relay_group since ;;
    (if grouped.1 then for_each grouped.2 poll_group else ret tt)
  else ret tt.

(** [MessengerWindow.backup_user_data]; [None] when it returns before
    building a snapshot, else the snapshot that it uploaded and the
    [success] flag of the upload. *)
Definition backup_user_data (relay : Backup → HttpReply unit)
    : Py Messenger (option (Backup * bool)) :=
  tok <- gets auth_token ;;
  if token_truthy tok then
    backup_data <- prepare_backup_data ;;
    success <- api_backup_user_data relay backup_data ;;
    (if success : bool then save_sync_time else ret tt) ;;;
    ret (Some (backup_data, success))
  else ret None.

(** The two timers of [MessengerWindow.__init__]: [message_poll_timer]
    runs [poll_for_messages] and [backup_timer] runs [backup_user_data];
    each carries what the relay answers during that run. *)
Inductive TimerEvent :=
  | PollTimer (relay_direct : Z → HttpReply (list DirectMessage))
              (relay_group : Z → HttpReply (list GroupMessage))
  | BackupTimer (relay : Backup → HttpReply unit).

Definition on_timer (ev : TimerEvent) : Py Messenger unit :=
  match ev with
  | PollTimer relay_direct relay_group =>
      poll_for_messages relay_direct relay_group
  | BackupTimer relay => backup_user_data relay ;;; ret tt
  end.

(** ** Notions used to state the properties *)

(** The sync watermark: in memory and on disk. *)
Definition watermark (w : Messenger) : Z * option bytes :=
  (last_sync_time (data_manager w), fs (env w) !! sync_time_path).

Definition keeps_watermark {A} (m : Py Messenger A) : Prop :=
  ∀ w, watermark (state_after (m w)) = watermark w.

(** From [w] to [w'] nothing was written: at most the entropy and the
    clock were read. *)
Definition only_reads (w w' : Messenger) : Prop :=
  encryption_manager w' = encryption_manager w
  ∧ data_manager w' = data_manager w
  ∧ auth_token w' = auth_token w
  ∧ current_chat w' = current_chat w
  ∧ ui w' = ui w
  ∧ fs (env w') = fs (env w)
  ∧ entropy (env w') = entropy (env w)
  ∧ clock (env w') = clock (env w)
  ∧ drawn (env w) ≤ drawn (env w')
  ∧ ticks (env w) ≤ ticks (env w').

(** What one entry of a snapshot's [message_history] opens to under the
    local key [k]: [Ok (Some messages)] when it is restored, [Ok None]
    when [restore_from_backup] skips it, [Raised] when the loop stops. *)
Definition unseal (k : bytes) (encrypted_messages : string) : Outcome (option json) :=
  if fernet_key_ok k then
    match b64decode encrypted_messages ≫= fernet_decrypt k with
    | Some b =>
        if bytes_truthy b then
          match utf8_decode b with
          | Some text =>
              match json_loads text with
              | Some messages => Ok (Some messages)
              | None => Raised JSONDecodeError
              end
          | None => Raised UnicodeDecodeError
          end
        else Ok None
    | None => Ok None
    end
  else Ok None.

(** The local histories once every entry of the snapshot that opens has
    been written over them; [None] when an entry stops the loop, because
    it does not decode or because its file cannot be opened. *)
Fixpoint merged_history (k : bytes) (items : dict string) (history : dict json)
    : option (dict json) :=
  match items with
  | [] => Some history
  | (key, encrypted_messages) :: rest =>
      match unseal k encrypted_messages with
      | Ok (Some messages) =>
          match open_error "MessageHistory" (history_file key) with
          | None => merged_history k rest (dict_set key messages history)
          | Some _ => None
          end
      | Ok None => merged_history k rest history
      | Raised _ => None
      end
  end.

(** What [restore_history] leaves untouched. *)
Definition history_only (w w' : Messenger) : Prop :=
  encryption_manager w' = encryption_manager w
  ∧ friends (data_manager w') = friends (data_manager w)
  ∧ groups (data_manager w') = groups (data_manager w)
  ∧ clock (env w') = clock (env w)
  ∧ ticks (env w') = ticks (env w).

(** One conversation [(key, messages)] of the pusher and its entry in the
    snapshot. *)
Definition sealed_as (k : bytes) (kv : string * json) (kc : string * string) : Prop :=
  kc.1 = kv.1
  ∧ ∃ iv now, kc.2 = b64encode (fernet_encrypt k iv now
                                  (utf8_encode (json_dumps kv.2))).

End client.

Section client_more.
Context {P : Primitives} {F : FileSystem} {B : Builtins} {K : KeyFormats P}.
Local Open Scope py_scope.

(** ** The rest of the start-up and storage code *)

Definition set_symmetric_key (k : bytes) (em : EncryptionManager) :=
  {| symmetric_key := k; private_key := private_key em;
     public_key := public_key em;
     friend_public_keys := friend_public_keys em |}.
Definition set_private_key (k : privkey) (em : EncryptionManager) :=
  {| symmetric_key := symmetric_key em; private_key := k;
     public_key := public_key em;
     friend_public_keys := friend_public_keys em |}.
Definition set_public_key (k : pubkey) (em : EncryptionManager) :=
  {| symmetric_key := symmetric_key em; private_key := private_key em;
     public_key := k;
     friend_public_keys := friend_public_keys em |}.

(** [open(path, 'wb').write(data)] *)
Definition write_file_bytes (directory name : string) (data : bytes)
    : Py Messenger unit :=
  path <- open_for_writing directory name ;;
  modify (with_env (λ e, set_fs (<[path := data]> (fs e)) e)).

(** [open(path, 'r').read()]: the file's bytes as text. *)
Definition read_text (path : string) : Py Messenger string :=
  data <- read_file path ;;
  or_raise UnicodeDecodeError (utf8_decode data).

(** [os.path.exists(path)] *)
Definition path_exists (path : string) : Py Messenger bool :=
  gets (λ w, bool_decide (is_Some (fs (env w) !! path))).

(** *** encryption.py *)

Definition symmetric_key_path : string := "UserData/Keys/symmetric.key".
Definition private_key_path : string := "UserData/Keys/private.pem".
Definition public_key_path : string := "UserData/Keys/public.pem".

(** The two [try] statements of [load_or_generate_keys]; each catches
    [FileNotFoundError] only. *)
Definition load_or_generate_symmetric_key : Py Messenger unit :=
  try_except
    (key <- read_file symmetric_key_path ;;
     modify (with_em (set_symmetric_key key)))
    (λ e, match e with
          | FileNotFoundError =>
              r <- os_urandom ;;
              let key := fernet_generate_key r in
              modify (with_em (set_symmetric_key key)) ;;;
              write_file_bytes "UserData/Keys" "symmetric.key" key
          | _ => raise e
          end).

Definition load_or_generate_key_pair : Py Messenger unit :=
  try_except
    (data <- read_file private_key_path ;;
     sk <- or_raise ValueError (load_pem_private_key data) ;;
     modify (with_em (set_private_key sk)) ;;;
     data <- read_file public_key_path ;;
     pk <- or_raise ValueError (load_pem_public_key data) ;;
     modify (with_em (set_public_key pk)))
    (λ e, match e with
          | FileNotFoundError =>
              r <- os_urandom ;;
              let sk := rsa_generate_private_key r in
              modify (with_em (set_private_key sk)) ;;;
              modify (with_em (set_public_key (public_of sk))) ;;;
              write_file_bytes "UserData/Keys" "private.pem" (private_bytes sk) ;;;
              write_file_bytes "UserData/Keys" "public.pem"
                (public_bytes (public_of sk))
          | _ => raise e
          end).

Definition load_or_generate_keys : Py Messenger unit :=
  load_or_generate_symmetric_key ;;; load_or_generate_key_pair.

Definition save_friend_public_key (friend_username : string)
    (public_key_pem : bytes) : Py Messenger bool :=
  try_except
    (write_file_bytes "UserData/Keys/friends" (friend_key_file friend_username)
       public_key_pem ;;;
     key <- or_raise ValueError (load_pem_public_key public_key_pem) ;;
     modify (with_em (set_friend_public_key friend_username key)) ;;;
     ret true)
    (λ _, ret false).

(** *** data_manager.py *)

(** [key[n:]] *)
Fixpoint str_drop (n : nat) (s : string) : string :=
  match n, s with
  | S n', String _ s' => str_drop n' s'
  | _, _ => s
  end.

Definition relations_path : string := "UserData/relations.json".

(** The loop of [load_relations] over [data.keys()]. *)
Definition load_relation (key : string) : Py Messenger unit :=
  if String.prefix "f_" key then
    modify (with_dm (λ dm, set_friends (friends dm ++ [str_drop 2 key]) dm))
  else if String.prefix "g_" key then
    modify (with_dm (λ dm, set_groups (groups dm ++ [str_drop 2 key]) dm))
  else ret tt.

(** [load_relations]: a missing file and a file that is not JSON leave
    the lists as they are; any other exception goes on. *)
Definition load_relations : Py Messenger unit :=
  try_except
    (text <- read_text relations_path ;;
     data <- or_raise JSONDecodeError (json_loads text) ;;
     modify (with_dm (set_friends [])) ;;;
     modify (with_dm (set_groups [])) ;;;
     match data with
     | JDict d => for_each (dict_keys d) load_relation
     | _ => raise AttributeError
     end)
    (λ e, match e with
          | FileNotFoundError | JSONDecodeError => ret tt
          | _ => raise e
          end).

(** One turn of the loops of [load_message_history], for the history
    stored under [key]. *)
Definition load_history (key : string) : Py Messenger unit :=
  try_except
    (file_exists <- path_exists (history_path key) ;;
     if file_exists : bool then
       text <- read_text (history_path key) ;;
       messages <- or_raise JSONDecodeError (json_loads text) ;;
       modify (with_dm (λ dm,
         set_message_history (dict_set key messages (message_history dm)) dm))
     else ret tt)
    (λ _, modify (with_dm (λ dm,
            set_message_history (dict_set key (JList []) (message_history dm)) dm))).

Definition load_message_history : Py Messenger unit :=
  modify (with_dm (set_message_history [])) ;;;
  fr <- gets (λ w, friends (data_manager w)) ;;
  for_each fr load_history ;;;
  gr <- gets (λ w, groups (data_manager w)) ;;
  for_each gr (λ group, load_history ("group_" +:+ group)).

(** [load_sync_time]: [UnicodeDecodeError] is a [ValueError]. *)
Definition load_sync_time : Py Messenger unit :=
  try_except
    (text <- read_text sync_time_path ;;
     t <- or_raise ValueError (int_of_str (str_strip text)) ;;
     modify (with_dm (set_last_sync_time t)))
    (λ e, match e with
          | FileNotFoundError | ValueError | UnicodeDecodeError =>
              modify (with_dm (set_last_sync_time 0))
          | _ => raise e
          end).

(** [DataManager.add_friend] *)
Definition add_friend (username : string) : Py Messenger bool :=
  fr <- gets (λ w, friends (data_manager w)) ;;
  if bool_decide (username ∈ fr) then ret false
  else
    modify (with_dm (set_friends (fr ++ [username]))) ;;;
    save_relations ;;;
    ret true.

(** *** server_api.py *)

(** What comes back from [messages/send]: [SendFailed] stands for a
    [RequestException] with its text, [SendAnswer] for the JSON body with
    its [success] flag and the keys [message_id] and [message] when they
    are there. *)
Inductive SendReply :=
  | SendFailed (error : string)
  | SendAnswer (success : bool) (message_id : option Z) (message : option string).

(** [ServerAPI.send_message]: [inl] for [(True, message_id)] and [inr] for
    [(False, text)]. *)
Definition api_send_message (relay : string → Envelope → Z → SendReply)
    (recipient_id : string) (encrypted_message : Envelope)
    : Py Messenger (option Z + string) :=
  tok <- gets auth_token ;;
  if token_truthy tok then
    timestamp <- time_time ;;
    match relay recipient_id encrypted_message timestamp with
    | SendAnswer true message_id _ => ret (inl message_id)
    | SendAnswer false _ message =>
        ret (inr (default "Failed to send message" message))
    | SendFailed error => ret (inr ("Network error: " +:+ error))
    end
  else ret (inr "Not authenticated").

(** *** main_messenger.py *)

(** One turn of the loops of [ensure_message_files_exist]. *)
Definition ensure_file (key : string) : Py Messenger unit :=
  file_exists <- path_exists (history_path key) ;;
  if file_exists : bool then ret tt
  else write_file "MessageHistory" (history_file key) (json_dumps (JList [])).

Definition ensure_message_files_exist : Py Messenger unit :=
  fr <- gets (λ w, friends (data_manager w)) ;;
  for_each fr ensure_file ;;;
  gr <- gets (λ w, groups (data_manager w)) ;;
  for_each gr (λ group, ensure_file ("group_" +:+ group)).

(** [MessengerWindow.send_message].  [message] is the text of the input
    widget, which the call clears at its end and which is not part of the
    state here; [group_branch] stands for what the call does when the
    current chat is a group. *)
Definition send_message (group_branch : string → string → Py Messenger unit)
    (relay : string → Envelope → Z → SendReply) (message : string)
    : Py Messenger unit :=
  current <- gets current_chat ;;
  match current with
  | None => ret tt
  | Some chat =>
      if negb (str_truthy message) || negb (str_truthy chat) then ret tt
      else if String.prefix "group_" chat
      then group_branch (str_drop 6 chat) message
      else
        let formatted_message := "You: " +:+ message in
        encrypted_message <- encrypt_message message chat ;;
        match encrypted_message with
        | Some envelope =>
            save_message chat formatted_message false ;;;
            chat_area_append formatted_message ;;;
            result <- api_send_message relay chat envelope ;;
            match result with
            | inl _ => ret tt
            | inr text =>
                show_notification ("Failed to send message: " +:+ text)
            end
        | None =>
            show_notification
              "Failed to encrypt message. Make sure you have the recipient's public key."
        end
  end.

(** ** Further notions used to state the properties *)

(** The key files hold what [em] has in memory. *)
Definition keys_on_disk (em : EncryptionManager) (files : gmap string bytes) : Prop :=
  files !! symmetric_key_path = Some (symmetric_key em)
  ∧ (∃ data, files !! private_key_path = Some data
             ∧ load_pem_private_key data = Some (private_key em))
  ∧ (∃ data, files !! public_key_path = Some data
             ∧ load_pem_public_key data = Some (public_key em)).

(** The keys of [relations.json] for friends and groups without repeats. *)
Definition relation_keys (fr gr : list string) : list string :=
  (String.append "f_" <$> fr) ++ (String.append "g_" <$> gr).

(** The keys under which [load_message_history] looks for a file. *)
Definition listed_keys (dm : DataManager) : list string :=
  friends dm ++ (String.append "group_" <$> groups dm).

(** What [load_message_history] makes of the file of [key]: no entry
    without a file, the parsed text, and an empty list for a file that
    cannot be read as JSON. *)
Definition stored_history (files : gmap string bytes)
    (key : string) : option json :=
  data ← files !! history_path key;
  Some (default (JList []) (utf8_decode data ≫= json_loads)).

(** The lines of the conversation [key] as [save_message] finds them: a
    conversation without an entry has none, and an entry that is not a
    list has no lines to append to. *)
Definition history_lines (w : Messenger) (key : string)
    : option (list json) :=
  match dict_get key (message_history (data_manager w)) with
  | Some (JList l) => Some l
  | Some _ => None
  | None => Some []
  end.

End client_more.
End Client.

(** * The relay *)
Module Relay.
Local Open Scope py_scope.
Local Open Scope Z_scope.

(** ** database.py: the tables *)

Record User := {
  u_id : Z;
  u_username : string;
  u_email : string;
  u_password_hash : string;
  u_public_key : string;
  u_created_at : Z;
  u_last_login : option Z;
}.

Record AuthToken := {
  t_id : Z;
  t_user_id : Z;
  t_token : string;
  t_created_at : Z;
  t_expires_at : Z;
}.

Inductive Status := pending | accepted | rejected.

Record Friend := {
  f_id : Z;
  f_user_id : Z;
  f_friend_id : Z;
  f_status : Status;
  f_created_at : Z;
  f_updated_at : option Z;
}.

Record Group := {
  gr_id : Z;
  gr_name : string;
  gr_created_by : Z;
  gr_created_at : Z;
}.

Record GroupMember := {
  gm_id : Z;
  gm_group_id : Z;
  gm_user_id : Z;
  gm_joined_at : Z;
}.

Record Message := {
  m_id : Z;
  m_sender_id : Z;
  m_recipient_id : Z;
  m_encrypted_key : string;
  m_encrypted_content : string;
  m_is_group : bool;
  m_timestamp : Z;
  m_delivered : bool;
}.

(** A table with an [INTEGER PRIMARY KEY AUTOINCREMENT] column: its rows
    in rowid order and the largest rowid handed out so far. *)
Record Table (R : Type) := { rows : list R; seq : Z }.
Arguments rows {R} t.
Arguments seq {R} t.

Definition empty_table {R} : Table R := {| rows := []; seq := 0 |}.

(** [INSERT]: the new row gets the next rowid. *)
Definition insert_row {R} (mk : Z → R) (t : Table R) : Table R * Z :=
  let id := seq t + 1 in ({| rows := rows t ++ [mk id]; seq := id |}, id).

(** [UPDATE ... WHERE cond] *)
Definition update_rows {R} (cond : R → bool) (f : R → R) (t : Table R) : Table R :=
  {| rows := (λ r, if cond r then f r else r) <$> rows t; seq := seq t |}.

(** The database as the relay's one connection sees it. *)
Record Database := {
  users : Table User;
  auth_tokens : Table AuthToken;
  friends : Table Friend;
  groups : Table Group;
  group_members : Table GroupMember;
  messages : Table Message;
}.

Definition empty_database : Database :=
  {| users := empty_table; auth_tokens := empty_table; friends := empty_table;
     groups := empty_table; group_members := empty_table;
     messages := empty_table |}.

Definition set_users (t : Table User) (db : Database) :=
  {| users := t; auth_tokens := auth_tokens db; friends := friends db;
     groups := groups db; group_members := group_members db;
     messages := messages db |}.
Definition set_auth_tokens (t : Table AuthToken) (db : Database) :=
  {| users := users db; auth_tokens := t; friends := friends db;
     groups := groups db; group_members := group_members db;
     messages := messages db |}.
Definition set_friends (t : Table Friend) (db : Database) :=
  {| users := users db; auth_tokens := auth_tokens db; friends := t;
     groups := groups db; group_members := group_members db;
     messages := messages db |}.
Definition set_messages (t : Table Message) (db : Database) :=
  {| users := users db; auth_tokens := auth_tokens db; friends := friends db;
     groups := groups db; group_members := group_members db;
     messages := t |}.

(** ** database.py: users and tokens *)

(** The [UNIQUE] constraints of [users]. *)
Definition user_conflicts (username email : string) (u : User) : bool :=
  bool_decide (u_username u = username) || bool_decide (u_email u = email).

(** [create_user]: the new id, or [0] when the insert violates a
    constraint. *)
Definition create_user (now : Z) (username email password_hash public_key : string)
    : Py Database Z :=
  db <- get ;;
  if existsb (user_conflicts username email) (rows (users db)) then ret 0
  else
    let '(t, id) :=
      insert_row (λ id, {| u_id := id; u_username := username; u_email := email;
                           u_password_hash := password_hash;
                           u_public_key := public_key; u_created_at := now;
                           u_last_login := None |}) (users db) in
    modify (set_users t) ;;; ret id.

Definition get_user_by_username (username : string) : Py Database (option User) :=
  gets (λ db, head (filter (λ u, u_username u = username) (rows (users db)))).

Definition create_auth_token (now : Z) (user_id : Z) (token : string)
    (expires_in : Z) : Py Database bool :=
  db <- get ;;
  if existsb (λ t, bool_decide (t_token t = token)) (rows (auth_tokens db))
  then ret false
  else
    let '(t, _) :=
      insert_row (λ id, {| t_id := id; t_user_id := user_id; t_token := token;
                           t_created_at := now; t_expires_at := now + expires_in |})
                 (auth_tokens db) in
    modify (set_auth_tokens t) ;;; ret true.

(** [validate_auth_token]: [SELECT user_id FROM auth_tokens WHERE token = ?
    AND expires_at > ?] and [fetchone]. *)
Definition validate_auth_token (now : Z) (token : string) : Py Database (option Z) :=
  gets (λ db, t_user_id <$>
    head (filter (λ t, t_token t = token ∧ t_expires_at t > now)
                 (rows (auth_tokens db)))).

(** ** database.py: friends *)

(** The dictionary [{"success": ..., "message": ...}]. *)
Record Result := { success : bool; message : string }.

(** [add_friend_request].  Its query for an existing edge can match two
    rows, the edge and its mirror, and has no [ORDER BY]: [fetchone] is
    the row that the engine hands out first. *)
Definition add_friend_request (fetchone : list Friend → option Friend)
    (now : Z) (user_id : Z) (friend_username : string) : Py Database Result :=
  friend <- get_user_by_username friend_username ;;
  match friend with
  | None => ret {| success := false; message := "User not found" |}
  | Some friend =>
      let friend_id := u_id friend in
      if bool_decide (user_id = friend_id)
      then ret {| success := false;
                  message := "You cannot add yourself as a friend" |}
      else
        db <- get ;;
        let existing :=
          fetchone (filter (λ f, (f_user_id f = user_id ∧ f_friend_id f = friend_id)
                               ∨ (f_user_id f = friend_id ∧ f_friend_id f = user_id))
                           (rows (friends db))) in
        match existing with
        | Some e =>
            match f_status e with
            | accepted => ret {| success := false; message := "Already friends" |}
            | pending => ret {| success := false;
                                message := "Friend request already pending" |}
            | rejected =>
                modify (set_friends
                  (update_rows (λ f, bool_decide (f_id f = f_id e))
                     (λ f, {| f_id := f_id f; f_user_id := f_user_id f;
                              f_friend_id := f_friend_id f; f_status := pending;
                              f_created_at := f_created_at f;
                              f_updated_at := Some now |})
                     (friends db))) ;;;
                ret {| success := true; message := "Friend request sent" |}
            end
        | None =>
            if existsb (λ f, bool_decide (f_user_id f = user_id ∧ f_friend_id f = friend_id))
                       (rows (friends db))
            then raise IntegrityError
            else
              let '(t, _) :=
                insert_row (λ id, {| f_id := id; f_user_id := user_id;
                                     f_friend_id := friend_id; f_status := pending;
                                     f_created_at := now; f_updated_at := None |})
                           (friends db) in
              modify (set_friends t) ;;;
              ret {| success := true; message := "Friend request sent" |}
        end
  end.

(** [respond_to_friend_request].  The [UPDATE] is done when the [INSERT]
    of the mirror edge raises, and stays in the connection's view. *)
Definition respond_to_friend_request (now : Z) (request_id user_id : Z)
    (accept : bool) : Py Database Result :=
  db <- get ;;
  match head (filter (λ f, f_id f = request_id ∧ f_friend_id f = user_id)
                     (rows (friends db))) with
  | None => ret {| success := false; message := "Friend request not found" |}
  | Some request =>
      let status := if accept then accepted else rejected in
      let updated :=
        update_rows (λ f, bool_decide (f_id f = request_id))
          (λ f, {| f_id := f_id f; f_user_id := f_user_id f;
                   f_friend_id := f_friend_id f; f_status := status;
                   f_created_at := f_created_at f; f_updated_at := Some now |})
          (friends db) in
      modify (set_friends updated) ;;;
      (if accept then
         if existsb (λ f, bool_decide (f_user_id f = user_id
                                       ∧ f_friend_id f = f_user_id request))
                    (rows updated)
         then raise IntegrityError
         else
           let '(t, _) :=
             insert_row (λ id, {| f_id := id; f_user_id := user_id;
                                  f_friend_id := f_user_id request;
                                  f_status := accepted; f_created_at := now;
                                  f_updated_at := None |}) updated in
           modify (set_friends t)
       else ret tt) ;;;
      ret {| success := true;
             message := if accept then "Friend request accepted"
                        else "Friend request rejected" |}
  end.

(** ** database.py: messages *)

(** A row of [get_messages]. *)
Record DirectRow := {
  dr_id : Z;
  dr_sender_id : Z;
  dr_sender : string;
  dr_encrypted_key : string;
  dr_encrypted_content : string;
  dr_timestamp : Z;
  dr_is_group : bool;
}.

(** A row of [get_group_messages]. *)
Record GroupRow := {
  gw_id : Z;
  gw_sender_id : Z;
  gw_sender : string;
  gw_group_id : Z;
  gw_group_name : string;
  gw_encrypted_key : string;
  gw_encrypted_content : string;
  gw_timestamp : Z;
}.

Definition direct_row (m : Message) (u : User) : DirectRow :=
  {| dr_id := m_id m; dr_sender_id := m_sender_id m; dr_sender := u_username u;
     dr_encrypted_key := m_encrypted_key m;
     dr_encrypted_content := m_encrypted_content m;
     dr_timestamp := m_timestamp m; dr_is_group := m_is_group m |}.

Definition group_row (m : Message) (u : User) (g : Group) : GroupRow :=
  {| gw_id := m_id m; gw_sender_id := m_sender_id m; gw_sender := u_username u;
     gw_group_id := gr_id g; gw_group_name := gr_name g;
     gw_encrypted_key := m_encrypted_key m;
     gw_encrypted_content := m_encrypted_content m;
     gw_timestamp := m_timestamp m |}.

(** The [WHERE] clause of [get_messages]: a direct message addressed to
    [user_id], newer than the watermark. *)
Definition direct_for (user_id since_timestamp : Z) (m : Message) : Prop :=
  m_recipient_id m = user_id ∧ m_timestamp m > since_timestamp
  ∧ m_is_group m = false.

#[global] Instance direct_for_dec u s m : Decision (direct_for u s m).
Proof. unfold direct_for. apply _. Defined.

(** The [JOIN users u ON m.sender_id = u.id] of [get_messages], for one
    message. *)
Definition direct_join (db : Database) (m : Message) : list DirectRow :=
  u ← filter (λ u, m_sender_id m = u_id u) (rows (users db));
  [direct_row m u].

(** The rows that the [FROM ... JOIN ... WHERE] part of [get_messages]
    selects, before [ORDER BY]. *)
Definition direct_selection (db : Database) (user_id since_timestamp : Z)
    : list DirectRow :=
  filter (direct_for user_id since_timestamp) (rows (messages db))
  ≫= direct_join db.

(** The three [JOIN]s of [get_group_messages], for one message, with
    [gm.user_id = ?] of its [WHERE] clause. *)
Definition group_join (db : Database) (user_id : Z) (m : Message)
    : list GroupRow :=
  u ← filter (λ u, m_sender_id m = u_id u) (rows (users db));
  g ← filter (λ g, m_recipient_id m = gr_id g) (rows (groups db));
  gm ← filter (λ gm, gr_id g = gm_group_id gm ∧ gm_user_id gm = user_id)
              (rows (group_members db));
  [group_row m u g].

(** The rows that [get_group_messages] selects, before [ORDER BY]. *)
Definition group_selection (db : Database) (user_id since_timestamp : Z)
    : list GroupRow :=
  filter (λ m, m_timestamp m > since_timestamp ∧ m_is_group m = true)
         (rows (messages db))
  ≫= group_join db user_id.

(** [ORDER BY key ASC]: the selected rows in ascending order of the key.
    SQLite's documentation of [SELECT]: "The order in which two rows for
    which all ORDER BY expressions evaluate to equal values are returned
    is undefined."  So any ascending arrangement of the selection is a
    possible answer. *)
Definition order_by {A} (key : A → Z) (selection result : list A) : Prop :=
  result ≡ₚ selection ∧ StronglySorted (λ a b, key a ≤ key b) result.

(** [UPDATE messages SET delivered = 1 WHERE id IN (...)] *)
Definition mark_delivered (ids : list Z) (db : Database) : Database :=
  set_messages
    (update_rows (λ m, bool_decide (m_id m ∈ ids))
       (λ m, {| m_id := m_id m; m_sender_id := m_sender_id m;
                m_recipient_id := m_recipient_id m;
                m_encrypted_key := m_encrypted_key m;
                m_encrypted_content := m_encrypted_content m;
                m_is_group := m_is_group m; m_timestamp := m_timestamp m;
                m_delivered := true |})
       (messages db)) db.

(** The integers that SQLite stores: 64 bits, signed. *)
Definition int64 (z : Z) : bool := bool_decide (- 2 ^ 63 ≤ z < 2 ^ 63).

(** [sqlite3] binds an [int] to a [?]: it raises [OverflowError] for one
    that SQLite cannot store, before the statement runs. *)
Definition bind_parameter (z : Z) : Py Database unit :=
  if int64 z then ret tt else raise OverflowError.

(** [ORDER BY m.timestamp ASC] over [messages]: the engine goes through
    the table by rowid, which is [id], and its sorter keeps the rows of one
    second in that order. *)
Definition row_le {A} (timestamp id : A → Z) : relation A :=
  λ a b, timestamp a < timestamp b ∨ (timestamp a = timestamp b ∧ id a ≤ id b).
#[global] Instance row_le_dec {A} (timestamp id : A → Z)
  : RelDecision (row_le timestamp id).
Proof. intros a b. unfold row_le. apply _. Defined.
Definition by_timestamp {A} (timestamp id : A → Z) (selection : list A) : list A :=
  merge_sort (row_le timestamp id) selection.

Section receive.
Context {Q : Sqlite}.

(** [get_messages]: the [UPDATE] has one [?] for each message that the
    [SELECT] returned, and raises [OperationalError] when these are more
    than the engine takes. *)
Definition get_messages (user_id since_timestamp : Z)
    : Py Database (list DirectRow) :=
  bind_parameter user_id ;;;
  bind_parameter since_timestamp ;;;
  db <- get ;;
  let messages :=
    by_timestamp dr_timestamp dr_id
      (direct_selection db user_id since_timestamp) in
  (match messages with
   | [] => ret tt
   | _ =>
       let message_ids := dr_id <$> messages in
       if decide (length message_ids ≤ variable_limit)%nat
       then modify (mark_delivered message_ids)
       else raise OperationalError
   end) ;;;
  ret messages.

Definition get_group_messages (user_id since_timestamp : Z)
    : Py Database (list GroupRow) :=
  bind_parameter user_id ;;;
  bind_parameter since_timestamp ;;;
  db <- get ;;
  ret (by_timestamp gw_timestamp gw_id
         (group_selection db user_id since_timestamp)).

End receive.

(** ** server.py *)

(** [authorization.split(" ")] *)
Fixpoint split_space (s : string) : list string :=
  match s with
  | EmptyString => [EmptyString]
  | String c s' =>
      if Ascii.eqb c " "%char then EmptyString :: split_space s'
      else match split_space s' with
           | h :: t => String c h :: t
           | [] => [String c EmptyString]
           end
  end.

(** [get_current_user]: the dependency of every authenticated route. *)
Definition get_current_user (now : Z) (authorization : option string)
    : Py Database Z :=
  match authorization with
  | None =>
      raise (HTTPException 401 "Invalid authentication credentials")
  | Some header =>
      if negb (String.prefix "Bearer " header)
      then raise (HTTPException 401 "Invalid authentication credentials")
      else
        token <- or_raise IndexError (split_space header !! 1%nat) ;;
        user_id <- validate_auth_token now token ;;
        match user_id with
        | Some uid =>
            if bool_decide (uid = 0)
            then raise (HTTPException 401 "Invalid or expired token")
            else ret uid
        | None => raise (HTTPException 401 "Invalid or expired token")
        end
  end.

(** The body of [UserRegister] and the answer of [register]. *)
Record UserRegister := {
  rq_username : string;
  rq_password : string;
  rq_email : string;
  rq_public_key : string;
}.
Record Registered := { rg_token : string; rg_user_id : Z }.

Section server.
Context {P : Primitives}.

(** [hash_password] with the salt that [os.urandom(32)] gave. *)
Definition hash_password (salt : bytes) (password : string) : string :=
  b64encode (salt ++ pbkdf2_hmac_sha256 (utf8_encode password) salt).

(** [register]; [salt] and [token] are what [os.urandom(32)] and
    [secrets.token_hex(32)] give to this request. *)
Definition register (now : Z) (salt : bytes) (token : string)
    (user : UserRegister) : Py Database Registered :=
  let password_hash := hash_password salt (rq_password user) in
  user_id <- create_user now (rq_username user) (rq_email user)
               password_hash (rq_public_key user) ;;
  if bool_decide (user_id = 0)
  then raise (HTTPException 400 "Username or email already exists")
  else
    create_auth_token now user_id token 604800 ;;;
    ret {| rg_token := token; rg_user_id := user_id |}.

End server.

(** ** Notions used to state the properties *)

(** The token that an [Authorization] header presents, if any. *)
Definition bearer_token (authorization : option string) : option string :=
  match authorization with
  | Some header =>
      if String.prefix "Bearer " header then split_space header !! 1%nat
      else None
  | None => None
  end.

(** What the schema and the callers of [create_auth_token] give: tokens
    are [UNIQUE], and a token belongs to a user, whose rowid is not [0]. *)
Definition tokens_consistent (db : Database) : Prop :=
  NoDup (t_token <$> rows (auth_tokens db))
  ∧ Forall (λ t, t_user_id t ≠ 0) (rows (auth_tokens db)).

(** What the schema and [send_message] give: user and group ids are
    primary keys, a membership pair is [UNIQUE], and the sender of a
    stored message is a user. *)
Definition db_consistent (db : Database) : Prop :=
  NoDup (u_id <$> rows (users db))
  ∧ NoDup (gr_id <$> rows (groups db))
  ∧ NoDup ((λ gm, (gm_group_id gm, gm_user_id gm)) <$> rows (group_members db))
  ∧ Forall (λ m, m_sender_id m ∈ u_id <$> rows (users db)) (rows (messages db)).

(** [user_id] is a member of the existing group [group_id]. *)
Definition member_of (db : Database) (user_id group_id : Z) : Prop :=
  group_id ∈ gr_id <$> rows (groups db)
  ∧ (group_id, user_id)
    ∈ (λ gm, (gm_group_id gm, gm_user_id gm)) <$> rows (group_members db).

(** A group message sent to a group of [user_id], newer than the
    watermark. *)
Definition group_for (db : Database) (user_id since_timestamp : Z)
    (m : Message) : Prop :=
  m_timestamp m > since_timestamp ∧ m_is_group m = true
  ∧ member_of db user_id (m_recipient_id m).

#[global] Instance member_of_dec db u g : Decision (member_of db u g).
Proof. unfold member_of. apply _. Defined.
#[global] Instance group_for_dec db u s m : Decision (group_for db u s m).
Proof. unfold group_for. apply _. Defined.

(** The ordered pairs [(user_id, friend_id)] of the friendship edges. *)
Definition edge_pairs (t : Table Friend) : list (Z * Z) :=
  (λ f, (f_user_id f, f_friend_id f)) <$> rows t.

(** ** database.py: the remaining methods

    The connection never sets [PRAGMA foreign_keys], so SQLite does not
    enforce the [FOREIGN KEY] clauses of the schema: an insert is refused
    by a [UNIQUE] constraint only. *)

#[global] Instance Status_eq_dec : EqDecision Status.
Proof. solve_decision. Defined.

Definition set_groups (t : Table Group) (db : Database) :=
  {| users := users db; auth_tokens := auth_tokens db; friends := friends db;
     groups := t; group_members := group_members db;
     messages := messages db |}.
Definition set_group_members (t : Table GroupMember) (db : Database) :=
  {| users := users db; auth_tokens := auth_tokens db; friends := friends db;
     groups := groups db; group_members := t;
     messages := messages db |}.

(** [DELETE ... WHERE cond]: the rows go, the rowid sequence stays. *)
Definition delete_rows {R} (cond : R → Prop) `{∀ r, Decision (cond r)}
    (t : Table R) : Table R :=
  {| rows := filter (λ r, ¬ cond r) (rows t); seq := seq t |}.

(** A [SELECT] without [ORDER BY]: the engine may hand out the selected
    rows in any order. *)
Definition in_any_order {A} (selection result : list A) : Prop :=
  result ≡ₚ selection.

(** [get_user_by_id]: [id] is the primary key, so the query selects one
    row at most. *)
Definition get_user_by_id (user_id : Z) : Py Database (option User) :=
  bind_parameter user_id ;;;
  gets (λ db, head (filter (λ u, u_id u = user_id) (rows (users db)))).

Definition update_last_login (now user_id : Z) : Py Database unit :=
  modify (λ db, set_users
    (update_rows (λ u, bool_decide (u_id u = user_id))
       (λ u, {| u_id := u_id u; u_username := u_username u; u_email := u_email u;
                u_password_hash := u_password_hash u;
                u_public_key := u_public_key u; u_created_at := u_created_at u;
                u_last_login := Some now |})
       (users db)) db).

(** [delete_auth_token]: whether a row was deleted. *)
Definition delete_auth_token (token : string) : Py Database bool :=
  db <- get ;;
  modify (set_auth_tokens (delete_rows (λ t, t_token t = token) (auth_tokens db))) ;;;
  ret (bool_decide (filter (λ t, t_token t = token) (rows (auth_tokens db)) ≠ [])).

(** A row of [get_friend_requests]. *)
Record RequestRow := {
  fq_id : Z;
  fq_user_id : Z;
  fq_status : Status;
  fq_created_at : Z;
  fq_username : string;
}.

Definition request_row (f : Friend) (u : User) : RequestRow :=
  {| fq_id := f_id f; fq_user_id := f_user_id f; fq_status := f_status f;
     fq_created_at := f_created_at f; fq_username := u_username u |}.

Definition requests_selection (db : Database) (user_id : Z) : list RequestRow :=
  f ← filter (λ f, f_friend_id f = user_id ∧ f_status f = pending)
             (rows (friends db));
  u ← filter (λ u, f_user_id f = u_id u) (rows (users db));
  [request_row f u].

Definition get_friend_requests (db : Database) (user_id : Z)
    (result : list RequestRow) : Prop :=
  in_any_order (requests_selection db user_id) result.

(** A row of [get_friends]. *)
Record FriendRow := {
  fr_id : Z;
  fr_username : string;
  fr_friends_since : Z;
}.

Definition friend_row (f : Friend) (u : User) : FriendRow :=
  {| fr_id := u_id u; fr_username := u_username u;
     fr_friends_since := f_created_at f |}.

Definition friends_selection (db : Database) (user_id : Z) : list FriendRow :=
  f ← filter (λ f, f_user_id f = user_id ∧ f_status f = accepted)
             (rows (friends db));
  u ← filter (λ u, f_friend_id f = u_id u) (rows (users db));
  [friend_row f u].

Definition get_friends (db : Database) (user_id : Z)
    (result : list FriendRow) : Prop :=
  in_any_order (friends_selection db user_id) result.

(** [save_message]: the new message's id; [delivered] takes its default. *)
Definition save_message (now sender_id recipient_id : Z)
    (encrypted_key encrypted_content : string) (is_group : bool) : Py Database Z :=
  db <- get ;;
  let '(t, id) :=
    insert_row (λ id, {| m_id := id; m_sender_id := sender_id;
                         m_recipient_id := recipient_id;
                         m_encrypted_key := encrypted_key;
                         m_encrypted_content := encrypted_content;
                         m_is_group := is_group; m_timestamp := now;
                         m_delivered := false |}) (messages db) in
  modify (set_messages t) ;;; ret id.

(** The [UNIQUE(group_id, user_id)] constraint against one more row. *)
Definition is_member_row (group_id user_id : Z) (gm : GroupMember) : bool :=
  bool_decide (gm_group_id gm = group_id ∧ gm_user_id gm = user_id).

(** [INSERT INTO group_members], which raises on a pair that is there. *)
Definition insert_group_member (now group_id user_id : Z) : Py Database unit :=
  db <- get ;;
  if existsb (is_member_row group_id user_id) (rows (group_members db))
  then raise IntegrityError
  else
    let '(t, _) :=
      insert_row (λ id, {| gm_id := id; gm_group_id := group_id;
                           gm_user_id := user_id; gm_joined_at := now |})
                 (group_members db) in
    modify (set_group_members t).

Definition create_group (now : Z) (name : string) (created_by : Z)
    : Py Database Z :=
  db <- get ;;
  let '(t, group_id) :=
    insert_row (λ id, {| gr_id := id; gr_name := name;
                         gr_created_by := created_by; gr_created_at := now |})
               (groups db) in
  modify (set_groups t) ;;;
  insert_group_member now group_id created_by ;;;
  ret group_id.

Definition add_group_member (now group_id user_id : Z) : Py Database bool :=
  try_except (insert_group_member now group_id user_id ;;; ret true)
             (λ e, match e with
                   | IntegrityError => ret false
                   | _ => raise e
                   end).

(** A row of [get_group_members]. *)
Record MemberRow := {
  mr_id : Z;
  mr_username : string;
  mr_joined_at : Z;
}.

Definition group_members_selection (db : Database) (group_id : Z)
    : list MemberRow :=
  gm ← filter (λ gm, gm_group_id gm = group_id) (rows (group_members db));
  u ← filter (λ u, gm_user_id gm = u_id u) (rows (users db));
  [{| mr_id := u_id u; mr_username := u_username u;
      mr_joined_at := gm_joined_at gm |}].

Definition get_group_members (db : Database) (group_id : Z)
    (result : list MemberRow) : Prop :=
  in_any_order (group_members_selection db group_id) result.

(** The table [user_backups], the only one that [save_user_backup] and
    [get_user_backup] touch. *)
Record UserBackup := {
  ub_id : Z;
  ub_user_id : Z;
  ub_backup_data : string;
  ub_timestamp : Z;
}.

Definition save_user_backup (now user_id : Z) (backup_data : string)
    : Py (Table UserBackup) bool :=
  modify (delete_rows (λ b, ub_user_id b = user_id)) ;;;
  t <- get ;;
  let '(t', _) :=
    insert_row (λ id, {| ub_id := id; ub_user_id := user_id;
                         ub_backup_data := backup_data; ub_timestamp := now |}) t in
  modify (λ _, t') ;;;
  ret true.

(** [get_user_backup]: [ORDER BY timestamp DESC LIMIT 1] and [fetchone];
    among backups of the same second the engine chooses. *)
Definition get_user_backup (t : Table UserBackup) (user_id : Z)
    (result : option UserBackup) : Prop :=
  ∃ sorted,
    order_by (λ b, - ub_timestamp b)
      (filter (λ b, ub_user_id b = user_id) (rows t)) sorted
    ∧ result = head sorted.

(** ** server.py: the remaining routes

    A route reads the clock once in each database call that stamps or
    checks a time; [clock] gives the readings of one request, in order. *)

(** The bodies of the requests. *)
Record UserLogin := {
  lg_username : string;
  lg_password : string;
}.

Record MessageSend := {
  ms_recipient_id : string;
  ms_encrypted_key : string;
  ms_encrypted_content : string;
  ms_timestamp : Z;
  ms_is_group : bool;
}.

Record GroupCreate := {
  gc_name : string;
  gc_members : list string;
}.

Section routes.
Context {P : Primitives} {B : Builtins}.

Definition verify_password (stored_password provided_password : string) : bool :=
  match b64decode stored_password with
  | Some stored_bytes =>
      let salt := take 32 stored_bytes in
      let stored_key := drop 32 stored_bytes in
      bool_decide (pbkdf2_hmac_sha256 (utf8_encode provided_password) salt
                   = stored_key)
  | None => false
  end.

(** [login]; [token] is what [secrets.token_hex(32)] gives to this
    request. *)
Definition login (clock : nat → Z) (token : string) (user : UserLogin)
    : Py Database Registered :=
  db_user <- get_user_by_username (lg_username user) ;;
  match db_user with
  | Some u =>
      if verify_password (u_password_hash u) (lg_password user) then
        update_last_login (clock 0%nat) (u_id u) ;;;
        create_auth_token (clock 1%nat) (u_id u) token 604800 ;;;
        ret {| rg_token := token; rg_user_id := u_id u |}
      else raise (HTTPException 401 "Invalid username or password")
  | None => raise (HTTPException 401 "Invalid username or password")
  end.

Definition logout (clock : nat → Z) (authorization : option string)
    : Py Database unit :=
  get_current_user (clock 0%nat) authorization ;;;
  match authorization with
  | Some header =>
      token <- or_raise IndexError (split_space header !! 1%nat) ;;
      delete_auth_token token ;;; ret tt
  | None => raise AttributeError
  end.

(** The route [add_friend]. *)
Definition add_friend (fetchone : list Friend → option Friend)
    (clock : nat → Z) (authorization : option string) (username : string)
    : Py Database Result :=
  user_id <- get_current_user (clock 0%nat) authorization ;;
  result <- add_friend_request fetchone (clock 1%nat) user_id username ;;
  if success result then ret result
  else raise (HTTPException 400 (message result)).

(** The route [respond_to_friend_request]. *)
Definition respond (clock : nat → Z) (authorization : option string)
    (request_id : Z) (accept : bool) : Py Database Result :=
  user_id <- get_current_user (clock 0%nat) authorization ;;
  result <- respond_to_friend_request (clock 1%nat) request_id user_id accept ;;
  if success result then ret result
  else raise (HTTPException 400 (message result)).

(** The route [send_message]: the new message's id. *)
Definition send_message (clock : nat → Z) (authorization : option string)
    (message : MessageSend) : Py Database Z :=
  user_id <- get_current_user (clock 0%nat) authorization ;;
  match int_of_str (ms_recipient_id message) with
  | None => raise (HTTPException 400 "Invalid recipient ID")
  | Some recipient_id =>
      recipient <- get_user_by_id recipient_id ;;
      if bool_decide (recipient = None) && negb (ms_is_group message)
      then raise (HTTPException 404 "Recipient not found")
      else save_message (clock 1%nat) user_id recipient_id
             (ms_encrypted_key message) (ms_encrypted_content message)
             (ms_is_group message)
  end.

(** The loop of the route [create_group] over the listed members;
    [tick] counts the readings of the clock. *)
Fixpoint add_listed_members (clock : nat → Z) (tick : nat) (group_id : Z)
    (members : list string) : Py Database unit :=
  match members with
  | [] => ret tt
  | username :: rest =>
      user <- get_user_by_username username ;;
      match user with
      | Some u =>
          add_group_member (clock tick) group_id (u_id u) ;;;
          add_listed_members clock (S tick) group_id rest
      | None => add_listed_members clock tick group_id rest
      end
  end.

(** The route [create_group]: the new group's id. *)
Definition create_group_route (clock : nat → Z) (authorization : option string)
    (group : GroupCreate) : Py Database Z :=
  user_id <- get_current_user (clock 0%nat) authorization ;;
  group_id <- create_group (clock 1%nat) (gc_name group) user_id ;;
  add_listed_members clock 2 group_id (gc_members group) ;;;
  ret group_id.

(** The route [add_group_member]. *)
Definition add_group_member_route (clock : nat → Z)
    (authorization : option string) (group_id : Z) (username : string)
    : Py Database unit :=
  user_id <- get_current_user (clock 0%nat) authorization ;;
  db <- get ;;
  if bool_decide (filter (λ gm, gm_group_id gm = group_id ∧ gm_user_id gm = user_id)
                         (rows (group_members db)) = [])
  then raise (HTTPException 403 "You are not a member of this group")
  else
    user_to_add <- get_user_by_username username ;;
    match user_to_add with
    | None => raise (HTTPException 404 "User not found")
    | Some u =>
        success <- add_group_member (clock 1%nat) group_id (u_id u) ;;
        if success : bool then ret tt
        else raise (HTTPException 400 "User is already a member of this group")
    end.

End routes.

Section app.
Context {P : Primitives} {B : Builtins} {Q : Sqlite}.

(** The route [receive_messages]. *)
Definition receive_messages (clock : nat → Z) (authorization : option string)
    (since : Z) : Py Database (list DirectRow) :=
  user_id <- get_current_user (clock 0%nat) authorization ;;
  get_messages user_id since.

(** The route [receive_group_messages]. *)
Definition receive_group_messages (clock : nat → Z)
    (authorization : option string) (since : Z)
    : Py Database (list GroupRow) :=
  user_id <- get_current_user (clock 0%nat) authorization ;;
  get_group_messages user_id since.

(** The requests that change the database, each with what the clock, the
    entropy and the engine give while it is served. *)
Inductive Request :=
  | Register (now : Z) (salt : bytes) (token : string) (user : UserRegister)
  | Login (clock : nat → Z) (token : string) (user : UserLogin)
  | Logout (clock : nat → Z) (authorization : option string)
  | AddFriend (fetchone : list Friend → option Friend) (clock : nat → Z)
              (authorization : option string) (username : string)
  | Respond (clock : nat → Z) (authorization : option string)
            (request_id : Z) (accept : bool)
  | SendMessage (clock : nat → Z) (authorization : option string)
                (message : MessageSend)
  | ReceiveMessages (clock : nat → Z) (authorization : option string)
                    (since : Z)
  | ReceiveGroupMessages (clock : nat → Z) (authorization : option string)
                         (since : Z)
  | CreateGroup (clock : nat → Z) (authorization : option string)
                (group : GroupCreate)
  | AddGroupMember (clock : nat → Z) (authorization : option string)
                   (group_id : Z) (username : string).

(** [serves req db db']: serving [req] takes the database from [db] to
    [db'], whether the route returns or raises. *)
Definition serves (req : Request) (db db' : Database) : Prop :=
  match req with
  | Register now salt token user =>
      db' = state_after (register now salt token user db)
  | Login clock token user => db' = state_after (login clock token user db)
  | Logout clock authorization =>
      db' = state_after (logout clock authorization db)
  | AddFriend fetchone clock authorization username =>
      db' = state_after (add_friend fetchone clock authorization username db)
  | Respond clock authorization request_id accept =>
      db' = state_after (respond clock authorization request_id accept db)
  | SendMessage clock authorization message =>
      db' = state_after (send_message clock authorization message db)
  | ReceiveMessages clock authorization since =>
      db' = state_after (receive_messages clock authorization since db)
  | ReceiveGroupMessages clock authorization since =>
      db' = state_after (receive_group_messages clock authorization since db)
  | CreateGroup clock authorization group =>
      db' = state_after (create_group_route clock authorization group db)
  | AddGroupMember clock authorization group_id username =>
      db' = state_after
              (add_group_member_route clock authorization group_id username db)
  end.

(** The databases that the relay can be in: the empty one and what served
    requests make of it. *)
Inductive reachable : Database → Prop :=
  | reachable_empty : reachable empty_database
  | reachable_serves req db db' :
      reachable db → serves req db db' → reachable db'.

End app.

(** ** Further notions used to state the properties *)

(** A text without a space, as [secrets.token_hex] gives. *)
Fixpoint no_space (s : string) : bool :=
  match s with
  | EmptyString => true
  | String c s' => negb (Ascii.eqb c " ") && no_space s'
  end.

(** What the schema gives for [users]: ids are primary keys and usernames
    are [UNIQUE]. *)
Definition users_consistent (db : Database) : Prop :=
  NoDup (u_id <$> rows (users db)) ∧ NoDup (u_username <$> rows (users db)).

(** The pairs [(group_id, user_id)] of the membership rows. *)
Definition member_pairs (db : Database) : list (Z * Z) :=
  (λ gm, (gm_group_id gm, gm_user_id gm)) <$> rows (group_members db).

(** The database after a membership row went in. *)
Definition with_member (now group_id user_id : Z) (db : Database) : Database :=
  set_group_members
    {| rows := rows (group_members db)
               ++ [{| gm_id := seq (group_members db) + 1;
                      gm_group_id := group_id; gm_user_id := user_id;
                      gm_joined_at := now |}];
       seq := seq (group_members db) + 1 |} db.

(** The database after a group row went in. *)
Definition with_group (now : Z) (name : string) (created_by : Z) (db : Database)
    : Database :=
  set_groups
    {| rows := rows (groups db)
               ++ [{| gr_id := seq (groups db) + 1; gr_name := name;
                      gr_created_by := created_by; gr_created_at := now |}];
       seq := seq (groups db) + 1 |} db.

(** What the route [send_message] stores for [message] at second [now]. *)
Definition stored_message (db : Database) (now sender_id recipient_id : Z)
    (message : MessageSend) : Message :=
  {| m_id := seq (messages db) + 1; m_sender_id := sender_id;
     m_recipient_id := recipient_id;
     m_encrypted_key := ms_encrypted_key message;
     m_encrypted_content := ms_encrypted_content message;
     m_is_group := ms_is_group message; m_timestamp := now;
     m_delivered := false |}.

(** What the schema's keys and the routes keep: ids are handed out in
    order from 1, usernames and tokens are unique, a token and a message
    belong to a user, membership and friendship pairs are unique. *)
Definition relay_invariant (db : Database) : Prop :=
  (NoDup (u_id <$> rows (users db))
   ∧ NoDup (u_username <$> rows (users db))
   ∧ 0 ≤ seq (users db)
   ∧ Forall (λ u, 0 < u_id u ≤ seq (users db)) (rows (users db)))
  ∧ (NoDup (t_token <$> rows (auth_tokens db))
     ∧ Forall (λ t, t_user_id t ∈ u_id <$> rows (users db))
              (rows (auth_tokens db)))
  ∧ (NoDup (gr_id <$> rows (groups db))
     ∧ Forall (λ g, gr_id g ≤ seq (groups db)) (rows (groups db))
     ∧ NoDup (member_pairs db)
     ∧ Forall (λ gm, gm_group_id gm ≤ seq (groups db))
              (rows (group_members db)))
  ∧ Forall (λ m, m_sender_id m ∈ u_id <$> rows (users db)) (rows (messages db))
  ∧ NoDup (edge_pairs (friends db)).

(** ** Sample databases *)

Definition sample_user (id : Z) (name : string) : User :=
  {| u_id := id; u_username := name; u_email := name +:+ "@example.org";
     u_password_hash := "hash"; u_public_key := "pem"; u_created_at := 1;
     u_last_login := None |}.

Definition sample_message (id sender recipient ts : Z) (is_group : bool) : Message :=
  {| m_id := id; m_sender_id := sender; m_recipient_id := recipient;
     m_encrypted_key := "key"; m_encrypted_content := "content";
     m_is_group := is_group; m_timestamp := ts; m_delivered := false |}.

(** Alice (1) and Bob (2), nothing else. *)
Definition two_users : Database :=
  set_users {| rows := [sample_user 1 "alice"; sample_user 2 "bob"]; seq := 2 |}
    empty_database.

(** Bob sent Alice three messages, at 10, 20 and 30. *)
Definition three_messages : Database :=
  set_messages {| rows := [sample_message 1 2 1 10 false;
                           sample_message 2 2 1 20 false;
                           sample_message 3 2 1 30 false]; seq := 3 |}
    two_users.

(** Bob sent Alice two messages within the same second. *)
Definition same_second : Database :=
  set_messages {| rows := [sample_message 1 2 1 10 false;
                           sample_message 2 2 1 10 false]; seq := 2 |}
    two_users.

(** Alice holds a token that expires at 100. *)
Definition one_token : Database :=
  set_auth_tokens {| rows := [{| t_id := 1; t_user_id := 1; t_token := "tok";
                                 t_created_at := 0; t_expires_at := 100 |}];
                     seq := 1 |}
    two_users.

(** Two ways for the engine to hand out the rows of a query without
    [ORDER BY]: in the order found, or the other way round. *)
Definition first_row {A} (l : list A) : option A := head l.
Definition last_row {A} (l : list A) : option A := head (reverse l).

(** Alice asks Bob, Bob accepts, each of them then rejects the edge that
    points at them, and Alice asks again. *)
Definition request_after_rejections (fetchone : list Friend → option Friend)
    : Py Database Result :=
  add_friend_request fetchone 10 1 "bob" ;;;
  respond_to_friend_request 11 1 2 true ;;;
  respond_to_friend_request 12 2 1 false ;;;
  respond_to_friend_request 13 1 2 false ;;;
  add_friend_request fetchone 14 1 "bob".

(** The edges as [(id, user_id, friend_id, status)]. *)
Definition edges (db : Database) : list (Z * Z * Z * Status) :=
  (λ f, (f_id f, f_user_id f, f_friend_id f, f_status f)) <$> rows (friends db).

End Relay.

(** * The client's uploads at the relay

    [ServerAPI.send_message] posts to the route [send_message] of the
    relay, and reads the response through [raise_for_status] and
    [json]. *)
Module Wire.
Section wire.
Context {P : Primitives} {B : Builtins}.

(** The [Authorization] header of the [requests] session: it is there
    once [load_auth_token] or [save_auth_token] has set a token. *)
Definition session_header (token : option string) : option string :=
  (λ t, "Bearer " +:+ t)%string <$> token.

(** The body of the request: the [data] of [ServerAPI.send_message] as
    the model [MessageSend] reads it; [is_group] takes its default. *)
Definition send_body (recipient_id : string)
    (encrypted_message : Client.Envelope) (timestamp : Z) : Relay.MessageSend :=
  {| Relay.ms_recipient_id := recipient_id;
     Relay.ms_encrypted_key := Client.env_key encrypted_message;
     Relay.ms_encrypted_content := Client.env_message encrypted_message;
     Relay.ms_timestamp := timestamp;
     Relay.ms_is_group := false |}.

(** What the client finds in the response: the body of a route that
    returned, and for a route that raised the [HTTPError] that
    [raise_for_status] raises for its status, a [RequestException];
    [describe] gives the text of that error. *)
Definition send_reply (describe : Exn → string) (o : Outcome Z)
    : Client.SendReply :=
  match o with
  | Ok message_id => Client.SendAnswer true (Some message_id) None
  | Raised e => Client.SendFailed (describe e)
  end.

(** The relay with the database [db], as [ServerAPI.send_message] of a
    session with [token] meets it. *)
Definition messages_send (describe : Exn → string) (clock : nat → Z)
    (token : option string) (db : Relay.Database)
    : string → Client.Envelope → Z → Client.SendReply :=
  λ recipient_id encrypted_message timestamp,
    send_reply describe
      (outcome (Relay.send_message clock (session_header token)
                  (send_body recipient_id encrypted_message timestamp) db)).

End wire.
End Wire.

(** * A small instance of the library interface

    Byte-level stand-ins for the library calls: enough to run the model and
    to show that the contracts above can be met together. *)
Module Toy.

Fixpoint pos_bits (p : positive) : string :=
  match p with
  | xH => EmptyString
  | xO p' => String "0" (pos_bits p')
  | xI p' => String "1" (pos_bits p')
  end.

Fixpoint bits_pos (s : string) : option positive :=
  match s with
  | EmptyString => Some xH
  | String c s' =>
      match bits_pos s' with
      | Some p => if Ascii.eqb c "0" then Some (xO p)
                  else if Ascii.eqb c "1" then Some (xI p) else None
      | None => None
      end
  end.

Abbreviation leaf := (bool + Z + string)%type.

Fixpoint json_to_tree (j : json) : gen_tree leaf :=
  match j with
  | JNull => GenNode 0 []
  | JBool b => GenLeaf (inl (inl b))
  | JInt z => GenLeaf (inl (inr z))
  | JStr s => GenLeaf (inr s)
  | JList l => GenNode 1 (json_to_tree <$> l)
  | JDict d =>
      GenNode 2 ((λ kv, GenNode 3 [GenLeaf (inr kv.1); json_to_tree kv.2]) <$> d)
  end.

Fixpoint tree_to_json (t : gen_tree leaf) : json :=
  match t with
  | GenLeaf (inl (inl b)) => JBool b
  | GenLeaf (inl (inr z)) => JInt z
  | GenLeaf (inr s) => JStr s
  | GenNode 1 ts => JList (tree_to_json <$> ts)
  | GenNode 2 ts =>
      JDict ((λ t, match t with
                   | GenNode 3 [GenLeaf (inr k); v] => (k, tree_to_json v)
                   | _ => (EmptyString, JNull)
                   end) <$> ts)
  | GenNode _ _ => JNull
  end.

Definition toy_json_dumps (j : json) : string :=
  String "J" (pos_bits (encode (json_to_tree j))).

Definition toy_json_loads (s : string) : option json :=
  match s with
  | String "J" bits =>
      p ← bits_pos bits; t ← decode p; Some (tree_to_json t)
  | _ => None
  end.

Definition toy_fernet_encrypt (k : bytes) (iv : N) (now : Z) (m : bytes) : bytes :=
  x80 :: k ++ m.

Definition toy_fernet_decrypt (k : bytes) (token : bytes) : option bytes :=
  match token with
  | x80 :: rest =>
      if decide (take (length k) rest = k) then Some (drop (length k) rest)
      else None
  | _ => None
  end.

Definition toy_rsa_decrypt (sk : byte) (c : bytes) : option bytes :=
  match c with
  | b :: m => if decide (b = sk) then Some m else None
  | [] => None
  end.

#[local] Instance toy : Primitives := {|
  pubkey := byte;
  privkey := byte;
  public_of := id;
  b64encode := string_of_list_byte;
  b64decode := λ s, Some (list_byte_of_string s);
  utf8_encode := list_byte_of_string;
  utf8_decode := λ b, Some (string_of_list_byte b);
  json_dumps := toy_json_dumps;
  json_dumps_indent := toy_json_dumps;
  json_loads := toy_json_loads;
  fernet_generate_key := λ r, [default x00 (Byte.of_N (r `mod` 256))];
  fernet_key_ok := λ k, bool_decide (k ≠ []);
  fernet_encrypt := toy_fernet_encrypt;
  fernet_decrypt := toy_fernet_decrypt;
  rsa_oaep_encrypt := λ pk r m, Some (pk :: m);
  rsa_oaep_decrypt := toy_rsa_decrypt;
  load_pem_public_key := λ b, match b with [k] => Some k | _ => None end;
  pbkdf2_hmac_sha256 := λ password salt, password ++ salt;
|}.

(** A machine that has no directory but those that the program makes, and
    an engine of before SQLite 3.32. *)
#[local] Instance toy_file_system : FileSystem := {|
  open_refuses := λ _, Some FileNotFoundError;
|}.

#[local] Instance toy_sqlite : Sqlite := {| variable_limit := 999 |}.

(** A client with Bob's key cached, one stored conversation and a token. *)
Definition alice : Client.Messenger :=
  {| Client.encryption_manager :=
       {| Client.symmetric_key := [x01; x02];
          Client.private_key := x0a; Client.public_key := x0a;
          Client.friend_public_keys := {[ "bob"%string := x0b ]} |};
     Client.data_manager :=
       {| Client.message_history := [("bob"%string, JList [JStr "bob: hi"])];
          Client.friends := ["bob"%string]; Client.groups := [];
          Client.last_sync_time := 0 |};
     Client.auth_token := Some "t0k3n"%string;
     Client.current_chat := None;
     Client.ui := [];
     Client.env :=
       {| Client.fs := ∅;
          Client.entropy := λ n, N.of_nat (7 + n);
          Client.drawn := 0;
          Client.clock := λ n, (100 + Z.of_nat n)%Z;
          Client.ticks := 0 |} |}.

(** Bob's client: his own key pair, nothing stored. *)
Definition bob : Client.Messenger :=
  {| Client.encryption_manager :=
       {| Client.symmetric_key := [x03];
          Client.private_key := x0b; Client.public_key := x0b;
          Client.friend_public_keys := ∅ |};
     Client.data_manager :=
       {| Client.message_history := []; Client.friends := [];
          Client.groups := []; Client.last_sync_time := 0 |};
     Client.auth_token := Some "b0b"%string;
     Client.current_chat := None;
     Client.ui := [];
     Client.env :=
       {| Client.fs := ∅;
          Client.entropy := λ n, N.of_nat n;
          Client.drawn := 0;
          Client.clock := λ n, (200 + Z.of_nat n)%Z;
          Client.ticks := 0 |} |}.

(** A vault with Alice's local key and nothing stored. *)
Definition fresh_vault : Client.Messenger :=
  Client.with_dm (Client.set_friends [])
    (Client.with_dm (Client.set_message_history []) alice).

(** Alice's client installed anew: another local key, nothing stored. *)
Definition alice_reinstalled : Client.Messenger :=
  Client.with_em (Client.set_symmetric_key [x09]) fresh_vault.

(** Alice with a friend whose name holds a slash. *)
Definition alice_odd_friend : Client.Messenger :=
  Client.with_dm (Client.set_friends ["eve/x"%string]) alice.

(** A snapshot that carries a friend and no conversation. *)
Definition bare_snapshot : Client.Backup :=
  {| Client.b_friends := Some ["carol"%string]; Client.b_groups := Some [];
     Client.b_message_history := Some []; Client.b_timestamp := Some 50%Z |}.

(** A relay that accepts every upload. *)
Definition relay_accepts : Client.Backup → Client.HttpReply unit :=
  λ _, Client.Reply true tt.

(** ** The further library calls *)

Definition digit_value (c : ascii) : option N :=
  let n := N_of_ascii c in
  if decide (48 ≤ n ≤ 57)%N then Some (n - 48)%N else None.

Fixpoint parse_digits (s : string) (acc : N) : option N :=
  match s with
  | EmptyString => Some acc
  | String c s' => d ← digit_value c; parse_digits s' (acc * 10 + d)%N
  end.

(** Decimal numerals with an optional minus sign. *)
Definition toy_int_of_str (s : string) : option Z :=
  match s with
  | EmptyString => None
  | String c s' =>
      match parse_digits s 0 with
      | Some n => Some (Z.of_N n)
      | None =>
          if Ascii.eqb c "-" then
            match s' with
            | EmptyString => None
            | _ => n ← parse_digits s' 0; Some (- Z.of_N n)%Z
            end
          else None
      end
  end.

#[local] Instance toy_builtins : Builtins := {|
  int_of_str := toy_int_of_str;
  str_strip := id;
|}.

#[local] Instance toy_key_formats : KeyFormats toy := {|
  rsa_generate_private_key := λ r, default x00 (Byte.of_N (r `mod` 256));
  private_bytes := λ sk, [sk];
  public_bytes := λ pk, [pk];
  load_pem_private_key := λ b, match b with [k] => Some k | _ => None end;
|}.

(** Alice's client after its first start. *)
Definition alice_started : Client.Messenger :=
  state_after (Client.load_or_generate_keys alice).

(** Alice's files hold her private key and no public key. *)
Definition alice_half_keys : Client.Messenger :=
  Client.with_env (Client.set_fs {[ Client.private_key_path := [x0a] ]}) alice.

(** Alice's window with the conversation with Bob open, logged in with
    the token of [Relay.one_token]. *)
Definition alice_chatting : Client.Messenger :=
  {| Client.encryption_manager := Client.encryption_manager alice;
     Client.data_manager := Client.data_manager alice;
     Client.auth_token := Some "tok"%string;
     Client.current_chat := Some "bob"%string;
     Client.ui := []; Client.env := Client.env alice |}.

(** What Bob's client uploads for Alice when it sends ["hi"] under the
    message key [[x07]]. *)
Definition hello_from_bob : Client.DirectMessage :=
  {| Client.d_sender := "bob";
     Client.d_encrypted_key := string_of_list_byte [x0a; x07];
     Client.d_encrypted_content :=
       string_of_list_byte ([x80; x07] ++ list_byte_of_string "hi") |}.

(** A relay that has this one message for every watermark. *)
Definition relay_has_hello : Z → Client.HttpReply (list Client.DirectMessage) :=
  λ _, Client.Reply true [hello_from_bob].
Definition relay_has_no_group_message
    : Z → Client.HttpReply (list Client.GroupMessage) :=
  λ _, Client.Reply true [].

(** The text of an [HTTPError]. *)
Definition http_error_text (e : Exn) : string :=
  match e with
  | HTTPException status_code _ => pretty status_code +:+ " Client Error"
  | _ => "500 Server Error"
  end.

(** A relay that cannot be reached. *)
Definition relay_is_down : string → Client.Envelope → Z → Client.SendReply :=
  λ _ _ _, Client.SendFailed "connection refused".

(** Carol registers at the relay of Alice and Bob, at second 50. *)
Definition carol : Relay.UserRegister :=
  {| Relay.rq_username := "carol"; Relay.rq_password := "pw";
     Relay.rq_email := "carol@example.org"; Relay.rq_public_key := "pem" |}.

Definition salt32 : bytes := replicate 32 x00.

Definition carol_registered : Relay.Database :=
  state_after (Relay.register 50 salt32 "c4r0l" carol Relay.two_users).

(** Alice's requests, all served at second 50. *)
Definition at_50 : nat → Z := λ _, 50%Z.
Definition alice_header : option string := Some "Bearer tok"%string.

(** Alice asked Bob at second 10. *)
Definition alice_asked_bob : Relay.Database :=
  state_after (Relay.add_friend_request Relay.first_row 10 1 "bob" Relay.two_users).

Definition to_bob : Relay.MessageSend :=
  {| Relay.ms_recipient_id := "2"; Relay.ms_encrypted_key := "key";
     Relay.ms_encrypted_content := "content"; Relay.ms_timestamp := 7;
     Relay.ms_is_group := false |}.

(** A message for the group 7, which does not exist. *)
Definition to_group_7 : Relay.MessageSend :=
  {| Relay.ms_recipient_id := "7"; Relay.ms_encrypted_key := "key";
     Relay.ms_encrypted_content := "content"; Relay.ms_timestamp := 7;
     Relay.ms_is_group := true |}.

(** Alice made a group of her own. *)
Definition alice_group : Relay.Database :=
  state_after (Relay.create_group_route at_50 alice_header
                 {| Relay.gc_name := "friends"; Relay.gc_members := [] |}
                 Relay.one_token).

End Toy.

(** * Properties *)

(** ** The statement monad *)

Lemma bind_ret_l {S A B} (a : A) (k : A → Py S B) (s : S) :
  bind (ret a) k s = k a s.
Proof. reflexivity. Qed.

Lemma bind_run {S A B} (m : Py S A) (k : A → Py S B) (s : S) :
  bind m k s = match m s with
               | (Ok a, s') => k a s'
               | (Raised e, s') => (Raised e, s')
               end.
Proof. reflexivity. Qed.

Lemma bind_modify {S B} (f : S → S) (k : unit → Py S B) (s : S) :
  bind (modify f) k s = k tt (f s).
Proof. reflexivity. Qed.

Lemma bind_gets {S A B} (f : S → A) (k : A → Py S B) (s : S) :
  bind (gets f) k s = k (f s) s.
Proof. reflexivity. Qed.

Section client_facts.
Context {P : Primitives} {HL : PrimitivesLaws P}.
Import Client.

Lemma load_friend_public_key_run w name :
  load_friend_public_key name w =
  match fs (env w) !! friend_key_path name ≫= load_pem_public_key with
  | Some k => (Ok true, with_em (set_friend_public_key name k) w)
  | None => (Ok false, w)
  end.
Proof.
  unfold load_friend_public_key, try_except, bind, read_file.
  destruct (fs (env w) !! friend_key_path name) as [b|]; simpl; [|done].
  destruct (load_pem_public_key b); simpl; done.
Qed.

Lemma encrypt_message_body_outcome w message name pk :
  friend_public_keys (encryption_manager w) !! name = Some pk →
  ∃ w', try_except (encrypt_message_body message name) (λ _, ret None) w
        = (Ok (hybrid_envelope message pk (env w)), w')
      ∧ encryption_manager w' = encryption_manager w
      ∧ fs (env w') = fs (env w).
Proof.
  intros Hpk. unfold encrypt_message_body, hybrid_envelope, try_except, bind.
  cbn. rewrite fernet_generate_key_ok. cbn. rewrite Hpk. cbn.
  destruct (rsa_oaep_encrypt pk _ _) as [c|]; cbn; eauto.
Qed.

Lemma known_public_key_cached w name k :
  known_public_key w name = Some k →
  friend_public_keys (encryption_manager w) !! name = None →
  ∀ n, known_public_key (with_em (set_friend_public_key name k) w) n
       = known_public_key w n.
Proof.
  intros Hk Hnone n. unfold known_public_key in *. cbn.
  destruct (decide (name = n)) as [->|Hne].
  - rewrite lookup_insert_eq, Hnone. by rewrite Hnone in Hk.
  - by rewrite lookup_insert_ne.
Qed.

Lemma encrypt_message_run w message name :
  ∃ w',
    encrypt_message message name w
    = (Ok (pk ← known_public_key w name; hybrid_envelope message pk (env w)), w')
    ∧ (∀ n, known_public_key w' n = known_public_key w n).
Proof.
  unfold encrypt_message, bind at 1, gets at 1. cbn beta iota.
  destruct (friend_public_keys (encryption_manager w) !! name) as [pk|] eqn:Hc.
  - rewrite bind_ret_l.
    destruct (encrypt_message_body_outcome w message name pk Hc)
      as (w' & -> & Hem & Hfs).
    exists w'. split.
    + unfold known_public_key. by rewrite Hc.
    + intros n. unfold known_public_key. by rewrite Hem, Hfs.
  - rewrite bind_run, load_friend_public_key_run.
    destruct (fs (env w) !! friend_key_path name ≫= load_pem_public_key)
      as [pk|] eqn:Hl.
    + set (w1 := with_em (set_friend_public_key name pk) w).
      assert (Hk : known_public_key w name = Some pk).
      { unfold known_public_key. by rewrite Hc. }
      destruct (encrypt_message_body_outcome w1 message name pk)
        as (w' & -> & Hem & Hfs).
      { cbn. apply lookup_insert_eq. }
      exists w'. split.
      * rewrite Hk. done.
      * intros n. rewrite <- (known_public_key_cached w name pk Hk Hc n).
        unfold known_public_key. by rewrite Hem, Hfs.
    + exists w. split; [|done].
      unfold known_public_key. rewrite Hc, Hl. done.
Qed.

Lemma decrypt_message_hybrid recipient message pk e envelope :
  pk = public_of (private_key (encryption_manager recipient)) →
  hybrid_envelope message pk e = Some envelope →
  outcome (decrypt_message envelope recipient) = Ok (Some message).
Proof.
  intros -> He. unfold hybrid_envelope in He.
  destruct (rsa_oaep_encrypt _ _ _) as [c|] eqn:Hc; [|done].
  cbn in He. injection He as <-.
  unfold decrypt_message, try_except, bind, outcome. cbn.
  rewrite !b64decode_b64encode. cbn.
  rewrite (rsa_oaep_decrypt_encrypt _ _ _ _ Hc). cbn.
  rewrite fernet_generate_key_ok. cbn.
  rewrite fernet_decrypt_encrypt by apply fernet_generate_key_ok. cbn.
  rewrite utf8_decode_encode. done.
Qed.

(** C1.  Hybrid round trip: when the sender's key for [name] is the public
    key of the recipient's private key, [encrypt_message] returns an
    envelope and the recipient's [decrypt_message] of that envelope returns
    exactly the message. *)
Theorem decrypt_encrypt_message (sender recipient : Messenger)
    (message name : string) :
  known_public_key sender name
    = Some (public_of (private_key (encryption_manager recipient))) →
  ∃ envelope,
    outcome (encrypt_message message name sender) = Ok (Some envelope)
    ∧ outcome (decrypt_message envelope recipient) = Ok (Some message).
Proof.
  intros Hk.
  destruct (encrypt_message_run sender message name) as (w' & Hrun & _).
  rewrite Hrun, Hk. cbn.
  destruct (rsa_oaep_wraps (private_key (encryption_manager recipient))
              (entropy (env sender) (2 + drawn (env sender)))
              (entropy (env sender) (drawn (env sender)))) as [c Hc].
  assert (He : hybrid_envelope message
                 (public_of (private_key (encryption_manager recipient)))
                 (env sender) = Some
            {| env_key := b64encode c;
               env_message := b64encode
                 (fernet_encrypt (fernet_generate_key (entropy (env sender) (drawn (env sender))))
                    (entropy (env sender) (1 + drawn (env sender)))
                    (clock (env sender) (ticks (env sender)))
                    (utf8_encode message)) |}).
  { unfold hybrid_envelope. rewrite Hc. done. }
  rewrite He. eexists. split; [done|].
  eapply decrypt_message_hybrid; [done|apply He].
Qed.

Lemma dict_keys_set_fresh {V} (k : string) (v : V) (d : dict V) :
  k ∉ dict_keys d → dict_keys (dict_set k v d) = dict_keys d ++ [k].
Proof.
  unfold dict_keys. induction d as [|[k' v'] d IH]; intros Hk; cbn; [done|].
  cbn in Hk. rewrite not_elem_of_cons in Hk. destruct Hk as [Hne Hk].
  destruct (decide (k' = k)) as [->|_]; [done|].
  cbn. by rewrite IH.
Qed.

Lemma dict_get_set_eq {V} (k : string) (v : V) (d : dict V) :
  dict_get k (dict_set k v d) = Some v.
Proof.
  induction d as [|[k' v'] d IH]; cbn.
  - by rewrite decide_True.
  - destruct (decide (k' = k)) as [->|Hne]; cbn.
    + by rewrite decide_True.
    + by rewrite decide_False.
Qed.

Lemma dict_get_set_ne {V} (k k0 : string) (v : V) (d : dict V) :
  k ≠ k0 → dict_get k0 (dict_set k v d) = dict_get k0 d.
Proof.
  intros Hne. induction d as [|[k' v'] d IH]; cbn.
  - by rewrite decide_False.
  - destruct (decide (k' = k)) as [->|Hne']; cbn.
    + by rewrite !decide_False.
    + by rewrite IH.
Qed.

Lemma encrypt_group_loop_app message pre post acc w :
  encrypt_group_loop message (pre ++ post) acc w
  = match encrypt_group_loop message pre acc w with
    | (Ok (Some acc'), w') => encrypt_group_loop message post acc' w'
    | r => r
    end.
Proof.
  revert acc w. induction pre as [|m pre IH]; intros acc w; [done|].
  cbn [app encrypt_group_loop]. rewrite !bind_run.
  destruct (encrypt_message_run w message m) as (w' & -> & _).
  destruct (known_public_key w m ≫= _) as [e|]; [apply IH|done].
Qed.

Lemma encrypt_group_loop_shape message members acc w :
  NoDup (dict_keys acc ++ members) →
  outcome (encrypt_group_loop message members acc w) = Ok None
  ∨ ∃ envelopes,
      outcome (encrypt_group_loop message members acc w) = Ok (Some envelopes)
      ∧ dict_keys envelopes = dict_keys acc ++ members.
Proof.
  revert acc w. induction members as [|m members IH]; intros acc w Hnd.
  - right. exists acc. by rewrite app_nil_r.
  - cbn [encrypt_group_loop]. rewrite bind_run.
    destruct (encrypt_message_run w message m) as (w' & -> & _).
    destruct (known_public_key w m ≫= _) as [e|]; [|by left].
    assert (Hm : m ∉ dict_keys acc).
    { apply list.NoDup_app in Hnd as (_ & Hd & _). intros Hin.
      apply (Hd m Hin). left. }
    destruct (IH (dict_set m e acc) w') as [Hn|(envs & Hs & Hkeys)].
    + rewrite dict_keys_set_fresh by done. by rewrite <- app_assoc.
    + by left.
    + right. exists envs. split; [done|].
      rewrite Hkeys, dict_keys_set_fresh by done. by rewrite <- app_assoc.
Qed.

Lemma encrypt_group_loop_missing message members acc w member :
  member ∈ members → known_public_key w member = None →
  outcome (encrypt_group_loop message members acc w) = Ok None.
Proof.
  revert acc w. induction members as [|m members IH]; intros acc w Hin Hk.
  - by apply elem_of_nil in Hin.
  - cbn [encrypt_group_loop]. rewrite bind_run.
    destruct (encrypt_message_run w message m) as (w' & -> & Hinv).
    destruct (decide (m = member)) as [->|Hne].
    + by rewrite Hk.
    + destruct (known_public_key w m ≫= _) as [e|]; [|done].
      apply IH; [|by rewrite Hinv].
      apply elem_of_cons in Hin as [->|Hin]; done.
Qed.

Lemma encrypt_group_loop_complete message members acc w :
  (∀ member, member ∈ members →
     ∃ sk, known_public_key w member = Some (public_of sk)) →
  ∃ envelopes,
    outcome (encrypt_group_loop message members acc w) = Ok (Some envelopes).
Proof.
  revert acc w. induction members as [|m members IH]; intros acc w Hall.
  - by exists acc.
  - cbn [encrypt_group_loop]. rewrite bind_run.
    destruct (encrypt_message_run w message m) as (w' & -> & Hinv).
    destruct (Hall m) as [sk Hsk]; [left|]. rewrite Hsk. cbn.
    unfold hybrid_envelope.
    destruct (rsa_oaep_wraps sk (entropy (env w) (2 + drawn (env w)))
                (entropy (env w) (drawn (env w)))) as [c ->]. cbn.
    apply IH. intros member Hin. rewrite Hinv. apply Hall. by right.
Qed.

Lemma encrypt_group_loop_keys message members acc w n :
  known_public_key (state_after (encrypt_group_loop message members acc w)) n
  = known_public_key w n.
Proof.
  revert acc w. induction members as [|m members IH]; intros acc w; [done|].
  cbn [encrypt_group_loop]. rewrite bind_run.
  destruct (encrypt_message_run w message m) as (w' & -> & Hinv).
  destruct (known_public_key w m ≫= _) as [e|]; [|apply Hinv].
  by rewrite IH.
Qed.

Lemma encrypt_group_loop_entries message members acc w envelopes :
  NoDup (dict_keys acc ++ members) →
  outcome (encrypt_group_loop message members acc w) = Ok (Some envelopes) →
  (∀ k, k ∉ members → dict_get k envelopes = dict_get k acc)
  ∧ ∀ pre member post, members = pre ++ member :: post →
      ∃ envelope,
        outcome (encrypt_message message member
                   (state_after (encrypt_group_loop message pre acc w)))
          = Ok (Some envelope)
        ∧ dict_get member envelopes = Some envelope.
Proof.
  revert acc w. induction members as [|m members IH]; intros acc w Hnd Hrun.
  - cbn in Hrun. injection Hrun as ->. split; [done|].
    intros pre member post Heq. by destruct pre.
  - cbn [encrypt_group_loop] in Hrun. rewrite bind_run in Hrun.
    destruct (encrypt_message message m w) as [[[e|]|x] w'] eqn:Hm;
      [|done|done].
    assert (Hfresh : m ∉ dict_keys acc).
    { apply list.NoDup_app in Hnd as (_ & Hd & _). intros Hin.
      apply (Hd m Hin). left. }
    assert (Hrest : m ∉ members).
    { apply list.NoDup_app in Hnd as (_ & _ & Hd).
      by apply NoDup_cons in Hd as [? _]. }
    destruct (IH (dict_set m e acc) w') as [Hother Hentries]; [|done|].
    { rewrite dict_keys_set_fresh by done. by rewrite <- app_assoc. }
    split.
    + intros k Hk. apply not_elem_of_cons in Hk as [Hne Hk].
      rewrite Hother by done. by apply dict_get_set_ne.
    + intros pre member post Heq. destruct pre as [|m' pre].
      * cbn in Heq. injection Heq as <- <-. exists e.
        change (state_after (encrypt_group_loop message [] acc w)) with w.
        split; [by rewrite Hm|].
        rewrite Hother by done. apply dict_get_set_eq.
      * cbn in Heq. injection Heq as <- ->.
        destruct (Hentries pre member post eq_refl) as (envelope & He & Hg).
        exists envelope. split; [|done].
        cbn [encrypt_group_loop]. rewrite bind_run, Hm. done.
Qed.

(** C2.  Group fan-out is all or nothing.  For distinct members the call
    returns either [None] or a dictionary with exactly one envelope per
    member, in the members' order.  The envelope of a member is the one
    that [encrypt_message] returned for that member when the loop came to
    it, and the member's private key opens it to the message.  The call
    returns the full dictionary when every member has a usable key; and it
    returns [None], with no partial dictionary, as soon as one member's key
    is missing or one member's [encrypt_message] fails. *)
Theorem encrypt_group_message_all_or_nothing (w : Messenger)
    (message : string) (members : list string) :
  NoDup members →
  let result := outcome (encrypt_group_message message members w) in
  (result = Ok None
   ∨ ∃ envelopes, result = Ok (Some envelopes)
       ∧ dict_keys envelopes = members
       ∧ length envelopes = length members)
  ∧ (∀ envelopes, result = Ok (Some envelopes) →
     ∀ pre member post, members = pre ++ member :: post →
       ∃ envelope,
         outcome (encrypt_message message member
                    (state_after (encrypt_group_message message pre w)))
           = Ok (Some envelope)
         ∧ dict_get member envelopes = Some envelope
         ∧ ∀ recipient,
             known_public_key w member
               = Some (public_of (private_key (encryption_manager recipient))) →
             outcome (decrypt_message envelope recipient) = Ok (Some message))
  ∧ ((∀ member, member ∈ members →
        ∃ sk, known_public_key w member = Some (public_of sk)) →
     ∃ envelopes, result = Ok (Some envelopes))
  ∧ (∀ member, member ∈ members → known_public_key w member = None →
     result = Ok None)
  ∧ (∀ pre member post, members = pre ++ member :: post →
     let before := encrypt_group_message message pre w in
     outcome before = Ok None
     ∨ outcome (encrypt_message message member (state_after before)) = Ok None →
     result = Ok None).
Proof.
  intros Hnd result. subst result. unfold encrypt_group_message.
  split; [|split; [|split; [|split]]].
  - destruct (encrypt_group_loop_shape message members [] w Hnd)
      as [Hn|(envs & Hs & Hkeys)]; [by left|].
    right. exists envs. cbn in Hkeys. split; [done|]. split; [done|].
    rewrite <- Hkeys. unfold dict_keys. by rewrite length_fmap.
  - intros envelopes Hrun pre member post Heq.
    destruct (encrypt_group_loop_entries message members [] w envelopes Hnd Hrun)
      as [_ Hentries].
    destruct (Hentries pre member post Heq) as (envelope & He & Hg).
    exists envelope. split; [done|]. split; [done|].
    intros recipient Hk.
    set (w1 := state_after (encrypt_group_loop message pre [] w)) in *.
    destruct (encrypt_message_run w1 message member) as (w2 & Hrun1 & _).
    rewrite Hrun1 in He. unfold outcome in He. cbn [fst] in He.
    unfold w1 in He. rewrite encrypt_group_loop_keys, Hk in He. cbn in He.
    injection He as He.
    by eapply decrypt_message_hybrid.
  - apply encrypt_group_loop_complete.
  - intros member Hin Hk. by eapply encrypt_group_loop_missing.
  - intros pre member post -> Hfail.
    rewrite encrypt_group_loop_app.
    destruct (encrypt_group_loop message pre [] w) as [[[acc|]|e] w'] eqn:Hpre;
      unfold outcome, state_after in Hfail; cbn [fst snd] in Hfail.
    + destruct Hfail as [Hfail|Hfail]; [done|].
      cbn [encrypt_group_loop]. rewrite bind_run.
      unfold outcome. destruct (encrypt_message message member w') as [[[e|]|e] w2]; done.
    + done.
    + destruct (encrypt_group_loop_shape message pre [] w) as [Hn|(envs & Hs & _)].
      * apply list.NoDup_app in Hnd as (? & _). done.
      * by rewrite Hpre in Hn.
      * by rewrite Hpre in Hs.
Qed.

Lemma encrypt_data_for_storage_outcome w data :
  outcome (encrypt_data_for_storage data w)
  = Ok (let key := symmetric_key (encryption_manager w) in
        if fernet_key_ok key then
          plain ← storage_bytes data;
          Some (b64encode (fernet_encrypt key (entropy (env w) (drawn (env w)))
                             (clock (env w) (ticks (env w))) plain))
        else None).
Proof.
  unfold encrypt_data_for_storage, try_except, bind, outcome. cbn.
  destruct (fernet_key_ok _); cbn; [|done].
  destruct (storage_bytes data); cbn; done.
Qed.

Lemma decrypt_data_from_storage_run w c :
  decrypt_data_from_storage c w
  = (Ok (let key := symmetric_key (encryption_manager w) in
         if fernet_key_ok key then b64decode c ≫= fernet_decrypt key else None),
     w).
Proof.
  unfold decrypt_data_from_storage, try_except, bind. cbn.
  destruct (fernet_key_ok _); cbn; [|done].
  destruct (b64decode c) as [token|]; cbn; [|done].
  destruct (fernet_decrypt _ token); cbn; done.
Qed.

(** C4, amended.  Opening the sealed form of a string, list or mapping
    returns its serialized bytes, not the value: the UTF-8 bytes of a
    string, the UTF-8 bytes of [json.dumps] of a list or mapping, from which
    decoding (and [json.loads]) gives the value back.  Opening a ciphertext
    whose decoded bytes are not a token made under the local key returns
    [None]. *)
Theorem storage_open_seal_bytes (w w' : Messenger) (j : json) :
  let key := symmetric_key (encryption_manager w) in
  fernet_key_ok key = true →
  symmetric_key (encryption_manager w') = key →
  (∃ s, j = JStr s) ∨ (∃ l, j = JList l) ∨ (∃ d, j = JDict d) →
  (∃ c b,
     outcome (encrypt_data_for_storage (PJson j) w) = Ok (Some c)
     ∧ outcome (decrypt_data_from_storage c w') = Ok (Some b)
     ∧ storage_bytes (PJson j) = Some b
     ∧ (∀ s, j = JStr s → b = utf8_encode s ∧ utf8_decode b = Some s)
     ∧ ((∃ l, j = JList l) ∨ (∃ d, j = JDict d) →
        b = utf8_encode (json_dumps j)
        ∧ (json_wf j → utf8_decode b ≫= json_loads = Some j)))
  ∧ (∀ c, (∀ token iv now m, b64decode c = Some token →
             token ≠ fernet_encrypt key iv now m) →
     outcome (decrypt_data_from_storage c w') = Ok None).
Proof.
  intros key Hok Hkey Hkind. subst key. split.
  - assert (∃ b, storage_bytes (PJson j) = Some b) as [b Hb].
    { destruct Hkind as [[s ->]|[[l ->]|[d ->]]]; cbn; eauto. }
    eexists _, b. rewrite encrypt_data_for_storage_outcome.
    cbv zeta. rewrite Hok, Hb. cbn. split; [done|].
    rewrite decrypt_data_from_storage_run. unfold outcome. cbn.
    rewrite Hkey, Hok, b64decode_b64encode. cbn.
    rewrite fernet_decrypt_encrypt by done.
    split; [done|]. split; [done|]. split.
    + intros s ->. cbn in Hb. injection Hb as <-.
      split; [done|apply utf8_decode_encode].
    + intros Hc.
      assert (b = utf8_encode (json_dumps j)) as ->.
      { destruct Hc as [[l ->]|[d ->]]; cbn in Hb; congruence. }
      split; [done|]. intros Hwf. rewrite utf8_decode_encode. cbn.
      by apply json_loads_dumps.
  - intros c Hforged. rewrite decrypt_data_from_storage_run. unfold outcome. cbn.
    rewrite Hkey, Hok.
    destruct (b64decode c) as [token|] eqn:Hd; cbn; [|done].
    destruct (fernet_decrypt _ token) as [m|] eqn:Hm; [|done].
    destruct (fernet_authentic _ _ _ Hm) as (iv & now & ->).
    by destruct (Hforged _ iv now m eq_refl).
Qed.

End client_facts.

(** ** The sync watermark *)

Create HintDb frame.

Section watermark_facts.
Context {P : Primitives} {F : FileSystem}.
Import Client.

Lemma keeps_ret {A} (a : A) : keeps_watermark (ret a).
Proof. by intros w. Qed.

Lemma keeps_raise {A} (e : Exn) : keeps_watermark (@raise _ A e).
Proof. by intros w. Qed.

Lemma keeps_gets {A} (f : Messenger → A) : keeps_watermark (gets f).
Proof. by intros w. Qed.

Lemma keeps_or_raise {A} (e : Exn) (o : option A) : keeps_watermark (or_raise e o).
Proof. destruct o; by intros w. Qed.

Lemma keeps_bind {A B} (m : Py Messenger A) (k : A → Py Messenger B) :
  keeps_watermark m → (∀ a, keeps_watermark (k a)) → keeps_watermark (bind m k).
Proof.
  intros Hm Hk w. unfold bind, state_after. specialize (Hm w).
  unfold state_after in Hm.
  destruct (m w) as [[a|e] w1]; cbn in *; [|done].
  rewrite <- Hm. apply Hk.
Qed.

Lemma keeps_try_except {A} (m : Py Messenger A) (h : Exn → Py Messenger A) :
  keeps_watermark m → (∀ e, keeps_watermark (h e)) → keeps_watermark (try_except m h).
Proof.
  intros Hm Hh w. unfold try_except, state_after. specialize (Hm w).
  unfold state_after in Hm.
  destruct (m w) as [[a|e] w1]; cbn in *; [done|].
  rewrite <- Hm. apply Hh.
Qed.

Lemma keeps_for_each {A} (l : list A) (body : A → Py Messenger unit) :
  (∀ x, keeps_watermark (body x)) → keeps_watermark (for_each l body).
Proof.
  intros Hb. induction l as [|x l IH]; cbn [for_each].
  - apply keeps_ret.
  - apply keeps_bind; auto.
Qed.

Lemma keeps_if {A} (b : bool) (m1 m2 : Py Messenger A) :
  keeps_watermark m1 → keeps_watermark m2 →
  keeps_watermark (if b then m1 else m2).
Proof. by destruct b. Qed.

Lemma keeps_modify (f : Messenger → Messenger) :
  (∀ w, watermark (f w) = watermark w) → keeps_watermark (modify f).
Proof. intros Hf w. apply Hf. Qed.

Lemma keeps_write_file directory name text :
  file_in directory name ≠ sync_time_path →
  keeps_watermark (write_file directory name text).
Proof.
  intros Hne w. unfold write_file, open_for_writing.
  destruct (open_error directory name); [done|].
  unfold watermark, bind, ret, modify, state_after. cbn.
  by rewrite lookup_insert_ne.
Qed.

Lemma history_file_not_sync_time key :
  file_in "MessageHistory" (history_file key) ≠ sync_time_path.
Proof. done. Qed.

Hint Resolve keeps_ret keeps_raise keeps_gets keeps_or_raise keeps_if
  keeps_for_each keeps_write_file history_file_not_sync_time : frame.

Ltac frame_step :=
  first [ solve [auto with frame]
        | apply keeps_bind; [|intros ?]
        | apply keeps_try_except; [|intros ?]
        | apply keeps_modify; intros ?; reflexivity
        | apply keeps_if ].

Lemma decrypt_message_keeps envelope : keeps_watermark (decrypt_message envelope).
Proof. unfold decrypt_message. repeat frame_step. Qed.

Lemma decrypt_data_from_storage_keeps encrypted_data :
  keeps_watermark (decrypt_data_from_storage encrypted_data).
Proof. unfold decrypt_data_from_storage. repeat frame_step. Qed.

Lemma save_message_keeps recipient message is_group :
  keeps_watermark (save_message recipient message is_group).
Proof.
  unfold save_message. repeat frame_step.
  - destruct (dict_get _ _); repeat frame_step.
  - destruct (dict_get _ _) as [[]|]; repeat frame_step.
Qed.

Lemma save_relations_keeps : keeps_watermark save_relations.
Proof. unfold save_relations. repeat frame_step. Qed.

Lemma restore_history_keeps items : keeps_watermark (restore_history items).
Proof.
  induction items as [|[key c] items IH]; cbn [restore_history].
  - apply keeps_ret.
  - pose proof decrypt_data_from_storage_keeps. repeat frame_step.
    destruct a as [b|]; repeat frame_step.
Qed.

Lemma deliver_keeps recipient is_group chat formatted notice :
  keeps_watermark (deliver recipient is_group chat formatted notice).
Proof.
  unfold deliver, chat_area_append, show_notification.
  pose proof save_message_keeps. repeat frame_step.
Qed.

Lemma poll_direct_keeps msg : keeps_watermark (poll_direct msg).
Proof.
  unfold poll_direct. pose proof decrypt_message_keeps. pose proof deliver_keeps.
  repeat frame_step. destruct a as [text|]; repeat frame_step.
Qed.

Lemma poll_group_keeps msg : keeps_watermark (poll_group msg).
Proof.
  unfold poll_group. pose proof decrypt_message_keeps. pose proof deliver_keeps.
  repeat frame_step. destruct a as [text|]; repeat frame_step.
Qed.

Lemma api_get_messages_keeps {A} (relay : Z → HttpReply (list A)) since :
  keeps_watermark (api_get_messages relay since).
Proof.
  unfold api_get_messages. repeat frame_step.
  destruct (relay since) as [|[] ?]; repeat frame_step.
Qed.

Lemma poll_for_messages_keeps relay_direct relay_group :
  keeps_watermark (poll_for_messages relay_direct relay_group).
Proof.
  unfold poll_for_messages.
  pose proof poll_direct_keeps. pose proof poll_group_keeps.
  pose proof (@api_get_messages_keeps DirectMessage).
  pose proof (@api_get_messages_keeps GroupMessage).
  repeat frame_step.
Qed.




Lemma only_reads_refl w : only_reads w w.
Proof. by repeat split. Qed.

Lemma only_reads_trans w1 w2 w3 :
  only_reads w1 w2 → only_reads w2 w3 → only_reads w1 w3.
Proof.
  unfold only_reads. intros H1 H2.
  destruct H1 as (?&?&?&?&?&?&?&?&?&?), H2 as (?&?&?&?&?&?&?&?&?&?).
  repeat split; try congruence; lia.
Qed.

Lemma encrypt_data_for_storage_reads data w :
  ∃ r w', encrypt_data_for_storage data w = (Ok r, w') ∧ only_reads w w'.
Proof.
  unfold encrypt_data_for_storage, try_except, bind. cbn.
  destruct (fernet_key_ok _); cbn.
  - destruct (storage_bytes data); cbn; eexists _, _; (split; [done|]).
    + repeat split; cbn; lia.
    + apply only_reads_refl.
  - eexists _, _. split; [done|apply only_reads_refl].
Qed.

Lemma seal_history_reads items sealed w :
  ∃ r w', seal_history items sealed w = (Ok r, w') ∧ only_reads w w'.
Proof.
  revert sealed w. induction items as [|[key messages] items IH]; intros sealed w.
  - eexists _, _. split; [done|apply only_reads_refl].
  - cbn [seal_history]. rewrite bind_run.
    destruct (encrypt_data_for_storage_reads (PJson messages) w)
      as (r & w1 & -> & Hr).
    assert (∀ acc, ∃ r' w', seal_history items acc w1 = (Ok r', w')
                             ∧ only_reads w w') as Hrest.
    { intros acc. destruct (IH acc w1) as (r' & w' & -> & Hr').
      eexists _, _. split; [done|]. by eapply only_reads_trans. }
    destruct r as [c|]; [destruct (str_truthy c)|]; apply Hrest.
Qed.

Lemma prepare_backup_data_run w :
  ∃ sealed w',
    prepare_backup_data w
    = (Ok {| b_friends := Some (friends (data_manager w));
             b_groups := Some (groups (data_manager w));
             b_message_history := Some sealed;
             b_timestamp := Some (clock (env w) (ticks (env w))) |}, w')
    ∧ only_reads w w' ∧ ticks (env w) < ticks (env w').
Proof.
  unfold prepare_backup_data. rewrite bind_run. cbn [gets].
  rewrite bind_run. cbn [time_time].
  set (w1 := with_env _ w). rewrite bind_run.
  destruct (seal_history_reads (message_history (data_manager w)) [] w1)
    as (sealed & w' & -> & Hr).
  exists sealed, w'. split; [done|].
  assert (only_reads w w1) as H1 by (repeat split; cbn; lia).
  split; [by eapply only_reads_trans|].
  destruct Hr as (_&_&_&_&_&_&_&_&_&Ht). cbn in Ht. lia.
Qed.

Lemma save_sync_time_run w :
  ∃ w', save_sync_time w = (Ok tt, w')
    ∧ last_sync_time (data_manager w') = clock (env w) (S (ticks (env w)))
    ∧ fs (env w') !! sync_time_path
      = Some (utf8_encode (pretty (clock (env w) (ticks (env w)))))
    ∧ ticks (env w') = S (S (ticks (env w))).
Proof.
  eexists. split; [reflexivity|]. cbn. split; [done|]. split; [|done].
  apply lookup_insert_eq.
Qed.

Lemma backup_user_data_run relay w :
  (token_truthy (auth_token w) = false ∧ backup_user_data relay w = (Ok None, w))
  ∨ ∃ b w1, prepare_backup_data w = (Ok b, w1)
      ∧ backup_user_data relay w
        = match relay b with
          | Reply true _ =>
              (Ok (Some (b, true)), state_after (save_sync_time w1))
          | _ => (Ok (Some (b, false)), w1)
          end.
Proof.
  unfold backup_user_data. rewrite bind_run. cbn [gets].
  destruct (token_truthy (auth_token w)) eqn:Htok; [right|by left].
  destruct (prepare_backup_data_run w) as (sealed & w1 & Hp & Hr & _).
  eexists _, w1. split; [done|].
  rewrite bind_run, Hp. unfold api_backup_user_data.
  rewrite !bind_run. cbn [gets].
  destruct Hr as (_&_&->&_). rewrite Htok.
  destruct (relay _) as [|[] ?]; done.
Qed.

(** C6, amended.  After a successful push the snapshot carries the clock
    reading taken when it was prepared, and the watermark is made of the
    two readings that [save_sync_time] takes next, one after the other:
    the file holds the first and [last_sync_time] the second.  On a clock
    that never goes back the three are in this order, and they are equal
    when the clock has not moved since the snapshot was stamped. *)
Theorem backup_watermark_is_clock (relay : Backup → HttpReply unit)
    (w : Messenger) (b : Backup) :
  outcome (backup_user_data relay w) = Ok (Some (b, true)) →
  let w' := state_after (backup_user_data relay w) in
  let prepared := state_after (prepare_backup_data w) in
  let n := ticks (env prepared) in
  w' = state_after (save_sync_time prepared)
  ∧ ticks (env w) < n ∧ ticks (env w') = S (S n)
  ∧ b_timestamp b = Some (clock (env w) (ticks (env w)))
  ∧ fs (env w') !! sync_time_path
    = Some (utf8_encode (pretty (clock (env w) n)))
  ∧ last_sync_time (data_manager w') = clock (env w) (S n)
  ∧ ((∀ i, (clock (env w) i ≤ clock (env w) (S i))%Z) →
     (clock (env w) (ticks (env w)) ≤ clock (env w) n
      ≤ last_sync_time (data_manager w'))%Z)
  ∧ ((∀ i, ticks (env w) ≤ i → clock (env w) i = clock (env w) (ticks (env w))) →
     clock (env w) n = clock (env w) (ticks (env w))
     ∧ last_sync_time (data_manager w') = clock (env w) (ticks (env w))).
Proof.
  intros Hok w' prepared n. subst w' prepared n.
  destruct (backup_user_data_run relay w) as [[_ Hrun]|(b' & w1 & Hp & Hrun)];
    rewrite Hrun in *; [done|].
  destruct (prepare_backup_data_run w) as (sealed & w1' & Hp' & Hr & Hlt).
  rewrite Hp in Hp'. injection Hp' as -> <-.
  destruct (relay _) as [|[] ?]; cbn in Hok; try done.
  injection Hok as <-. rewrite Hp.
  change (state_after (Ok _, w1)) with w1.
  destruct (save_sync_time_run w1) as (w2 & Hs & Hmem & Hdisk & Hticks).
  rewrite Hs. unfold state_after. cbn [snd].
  destruct Hr as (_&_&_&_&_&_&_&Hclock&_&_). rewrite Hclock in Hmem, Hdisk.
  split; [done|]. split; [done|]. split; [done|]. split; [done|].
  split; [done|]. split; [done|]. rewrite Hmem. split.
  - intros Hmono.
    assert (∀ i j, i ≤ j → (clock (env w) i ≤ clock (env w) j)%Z) as Hle.
    { intros i j Hij. induction Hij as [|j _ IH]; [lia|].
      etrans; [apply IH|apply Hmono]. }
    split; apply Hle; lia.
  - intros Hfrozen.
    rewrite (Hfrozen (ticks (env w1))), (Hfrozen (S (ticks (env w1)))) by lia.
    done.
Qed.

Lemma on_timer_watermark ev (w : Messenger) :
  watermark (state_after (on_timer ev w)) = watermark w
  ∨ ∃ relay b, ev = BackupTimer relay
      ∧ outcome (backup_user_data relay w) = Ok (Some (b, true)).
Proof.
  destruct ev as [relay_direct relay_group|relay]; cbn [on_timer].
  - left. apply poll_for_messages_keeps.
  - rewrite bind_run.
    destruct (backup_user_data_run relay w) as [[_ Hrun]|(b & w1 & Hp & Hrun)];
      rewrite Hrun.
    + by left.
    + destruct (prepare_backup_data_run w) as (sealed & w1' & Hp' & Hr & _).
      rewrite Hp in Hp'. injection Hp' as -> <-.
      destruct (relay _) as [|[] ?] eqn:Hrelay.
      * left. destruct Hr as (_&Hdm&_&_&_&Hfs&_).
        unfold watermark, state_after, ret. cbn [snd]. by rewrite Hdm, Hfs.
      * right. exists relay. eexists. split; [done|]. by rewrite Hrun.
      * left. destruct Hr as (_&Hdm&_&_&_&Hfs&_).
        unfold watermark, state_after, ret. cbn [snd]. by rewrite Hdm, Hfs.
Qed.

End watermark_facts.

(** ** Backup and restore *)

Section restore_facts.
Context {P : Primitives} {F : FileSystem} {HL : PrimitivesLaws P}.
Import Client.

Lemma restore_history_run items w :
  match merged_history (symmetric_key (encryption_manager w)) items
          (message_history (data_manager w)) with
  | Some h => ∃ w', restore_history items w = (Ok tt, w')
                ∧ message_history (data_manager w') = h
                ∧ history_only w w'
  | None => ∃ e w', restore_history items w = (Raised e, w')
  end.
Proof.
  revert w. induction items as [|[key c] items IH]; intros w.
  - cbn. exists w. by repeat split.
  - cbn [merged_history restore_history]. rewrite bind_run.
    rewrite decrypt_data_from_storage_run. cbv zeta. unfold unseal.
    rewrite bind_run.
    assert (Hskip : match merged_history (symmetric_key (encryption_manager w))
                      items (message_history (data_manager w)) with
            | Some h => ∃ w', restore_history items w = (Ok tt, w')
                ∧ message_history (data_manager w') = h ∧ history_only w w'
            | None => ∃ e w', restore_history items w = (Raised e, w')
            end) by apply IH.
    destruct (fernet_key_ok _); [|exact Hskip].
    destruct (b64decode c ≫= fernet_decrypt _) as [b|]; [|exact Hskip].
    destruct (bytes_truthy b); [|exact Hskip].
    rewrite bind_run.
    destruct (utf8_decode b) as [text|]; cbn [or_raise ret raise]; [|eauto].
    rewrite bind_run.
    destruct (json_loads text) as [messages|]; cbn [or_raise ret raise]; [|eauto].
    rewrite bind_gets, bind_modify.
    unfold write_file, open_for_writing. rewrite bind_run.
    destruct (open_error "MessageHistory" (history_file key)) as [e|];
      cbn [raise ret]; [eauto|].
    cbn [modify].
    set (w1 := with_env _ _).
    change (merged_history _ items _)
      with (merged_history (symmetric_key (encryption_manager w1)) items
              (message_history (data_manager w1))).
    specialize (IH w1).
    destruct (merged_history _ items _) as [h|]; [|exact IH].
    destruct IH as (w' & -> & Hh & Hem & Hfr & Hgr & Hcl & Hti).
    exists w'. by repeat split.
Qed.

Lemma save_relations_run w :
  ∃ w', save_relations w = (Ok true, w')
    ∧ encryption_manager w' = encryption_manager w
    ∧ data_manager w' = data_manager w
    ∧ clock (env w') = clock (env w) ∧ ticks (env w') = ticks (env w).
Proof. eexists. split; [reflexivity|]. by repeat split. Qed.

Lemma restore_from_backup_run b w :
  backup_falsy (Some b) = false →
  match merged_history (symmetric_key (encryption_manager w))
          (default [] (b_message_history b))
          (message_history (data_manager w)) with
  | Some h =>
      ∃ w', restore_from_backup (Some b) w = (Ok true, w')
        ∧ friends (data_manager w') = default [] (b_friends b)
        ∧ groups (data_manager w') = default [] (b_groups b)
        ∧ message_history (data_manager w') = h
        ∧ watermark w'
          = (clock (env w) (2 + ticks (env w)),
             Some (utf8_encode (pretty (clock (env w) (1 + ticks (env w))))))
  | None => ∃ w', restore_from_backup (Some b) w = (Ok false, w')
                ∧ watermark w' = watermark w
  end.
Proof.
  intros Hb. unfold restore_from_backup. rewrite Hb.
  unfold try_except. rewrite !bind_modify.
  set (w0 := with_dm _ (with_dm _ w)).
  destruct (save_relations_run w0) as (w1 & Hs & Hem1 & Hdm1 & Hcl1 & Hti1).
  pose proof (save_relations_keeps w0) as Hk1.
  rewrite Hs in Hk1. change (state_after (_, w1)) with w1 in Hk1.
  rewrite bind_run, Hs, bind_run.
  pose proof (restore_history_run (default [] (b_message_history b)) w1) as Hr.
  pose proof (restore_history_keeps (default [] (b_message_history b)) w1) as Hk2.
  rewrite Hem1, Hdm1 in Hr. cbn in Hr.
  destruct (merged_history _ _ _) as [h|].
  - destruct Hr as (w2 & Hrun & Hh & Hem & Hfr & Hgr & Hcl & Hti).
    rewrite Hrun. rewrite bind_run. cbn [time_time].
    rewrite bind_modify.
    set (w3 := with_dm _ _).
    destruct (save_sync_time_run w3) as (w4 & Hsave & Hmem & Hdisk & _).
    rewrite bind_run, Hsave. cbn [ret].
    exists w4. split; [done|].
    assert (data_manager w4
            = set_last_sync_time (clock (env w3) (S (ticks (env w3))))
                (data_manager w3)) as Hdm4.
    { unfold save_sync_time in Hsave. by injection Hsave as <-. }
    unfold watermark. rewrite Hmem, Hdisk, Hdm4. subst w3. cbn.
    by rewrite Hfr, Hgr, Hh, Hdm1, Hcl, Hti, Hcl1, Hti1.
  - destruct Hr as (e & w2 & Hrun). rewrite Hrun in Hk2 |- *.
    change (state_after (_, w2)) with w2 in Hk2.
    exists w2. split; [done|]. by rewrite Hk2, Hk1.
Qed.

Lemma merged_history_refused k items h key c messages :
  (key, c) ∈ items → unseal k c = Ok (Some messages) →
  open_error "MessageHistory" (history_file key) ≠ None →
  merged_history k items h = None.
Proof.
  revert h. induction items as [|[key0 c0] items IH]; intros h Hin Hu Hopen.
  - by apply elem_of_nil in Hin.
  - cbn [merged_history].
    apply elem_of_cons in Hin as [[= <- <-]|Hin].
    + rewrite Hu. by destruct (open_error _ _).
    + destruct (unseal k c0) as [[j|]|]; [|by apply IH|done].
      destruct (open_error _ (history_file key0)); [done|by apply IH].
Qed.

Lemma merged_history_skipped k items h :
  Forall (λ kc, unseal k kc.2 = Ok None) items →
  merged_history k items h = Some h.
Proof.
  induction 1 as [|[key c] items Hu _ IH]; [done|].
  cbn [merged_history]. cbn in Hu. by rewrite Hu.
Qed.

Lemma merged_history_other k items h h' key :
  merged_history k items h = Some h' → key ∉ dict_keys items →
  dict_get key h' = dict_get key h.
Proof.
  revert h. induction items as [|[key0 c] items IH]; intros h Hm Hk; cbn in *.
  - by injection Hm as <-.
  - rewrite not_elem_of_cons in Hk. destruct Hk as [Hne Hk].
    destruct (unseal k c) as [[j|]|]; [|by apply IH|done].
    destruct (open_error _ _); [done|].
    rewrite (IH _ Hm Hk). by apply dict_get_set_ne.
Qed.

Lemma merged_history_carried k items h h' key c messages :
  merged_history k items h = Some h' → NoDup (dict_keys items) →
  (key, c) ∈ items → unseal k c = Ok (Some messages) →
  dict_get key h' = Some messages.
Proof.
  revert h. induction items as [|[key0 c0] items IH]; intros h Hm Hnd Hin Hu.
  - by apply elem_of_nil in Hin.
  - cbn in Hnd. apply NoDup_cons in Hnd as [Hfresh Hnd]. cbn in Hm.
    apply elem_of_cons in Hin as [[= <- <-]|Hin].
    + rewrite Hu in Hm. destruct (open_error _ _); [done|].
      rewrite (merged_history_other _ _ _ _ _ Hm Hfresh).
      apply dict_get_set_eq.
    + destruct (unseal k c0) as [[j|]|]; [| |done]; [|by eapply IH].
      destruct (open_error _ _); [done|]. by eapply IH.
Qed.

Lemma dict_set_fresh {V} (key : string) (v : V) (d : dict V) :
  key ∉ dict_keys d → dict_set key v d = d ++ [(key, v)].
Proof.
  unfold dict_keys. induction d as [|[k' v'] d IH]; intros Hk; cbn; [done|].
  cbn in Hk. rewrite not_elem_of_cons in Hk. destruct Hk as [Hne Hk].
  rewrite decide_False by done. by rewrite IH.
Qed.

Lemma seal_history_content items sealed w :
  fernet_key_ok (symmetric_key (encryption_manager w)) = true →
  Forall (λ kv, ∃ l, kv.2 = JList l) items →
  NoDup (dict_keys sealed ++ dict_keys items) →
  ∃ new w', seal_history items sealed w = (Ok (sealed ++ new), w')
    ∧ Forall2 (sealed_as (symmetric_key (encryption_manager w))) items new.
Proof.
  revert sealed w. induction items as [|[key messages] items IH];
    intros sealed w Hok Hlists Hnd.
  - exists [], w. by rewrite app_nil_r.
  - apply list.Forall_cons in Hlists as [[l Hl] Hlists]. cbn in Hl. subst messages.
    cbn [seal_history]. rewrite bind_run.
    destruct (encrypt_data_for_storage_reads (PJson (JList l)) w)
      as (r & w1 & Hrun & Hr).
    pose proof (encrypt_data_for_storage_outcome w (PJson (JList l))) as Hout.
    rewrite Hrun in Hout. unfold outcome in Hout. cbn in Hout.
    rewrite Hok in Hout. injection Hout as ->. rewrite Hrun.
    set (c := b64encode _).
    assert (str_truthy c = true) as ->.
    { apply bool_decide_eq_true. apply b64encode_nonempty, fernet_encrypt_nonempty. }
    cbn in Hnd.
    assert (Hfresh : key ∉ dict_keys sealed).
    { apply list.NoDup_app in Hnd as (_ & Hd & _). intros Hin.
      apply (Hd key Hin). left. }
    destruct Hr as (Hem & _).
    destruct (IH (dict_set key c sealed) w1) as (new & w' & -> & Hall).
    + by rewrite Hem.
    + done.
    + rewrite dict_keys_set_fresh by done. by rewrite <- app_assoc.
    + exists ((key, c) :: new), w'. split.
      * rewrite dict_set_fresh by done. by rewrite <- app_assoc.
      * rewrite Hem in Hall. constructor; [|done]. split; [done|].
        by eexists _, _.
Qed.

Lemma unseal_sealed k kv kc :
  fernet_key_ok k = true → json_wf kv.2 → sealed_as k kv kc →
  unseal k kc.2 = Ok (Some kv.2).
Proof.
  intros Hok Hwf (_ & iv & now & ->). unfold unseal.
  rewrite Hok, b64decode_b64encode. cbn.
  rewrite fernet_decrypt_encrypt by done.
  assert (bytes_truthy (utf8_encode (json_dumps kv.2)) = true) as ->.
  { apply bool_decide_eq_true. apply utf8_encode_nonempty, json_dumps_nonempty. }
  by rewrite utf8_decode_encode, json_loads_dumps.
Qed.

Lemma merged_history_sealed k items new h :
  fernet_key_ok k = true →
  Forall (λ kv, json_wf kv.2
                ∧ open_error "MessageHistory" (history_file kv.1) = None) items →
  Forall2 (sealed_as k) items new →
  NoDup (dict_keys h ++ dict_keys items) →
  merged_history k new h = Some (h ++ items).
Proof.
  intros Hok Hwf Hall. revert h.
  induction Hall as [|[key j] [key' c] items new Hs Hall IH]; intros h Hnd.
  - by rewrite app_nil_r.
  - apply list.Forall_cons in Hwf as [[Hj Hopen] Hwf].
    pose proof (unseal_sealed k (key, j) (key', c) Hok Hj Hs) as Hu.
    cbn [merged_history]. cbn in Hu. rewrite Hu.
    destruct Hs as [Hkey _]. cbn in Hkey. subst key'. cbn in Hnd.
    cbn in Hopen. rewrite Hopen.
    assert (Hfresh : key ∉ dict_keys h).
    { apply list.NoDup_app in Hnd as (_ & Hd & _). intros Hin.
      apply (Hd key Hin). left. }
    cbn. rewrite dict_set_fresh by done. rewrite IH.
    + by rewrite <- app_assoc.
    + done.
    + unfold dict_keys in *. rewrite fmap_app. cbn. by rewrite <- app_assoc.
Qed.


(** C5, amended.  A successful [restore_from_backup] replaces the friends
    and groups lists by the snapshot's, and overwrites the history of each
    conversation that the snapshot carries and that opens under the local
    key ([unseal]) with what it opens to; a conversation that the snapshot
    does not carry keeps its local history.  Restoring a pushed snapshot
    reproduces the pusher's friends, groups and histories on a vault that
    has no history, holds the pusher's symmetric key, and can open the file
    of every conversation.  Under a key that opens no entry the restore
    still returns True and leaves the local histories as they were; when
    the file of a conversation that opens is refused it returns False. *)
Theorem restore_overwrites_per_conversation :
  (∀ (w : Messenger) (b : Backup),
     outcome (restore_from_backup (Some b) w) = Ok true →
     let w' := state_after (restore_from_backup (Some b) w) in
     let items := default [] (b_message_history b) in
     friends (data_manager w') = default [] (b_friends b)
     ∧ groups (data_manager w') = default [] (b_groups b)
     ∧ merged_history (symmetric_key (encryption_manager w)) items
         (message_history (data_manager w))
       = Some (message_history (data_manager w'))
     ∧ (NoDup (dict_keys items) → ∀ key c messages,
          (key, c) ∈ items →
          unseal (symmetric_key (encryption_manager w)) c = Ok (Some messages) →
          dict_get key (message_history (data_manager w')) = Some messages)
     ∧ (∀ key, key ∉ dict_keys items →
          dict_get key (message_history (data_manager w'))
          = dict_get key (message_history (data_manager w))))
  ∧ (∀ (pusher fresh : Messenger) (b : Backup),
     outcome (prepare_backup_data pusher) = Ok b →
     fernet_key_ok (symmetric_key (encryption_manager pusher)) = true →
     symmetric_key (encryption_manager fresh)
       = symmetric_key (encryption_manager pusher) →
     message_history (data_manager fresh) = [] →
     NoDup (dict_keys (message_history (data_manager pusher))) →
     Forall (λ kv, (∃ l, kv.2 = JList l) ∧ json_wf kv.2
                   ∧ open_error "MessageHistory" (history_file kv.1) = None)
            (message_history (data_manager pusher)) →
     let w' := state_after (restore_from_backup (Some b) fresh) in
     outcome (restore_from_backup (Some b) fresh) = Ok true
     ∧ friends (data_manager w') = friends (data_manager pusher)
     ∧ groups (data_manager w') = groups (data_manager pusher)
     ∧ message_history (data_manager w')
       = message_history (data_manager pusher))
  ∧ (∀ (w : Messenger) (b : Backup),
     backup_falsy (Some b) = false →
     Forall (λ kc, unseal (symmetric_key (encryption_manager w)) kc.2 = Ok None)
            (default [] (b_message_history b)) →
     let w' := state_after (restore_from_backup (Some b) w) in
     outcome (restore_from_backup (Some b) w) = Ok true
     ∧ friends (data_manager w') = default [] (b_friends b)
     ∧ groups (data_manager w') = default [] (b_groups b)
     ∧ message_history (data_manager w') = message_history (data_manager w))
  ∧ (∀ (w : Messenger) (b : Backup) key c messages,
     backup_falsy (Some b) = false →
     (key, c) ∈ default [] (b_message_history b) →
     unseal (symmetric_key (encryption_manager w)) c = Ok (Some messages) →
     open_error "MessageHistory" (history_file key) ≠ None →
     outcome (restore_from_backup (Some b) w) = Ok false).
Proof.
  split; [|split; [|split]].
  - intros w b Hok w' items. subst w' items.
    destruct (backup_falsy (Some b)) eqn:Hb.
    { unfold restore_from_backup in Hok. by rewrite Hb in Hok. }
    pose proof (restore_from_backup_run b w Hb) as Hrun.
    destruct (merged_history _ _ _) as [h|] eqn:Hm.
    + destruct Hrun as (w' & Hrun & Hfr & Hgr & Hh & _).
      rewrite Hrun. unfold state_after. cbn [snd].
      rewrite Hfr, Hgr, Hh. split; [done|]. split; [done|]. split; [done|].
      split.
      * intros Hnd key c messages Hin Hu. by eapply merged_history_carried.
      * intros key Hkey. by eapply merged_history_other.
    + destruct Hrun as (w' & Hrun & _). by rewrite Hrun in Hok.
  - intros pusher fresh b Hb Hok Hkey Hempty Hnd Hall w'. subst w'.
    destruct (prepare_backup_data_run pusher) as (sealed & w1 & Hp & _ & _).
    rewrite Hp in Hb. unfold outcome in Hb. cbn in Hb. injection Hb as <-.
    destruct (seal_history_reads (message_history (data_manager pusher)) []
                (with_env (set_ticks (S (ticks (env pusher)))) pusher))
      as (sealed' & w1' & Hs & _).
    assert (Hsealed : ∃ new, sealed = new ∧
              Forall2 (sealed_as (symmetric_key (encryption_manager pusher)))
                (message_history (data_manager pusher)) new).
    { destruct (seal_history_content (message_history (data_manager pusher)) []
                  (with_env (set_ticks (S (ticks (env pusher)))) pusher))
        as (new & w2 & Hc & Hall2); [done| |done|].
      { eapply list.Forall_impl; [exact Hall|]. by intros ? [? _]. }
      exists new. split; [|done].
      unfold prepare_backup_data in Hp. rewrite bind_gets, bind_run in Hp.
      cbn [time_time] in Hp. rewrite bind_run, Hc in Hp.
      cbn in Hp. by injection Hp as <- _. }
    destruct Hsealed as (new & -> & Hall2).
    pose proof (restore_from_backup_run
      {| b_friends := Some (friends (data_manager pusher));
         b_groups := Some (groups (data_manager pusher));
         b_message_history := Some new;
         b_timestamp := Some (clock (env pusher) (ticks (env pusher))) |}
      fresh eq_refl) as Hrun.
    cbn [b_message_history b_friends b_groups default] in Hrun.
    rewrite Hkey, Hempty in Hrun.
    rewrite (merged_history_sealed _ (message_history (data_manager pusher)))
      in Hrun; [|done| |done|done].
    + destruct Hrun as (w' & -> & Hfr & Hgr & Hh & _).
      unfold outcome, state_after. cbn [fst snd]. by rewrite Hfr, Hgr, Hh.
    + eapply list.Forall_impl; [exact Hall|]. by intros ? (_ & ? & ?).
  - intros w b Hb Hall w'. subst w'.
    pose proof (restore_from_backup_run b w Hb) as Hrun.
    rewrite (merged_history_skipped _ _ _ Hall) in Hrun.
    destruct Hrun as (w' & -> & Hfr & Hgr & Hh & _).
    unfold outcome, state_after. cbn [fst snd]. by rewrite Hfr, Hgr, Hh.
  - intros w b key c messages Hb Hin Hu Hopen.
    pose proof (restore_from_backup_run b w Hb) as Hrun.
    rewrite (merged_history_refused _ _ _ _ _ _ Hin Hu Hopen) in Hrun.
    by destruct Hrun as (w' & -> & _).
Qed.


End restore_facts.

(** ** Lists with a unique key *)

Lemma filter_none {A} (P : A → Prop) `{∀ x, Decision (P x)} (l : list A) :
  (∀ x, x ∈ l → ¬ P x) → filter P l = [].
Proof.
  induction l as [|y l IH]; intros Hall; [done|].
  rewrite filter_cons_False by (apply Hall; left).
  apply IH. intros x Hx. apply Hall. by right.
Qed.

Lemma filter_unique_key {A K} (key : A → K) (P : A → Prop)
    `{∀ x, Decision (P x)} (l : list A) (x : A) :
  NoDup (key <$> l) → x ∈ l → (∀ y, P y → key y = key x) →
  filter P l = if decide (P x) then [x] else [].
Proof.
  intros Hnd Hin Hkey. induction l as [|y l IH]; [by apply elem_of_nil in Hin|].
  cbn in Hnd. apply NoDup_cons in Hnd as [Hnotin Hnd].
  apply elem_of_cons in Hin as [->|Hin].
  - assert (filter P l = []) as Hnil.
    { apply filter_none. intros z Hz HP. apply Hnotin.
      rewrite <- (Hkey z HP). by apply list_elem_of_fmap_2. }
    rewrite filter_cons, Hnil. by destruct (decide (P y)).
  - rewrite filter_cons_False; [by apply IH|].
    intros HP. apply Hnotin. rewrite (Hkey y HP). by apply list_elem_of_fmap_2.
Qed.

(** ** The relay: registration and tokens *)

Section relay_facts.
Import Relay.
Local Open Scope Z_scope.

Lemma create_user_conflict now username email password_hash public_key db :
  (∃ u, u ∈ rows (users db) ∧ (u_username u = username ∨ u_email u = email)) →
  create_user now username email password_hash public_key db = (Ok 0, db).
Proof.
  intros (u & Hin & Hu). unfold create_user. rewrite bind_run. cbn [get].
  assert (existsb (user_conflicts username email) (rows (users db)) = true) as ->.
  { apply existsb_exists. exists u. split; [by apply list_elem_of_In|].
    unfold user_conflicts. apply orb_true_iff.
    destruct Hu as [Hu|Hu]; [left|right]; by apply bool_decide_eq_true. }
  done.
Qed.

(** C10.  A registration whose username or email is already in [users]
    fails with an HTTP 400 error and leaves the whole database as it was:
    no user row is added or changed and no token is recorded. *)
Theorem register_conflict_has_no_effect {P : Primitives} (now : Z)
    (salt : bytes) (token : string) (user : UserRegister) (db : Database) :
  (∃ u, u ∈ rows (users db)
        ∧ (u_username u = rq_username user ∨ u_email u = rq_email user)) →
  register now salt token user db
  = (Raised (HTTPException 400 "Username or email already exists"), db).
Proof.
  intros Hconflict. unfold register. rewrite bind_run.
  by rewrite (create_user_conflict _ _ _ _ _ _ Hconflict).
Qed.

Lemma prefix_bearer_split header :
  String.prefix "Bearer " header = true → is_Some (split_space header !! 1%nat).
Proof.
  intros Hp.
  do 7 (destruct header as [|[[] [] [] [] [] [] [] []] header]; try done).
  cbn. destruct header as [|c header]; cbn; [by eexists|].
  destruct (Ascii.eqb c " "); [by eexists|].
  destruct (split_space header); by eexists.
Qed.

Lemma validate_auth_token_found now db t :
  NoDup (t_token <$> rows (auth_tokens db)) →
  t ∈ rows (auth_tokens db) →
  validate_auth_token now (t_token t) db
  = (Ok (if decide (t_expires_at t > now) then Some (t_user_id t) else None), db).
Proof.
  intros Hnd Hin. unfold validate_auth_token, gets.
  rewrite (filter_unique_key t_token _ _ t Hnd Hin) by (by intros ? [? _]).
  destruct (decide (t_expires_at t > now)).
  - by rewrite decide_True.
  - by rewrite decide_False by (by intros [_ ?]).
Qed.

Lemma validate_auth_token_unknown now db tok :
  (∀ t, t ∈ rows (auth_tokens db) → t_token t ≠ tok) →
  validate_auth_token now tok db = (Ok None, db).
Proof.
  intros Hno. unfold validate_auth_token, gets.
  rewrite filter_none; [done|]. intros t Hin [Ht _]. by apply (Hno t).
Qed.

(** C8, amended.  The check is made at the call and changes nothing.  The
    call is rejected exactly when no bearer token is presented or every
    recorded row of the presented token (none when it is unknown) has
    [expires_at <= now]: a token is expired from [now >= expires_at] on.  A
    recorded token with [now < expires_at] is accepted as its user.  Every
    rejection is an HTTP 401 error. *)
Theorem token_checked_at_call (db : Database) (now : Z)
    (authorization : option string) :
  tokens_consistent db →
  let run := get_current_user now authorization db in
  state_after run = db
  ∧ ((∃ e, outcome run = Raised e) ↔
       match bearer_token authorization with
       | None => True
       | Some tok =>
           ∀ t, t ∈ rows (auth_tokens db) → t_token t = tok →
                t_expires_at t ≤ now
       end)
  ∧ (∀ t, t ∈ rows (auth_tokens db) →
          bearer_token authorization = Some (t_token t) →
          now < t_expires_at t → outcome run = Ok (t_user_id t))
  ∧ (∀ e, outcome run = Raised e → ∃ detail, e = HTTPException 401 detail).
Proof.
  intros [Hnd Huid] run. subst run.
  unfold get_current_user, bearer_token.
  assert (Habsent : ∀ d,
    let run := raise (HTTPException 401 d) db in
    state_after run = db
    ∧ ((∃ e, outcome run = Raised e) ↔ True)
    ∧ (∀ t, t ∈ rows (auth_tokens db) → @None string = Some (t_token t) →
            now < t_expires_at t → outcome run = Ok (t_user_id t))
    ∧ (∀ e, outcome run = Raised e → ∃ detail, e = HTTPException 401 detail)).
  { intros d run. split; [done|]. split; [by split; [|eexists]|].
    split; [by intros ?? [=]|]. intros e [= <-]. by eexists. }
  destruct authorization as [header|]; [|apply Habsent].
  destruct (String.prefix "Bearer " header) eqn:Hp; cbn [negb];
    [|apply Habsent]. clear Habsent.
  destruct (prefix_bearer_split header Hp) as [tok Htok]. rewrite Htok.
  cbn [or_raise]. rewrite bind_ret_l, bind_run.
  destruct (decide (tok ∈ t_token <$> rows (auth_tokens db))) as [Hin|Hnotin].
  - apply list_elem_of_fmap in Hin as (t & -> & Hin).
    rewrite (validate_auth_token_found now db t Hnd Hin).
    assert (Hne : t_user_id t ≠ 0) by (by eapply Forall_forall in Huid).
    assert (Hone : ∀ t', t' ∈ rows (auth_tokens db) → t_token t' = t_token t → t' = t).
    { intros t' Hin' Heq.
      apply list_elem_of_lookup in Hin as [i Hi], Hin' as [j Hj].
      assert (i = j) as ->; [|congruence].
      eapply NoDup_lookup; [exact Hnd|..]; rewrite list_lookup_fmap.
      - by rewrite Hi.
      - rewrite Hj. cbn. by rewrite Heq. }
    destruct (decide (t_expires_at t > now)) as [Hlive|Hdead].
    + rewrite bool_decide_eq_false_2 by done.
      unfold outcome, state_after. cbn. repeat split; try done.
      * intros [e [=]].
      * intros Hall. specialize (Hall t Hin eq_refl). lia.
      * intros t' Hin' [= Heq] _. by rewrite (Hone t' Hin' (eq_sym Heq)).
    + unfold outcome, state_after. cbn. repeat split; try done.
      * intros _ t' Hin' Heq. rewrite (Hone t' Hin' Heq). lia.
      * by eexists.
      * intros t' Hin' [= Heq] Hlive.
        rewrite (Hone t' Hin' (eq_sym Heq)) in Hlive. lia.
      * intros e [= <-]. by eexists.
  - rewrite validate_auth_token_unknown.
    2:{ intros t Hin <-. apply Hnotin. by apply list_elem_of_fmap_2. }
    unfold outcome, state_after. cbn. repeat split; try done.
    + intros _ t Hin <-. destruct Hnotin. by apply list_elem_of_fmap_2.
    + by eexists.
    + intros t Hin [= ->]. destruct Hnotin. by apply list_elem_of_fmap_2.
    + intros e [= <-]. by eexists.
Qed.

End relay_facts.

(** ** The relay: the friend graph *)

(** Whatever the two operations do, [UNIQUE(user_id, friend_id)] keeps at
    most one edge per ordered pair. *)
Section friend_facts.
Import Relay.
Local Open Scope Z_scope.

Lemma edge_pairs_update cond status upd (t : Table Friend) :
  edge_pairs
    (update_rows cond
       (λ f, {| f_id := f_id f; f_user_id := f_user_id f;
                f_friend_id := f_friend_id f; f_status := status;
                f_created_at := f_created_at f; f_updated_at := upd |}) t)
  = edge_pairs t.
Proof.
  unfold edge_pairs, update_rows. cbn. rewrite <- list_fmap_compose.
  apply list_fmap_ext. intros i f _. cbn. by destruct (cond f).
Qed.

Lemma edge_pairs_insert (t : Table Friend) u f status now :
  existsb (λ e, bool_decide (f_user_id e = u ∧ f_friend_id e = f)) (rows t) = false →
  NoDup (edge_pairs t) →
  NoDup (edge_pairs
    (insert_row (λ id, {| f_id := id; f_user_id := u; f_friend_id := f;
                          f_status := status; f_created_at := now;
                          f_updated_at := None |}) t).1).
Proof.
  intros Hfree Hnd. unfold edge_pairs, insert_row. cbn.
  rewrite fmap_app. cbn. apply NoDup_app. split; [done|]. split.
  - intros p Hp Hin. apply list_elem_of_singleton in Hin as ->.
    apply list_elem_of_fmap in Hp as (e & [= Hu Hf] & He).
    assert (existsb (λ e, bool_decide (f_user_id e = u ∧ f_friend_id e = f)) (rows t) = true)
      as Hex; [|congruence].
    apply existsb_exists. exists e. split; [by apply list_elem_of_In|].
    by apply bool_decide_eq_true.
  - apply NoDup_singleton.
Qed.

Lemma friend_edges_stay_unique (db : Database) :
  NoDup (edge_pairs (friends db)) →
  (∀ fetchone now user_id friend_username,
     NoDup (edge_pairs (friends (state_after
       (add_friend_request fetchone now user_id friend_username db)))))
  ∧ (∀ now request_id user_id accept,
     NoDup (edge_pairs (friends (state_after
       (respond_to_friend_request now request_id user_id accept db))))).
Proof.
  intros Hnd. split.
  - intros fetchone now user_id friend_username.
    unfold add_friend_request. rewrite bind_run. cbn [get_user_by_username gets].
    destruct (head _) as [friend|]; [|done].
    destruct (bool_decide (user_id = u_id friend)); [done|].
    rewrite bind_run. cbn [get].
    destruct (fetchone _) as [e|].
    + destruct (f_status e); try done.
      rewrite bind_modify. unfold state_after, ret. cbn [snd set_friends friends].
      by rewrite edge_pairs_update.
    + destruct (existsb _ _) eqn:Hfree; [done|].
      pose proof (edge_pairs_insert (friends db) user_id (u_id friend)
                    pending now Hfree Hnd) as Hins.
      destruct (insert_row _ _) as [t id]. rewrite bind_modify. exact Hins.
  - intros now request_id user_id accept.
    unfold respond_to_friend_request. rewrite bind_run. cbn [get].
    destruct (head _) as [request|]; [|done].
    cbv zeta. rewrite bind_modify.
    set (updated := update_rows _ _ _).
    assert (Hup : NoDup (edge_pairs updated)).
    { unfold updated. by rewrite edge_pairs_update. }
    destruct accept; [|exact Hup].
    rewrite bind_run.
    destruct (existsb _ (rows updated)) eqn:Hfree; [exact Hup|].
    pose proof (edge_pairs_insert updated user_id (f_user_id request)
                  accepted now Hfree Hup) as Hins.
    destruct (insert_row _ _) as [t id]. exact Hins.
Qed.

End friend_facts.

(** ** The relay: receiving messages *)

Section receive_facts.
Import Relay.
Local Open Scope Z_scope.
Local Open Scope py_scope.
Context {Q : Sqlite}.

#[local] Instance row_le_trans {A} (timestamp id : A → Z)
  : Transitive (row_le timestamp id).
Proof. intros a b c. unfold row_le. lia. Qed.
#[local] Instance row_le_total {A} (timestamp id : A → Z)
  : Total (row_le timestamp id).
Proof. intros a b. unfold row_le. lia. Qed.

Lemma by_timestamp_perm {A} (timestamp id : A → Z) (selection : list A) :
  by_timestamp timestamp id selection ≡ₚ selection.
Proof. apply merge_sort_Permutation. Qed.

Lemma by_timestamp_sorted {A} (timestamp id : A → Z) (selection : list A) :
  StronglySorted (row_le timestamp id) (by_timestamp timestamp id selection).
Proof. apply (StronglySorted_merge_sort (row_le timestamp id)). Qed.

Lemma get_messages_run db user_id since :
  int64 user_id = true → int64 since = true →
  let messages :=
    by_timestamp dr_timestamp dr_id (direct_selection db user_id since) in
  get_messages user_id since db
  = if decide (length messages ≤ variable_limit)%nat
    then (Ok messages,
          match messages with
          | [] => db
          | _ => mark_delivered (dr_id <$> messages) db
          end)
    else (Raised OperationalError, db).
Proof.
  intros Hu Hs messages. unfold get_messages, bind_parameter.
  rewrite Hu, Hs. rewrite !bind_ret_l. unfold get at 1. rewrite bind_run.
  fold messages. destruct messages as [|r l] eqn:Hm.
  - rewrite decide_True by (cbn; lia). done.
  - rewrite length_fmap.
    destruct (decide (length (r :: l) ≤ variable_limit)%nat); done.
Qed.

Lemma get_messages_overflow db user_id since :
  int64 user_id && int64 since = false →
  get_messages user_id since db = (Raised OverflowError, db).
Proof.
  intros H. unfold get_messages, bind_parameter.
  destruct (int64 user_id); [|done]. cbn in H. by rewrite H.
Qed.

Lemma get_group_messages_run db user_id since :
  int64 user_id = true → int64 since = true →
  get_group_messages user_id since db
  = (Ok (by_timestamp gw_timestamp gw_id (group_selection db user_id since)), db).
Proof.
  intros Hu Hs. unfold get_group_messages, bind_parameter. by rewrite Hu, Hs.
Qed.

Lemma get_group_messages_overflow db user_id since :
  int64 user_id && int64 since = false →
  get_group_messages user_id since db = (Raised OverflowError, db).
Proof.
  intros H. unfold get_group_messages, bind_parameter.
  destruct (int64 user_id); [|done]. cbn in H. by rewrite H.
Qed.

Lemma get_messages_answer db user_id since result db' :
  get_messages user_id since db = (Ok result, db') →
  int64 user_id = true ∧ int64 since = true
  ∧ result = by_timestamp dr_timestamp dr_id (direct_selection db user_id since)
  ∧ (length result ≤ variable_limit)%nat
  ∧ db' = match result with
          | [] => db
          | _ => mark_delivered (dr_id <$> result) db
          end.
Proof.
  intros Hrun.
  destruct (int64 user_id && int64 since) eqn:Hfit.
  - apply andb_true_iff in Hfit as [Hu Hs].
    rewrite (get_messages_run db user_id since Hu Hs) in Hrun. cbv zeta in Hrun.
    destruct (decide _) as [Hfew|]; [|done]. by injection Hrun as <- <-.
  - by rewrite get_messages_overflow in Hrun.
Qed.

Lemma get_group_messages_answer db user_id since result db' :
  get_group_messages user_id since db = (Ok result, db') →
  result = by_timestamp gw_timestamp gw_id (group_selection db user_id since)
  ∧ db' = db.
Proof.
  intros Hrun.
  destruct (int64 user_id && int64 since) eqn:Hfit.
  - apply andb_true_iff in Hfit as [Hu Hs].
    rewrite (get_group_messages_run db user_id since Hu Hs) in Hrun.
    by injection Hrun as <- <-.
  - by rewrite get_group_messages_overflow in Hrun.
Qed.

Lemma get_messages_state db user_id since :
  state_after (get_messages user_id since db) = db
  ∨ ∃ ids, state_after (get_messages user_id since db) = mark_delivered ids db.
Proof.
  destruct (int64 user_id && int64 since) eqn:Hfit.
  - apply andb_true_iff in Hfit as [Hu Hs].
    rewrite (get_messages_run db user_id since Hu Hs). cbv zeta.
    destruct (decide _); [|by left].
    destruct (by_timestamp _ _ _); [by left|right; by eexists].
  - left. by rewrite get_messages_overflow.
Qed.

Lemma get_group_messages_state db user_id since :
  state_after (get_group_messages user_id since db) = db.
Proof.
  destruct (int64 user_id && int64 since) eqn:Hfit.
  - apply andb_true_iff in Hfit as [Hu Hs].
    by rewrite (get_group_messages_run db user_id since Hu Hs).
  - by rewrite get_group_messages_overflow.
Qed.

Lemma get_user_by_id_run db user_id :
  get_user_by_id user_id db
  = if int64 user_id
    then (Ok (head (filter (λ u, u_id u = user_id) (rows (users db)))), db)
    else (Raised OverflowError, db).
Proof. unfold get_user_by_id, bind_parameter. by destruct (int64 user_id). Qed.


Lemma sender_row db m :
  NoDup (u_id <$> rows (users db)) →
  m_sender_id m ∈ u_id <$> rows (users db) →
  ∃ u, u ∈ rows (users db) ∧ u_id u = m_sender_id m
       ∧ filter (λ u, m_sender_id m = u_id u) (rows (users db)) = [u].
Proof.
  intros Hnd Hin. apply list_elem_of_fmap in Hin as (u & Hu & Hin).
  exists u. split; [done|]. split; [done|].
  rewrite (filter_unique_key u_id _ _ u Hnd Hin) by (intros; congruence).
  by rewrite decide_True.
Qed.

Lemma direct_join_stored db (l : list Message) :
  NoDup (u_id <$> rows (users db)) →
  Forall (λ m, m_sender_id m ∈ u_id <$> rows (users db)) l →
  dr_id <$> (l ≫= direct_join db) = m_id <$> l
  ∧ Forall (λ r, ∃ m u, m ∈ l ∧ u ∈ rows (users db)
                        ∧ u_id u = m_sender_id m ∧ r = direct_row m u)
           (l ≫= direct_join db).
Proof.
  intros Hu Hs. induction Hs as [|m l Hm Hs [IH1 IH2]]; [done|].
  destruct (sender_row db m Hu Hm) as (u & Hin & Hid & Hf).
  rewrite bind_cons. unfold direct_join at 1 3. rewrite Hf. cbn.
  split; [by rewrite IH1|]. constructor.
  - exists m, u. repeat split; try done. left.
  - eapply Forall_impl; [exact IH2|]. intros r (m' & u' & ? & ?).
    exists m', u'. split; [by right|done].
Qed.

Lemma direct_selection_stored db user_id since :
  db_consistent db →
  dr_id <$> direct_selection db user_id since
    = m_id <$> filter (direct_for user_id since) (rows (messages db))
  ∧ Forall (λ r, ∃ m u, m ∈ rows (messages db) ∧ u ∈ rows (users db)
                        ∧ u_id u = m_sender_id m ∧ r = direct_row m u)
           (direct_selection db user_id since).
Proof.
  intros (Hu & _ & _ & Hs). unfold direct_selection.
  destruct (direct_join_stored db
              (filter (direct_for user_id since) (rows (messages db))) Hu)
    as [H1 H2].
  { apply Forall_forall. intros m Hm. apply list_elem_of_filter in Hm as [_ Hm].
    by eapply Forall_forall in Hs. }
  split; [done|]. eapply Forall_impl; [exact H2|].
  intros r (m & u & Hm & ?). exists m, u. split; [|done].
  by apply list_elem_of_filter in Hm as [_ ?].
Qed.

Lemma group_rows_of db user_id m u :
  db_consistent db →
  let joined :=
    g ← filter (λ g, m_recipient_id m = gr_id g) (rows (groups db));
    gm ← filter (λ gm, gr_id g = gm_group_id gm ∧ gm_user_id gm = user_id)
                (rows (group_members db));
    [group_row m u g] in
  (member_of db user_id (m_recipient_id m)
   ∧ ∃ g, g ∈ rows (groups db) ∧ gr_id g = m_recipient_id m
          ∧ joined = [group_row m u g])
  ∨ (¬ member_of db user_id (m_recipient_id m) ∧ joined = []).
Proof.
  intros (_ & Hg & Hgm & _) joined. subst joined. unfold member_of.
  destruct (decide (m_recipient_id m ∈ gr_id <$> rows (groups db))) as [Hin|Hout].
  - apply list_elem_of_fmap in Hin as (g & Hid & Hin).
    rewrite (filter_unique_key gr_id _ _ g Hg Hin) by (intros; congruence).
    rewrite decide_True by done. rewrite bind_singleton.
    destruct (decide ((m_recipient_id m, user_id)
                ∈ (λ gm, (gm_group_id gm, gm_user_id gm)) <$> rows (group_members db)))
      as [Hmem|Hnot].
    + left. split.
      { split; [|done]. rewrite Hid. by apply list_elem_of_fmap_2. }
      exists g. split; [done|]. split; [done|].
      apply list_elem_of_fmap in Hmem as (gm & Hpair & Hmem).
      injection Hpair as Hp1 Hp2.
      rewrite (filter_unique_key (λ gm, (gm_group_id gm, gm_user_id gm)) _ _ gm
                 Hgm Hmem).
      * rewrite decide_True; [done|]. split; congruence.
      * intros gm' [? ?]. congruence.
    + right. split; [by intros [_ ?]|].
      rewrite filter_none; [done|]. intros gm Hmem [H1 H2]. apply Hnot.
      apply list_elem_of_fmap. exists gm. split; [|done]. congruence.
  - right. split; [by intros [? _]|].
    rewrite filter_none; [done|]. intros g Hin Heq. apply Hout.
    rewrite Heq. by apply list_elem_of_fmap_2.
Qed.

Lemma group_join_stored db user_id since (l : list Message) :
  db_consistent db →
  Forall (λ m, m_sender_id m ∈ u_id <$> rows (users db)) l →
  let selected :=
    filter (λ m, m_timestamp m > since ∧ m_is_group m = true) l
    ≫= group_join db user_id in
  gw_id <$> selected = m_id <$> filter (group_for db user_id since) l
  ∧ Forall (λ r, ∃ m u g, m ∈ l ∧ u ∈ rows (users db) ∧ g ∈ rows (groups db)
                          ∧ u_id u = m_sender_id m
                          ∧ gr_id g = m_recipient_id m
                          ∧ r = group_row m u g) selected.
Proof.
  intros Hdb Hs selected. subst selected. pose proof Hdb as (Hu & _).
  induction Hs as [|m l Hm Hs [IH1 IH2]]; [done|].
  assert (IH2' : Forall (λ r, ∃ m0 u g, m0 ∈ m :: l ∧ u ∈ rows (users db)
                    ∧ g ∈ rows (groups db) ∧ u_id u = m_sender_id m0
                    ∧ gr_id g = m_recipient_id m0 ∧ r = group_row m0 u g)
            (filter (λ m, m_timestamp m > since ∧ m_is_group m = true) l
             ≫= group_join db user_id)).
  { eapply Forall_impl; [exact IH2|]. intros r (m' & u' & g' & ? & ?).
    exists m', u', g'. split; [by right|done]. }
  destruct (decide (m_timestamp m > since ∧ m_is_group m = true)) as [Hnew|Hold].
  - rewrite filter_cons_True by done. rewrite bind_cons.
    destruct (sender_row db m Hu Hm) as (u & Hin & Hid & Hf).
    unfold group_join at 1 3. rewrite Hf, bind_singleton.
    destruct (group_rows_of db user_id m u Hdb)
      as [(Hmem & g & Hg & Hgid & ->)|(Hnot & ->)].
    + rewrite filter_cons_True by (by destruct Hnew). cbn.
      split; [by rewrite IH1|]. constructor; [|done].
      exists m, u, g. repeat split; try done. left.
    + rewrite filter_cons_False by (by intros (_ & _ & ?)). done.
  - rewrite !filter_cons_False; [done| |done].
    intros (? & ? & _). by apply Hold.
Qed.

Lemma group_selection_stored db user_id since :
  db_consistent db →
  gw_id <$> group_selection db user_id since
    = m_id <$> filter (group_for db user_id since) (rows (messages db))
  ∧ Forall (λ r, ∃ m u g, m ∈ rows (messages db) ∧ u ∈ rows (users db)
                          ∧ g ∈ rows (groups db)
                          ∧ u_id u = m_sender_id m
                          ∧ gr_id g = m_recipient_id m
                          ∧ r = group_row m u g)
           (group_selection db user_id since).
Proof.
  intros Hdb. pose proof Hdb as (_ & _ & _ & Hs).
  apply (group_join_stored db user_id since _ Hdb Hs).
Qed.


End receive_facts.

(** ** The relay: accounts and sessions *)


Section auth_facts.
Import Relay.
Local Open Scope py_scope.
Local Open Scope Z_scope.
Context {P : Primitives} {HL : PrimitivesLaws P} {B : Builtins}.

Lemma split_space_no_space s : no_space s = true → split_space s = [s].
Proof.
  induction s as [|c s IH]; cbn; [done|].
  intros [Hc Hs]%andb_true_iff. apply negb_true_iff in Hc. rewrite Hc.
  by rewrite IH.
Qed.

Lemma bearer_token_no_space token :
  no_space token = true → bearer_token (Some ("Bearer " +:+ token)) = Some token.
Proof.
  intros Hs. unfold bearer_token.
  change ("Bearer " +:+ token)%string
    with (String "B" (String "e" (String "a" (String "r"
           (String "e" (String "r" (String " " token))))))).
  cbn. rewrite split_space_no_space by done. by destruct token.
Qed.

Lemma verify_password_hash (salt : bytes) (password provided : string) :
  length salt = 32%nat →
  verify_password (hash_password salt password) provided
  = bool_decide (pbkdf2_hmac_sha256 (utf8_encode provided) salt
                 = pbkdf2_hmac_sha256 (utf8_encode password) salt).
Proof.
  intros Hlen. unfold verify_password, hash_password.
  rewrite b64decode_b64encode. cbv zeta.
  rewrite <- Hlen, take_app_length, drop_app_length. done.
Qed.

(** X1.  A hash that [hash_password] made with a salt of 32 bytes is accepted by
    [verify_password] for exactly the passwords whose derived key under
    that salt is the one of the hashed password; the hashed password is
    accepted. *)
Theorem verify_password_hash_password (salt : bytes) (password provided : string) :
  length salt = 32%nat →
  verify_password (hash_password salt password) provided
  = bool_decide (pbkdf2_hmac_sha256 (utf8_encode provided) salt
                 = pbkdf2_hmac_sha256 (utf8_encode password) salt)
  ∧ verify_password (hash_password salt password) password = true.
Proof.
  intros Hlen. split; [by apply verify_password_hash|].
  rewrite verify_password_hash by done. by apply bool_decide_eq_true.
Qed.

Lemma existsb_false_forall {A} (f : A → bool) (l : list A) :
  existsb f l = false → ∀ x, x ∈ l → f x = false.
Proof.
  intros Hex x Hin. destruct (f x) eqn:Hf; [|done].
  assert (existsb f l = true); [|congruence].
  apply existsb_exists. exists x. split; [by apply list_elem_of_In|done].
Qed.

Lemma forall_existsb_false {A} (f : A → bool) (l : list A) :
  (∀ x, x ∈ l → f x = false) → existsb f l = false.
Proof.
  intros Hall. destruct (existsb f l) eqn:Hex; [|done].
  apply existsb_exists in Hex as (x & Hin%list_elem_of_In & Hf).
  by rewrite (Hall x Hin) in Hf.
Qed.

Lemma create_auth_token_fresh now user_id token expires_in db :
  (∀ t, t ∈ rows (auth_tokens db) → t_token t ≠ token) →
  create_auth_token now user_id token expires_in db
  = (Ok true,
     set_auth_tokens
       {| rows := rows (auth_tokens db)
                  ++ [{| t_id := seq (auth_tokens db) + 1; t_user_id := user_id;
                         t_token := token; t_created_at := now;
                         t_expires_at := now + expires_in |}];
          seq := seq (auth_tokens db) + 1 |} db).
Proof.
  intros Hfresh. unfold create_auth_token. rewrite bind_run. cbn [get].
  rewrite forall_existsb_false; [done|].
  intros t Hin. apply bool_decide_eq_false. by apply Hfresh.
Qed.

Lemma tokens_consistent_insert db t :
  tokens_consistent db → t_user_id t ≠ 0 →
  (∀ t', t' ∈ rows (auth_tokens db) → t_token t' ≠ t_token t) →
  ∀ s, tokens_consistent
         (set_auth_tokens {| rows := rows (auth_tokens db) ++ [t]; seq := s |} db).
Proof.
  intros [Hnd Huid] Hne Hfresh s. split; cbn.
  - rewrite fmap_app. apply NoDup_app. split; [done|]. split.
    + intros tok Hin Hin'. apply list_elem_of_singleton in Hin' as ->.
      apply list_elem_of_fmap in Hin as (t' & Heq & Hin).
      by apply (Hfresh t' Hin).
    + apply NoDup_singleton.
  - apply Forall_app. split; [done|]. by apply Forall_singleton.
Qed.

Lemma get_current_user_bearer now token db :
  no_space token = true →
  get_current_user now (Some ("Bearer " +:+ token)) db
  = (user_id <- validate_auth_token now token ;;
     match user_id with
     | Some uid =>
         if bool_decide (uid = 0)
         then raise (HTTPException 401 "Invalid or expired token")
         else ret uid
     | None => raise (HTTPException 401 "Invalid or expired token")
     end)%py db.
Proof.
  intros Hs. pose proof (bearer_token_no_space token Hs) as Hb.
  unfold bearer_token in Hb. unfold get_current_user.
  destruct (String.prefix "Bearer " ("Bearer " +:+ token)); [|done].
  cbn [negb]. by rewrite Hb.
Qed.

(** X2.  A token without a space that is not stored yet is stored by
    [create_auth_token], the tokens stay consistent, and from then on
    [get_current_user] answers the header [Bearer token] with the token's
    user at every second before [now + expires_in] and raises 401 from
    that second on. *)
Theorem fresh_token_lifetime (db : Database) (now expires_in user_id : Z)
    (token : string) :
  tokens_consistent db → user_id ≠ 0 → no_space token = true →
  (∀ t, t ∈ rows (auth_tokens db) → t_token t ≠ token) →
  let run := create_auth_token now user_id token expires_in db in
  let db' := state_after run in
  outcome run = Ok true
  ∧ tokens_consistent db'
  ∧ ∀ now', get_current_user now' (Some ("Bearer " +:+ token)) db'
      = (if decide (now' < now + expires_in) then Ok user_id
         else Raised (HTTPException 401 "Invalid or expired token"), db').
Proof.
  intros Hc Hne Hs Hfresh run db'. subst run db'.
  rewrite create_auth_token_fresh by done.
  unfold outcome, state_after. cbn [fst snd].
  set (t := {| t_id := _ |}).
  pose proof (tokens_consistent_insert db t Hc Hne Hfresh (seq (auth_tokens db) + 1))
    as Hc'.
  split; [done|]. split; [done|].
  intros now'. rewrite get_current_user_bearer by done. rewrite bind_run.
  change token with (t_token t) at 1.
  rewrite validate_auth_token_found; [|apply Hc'|].
  2:{ cbn. apply elem_of_app. right. by left. }
  cbn [t_expires_at t t_user_id].
  destruct (decide (now + expires_in > now')) as [Hlive|Hdead].
  - rewrite decide_True by lia. by rewrite bool_decide_eq_false_2.
  - by rewrite decide_False by lia.
Qed.

Lemma register_run now salt token user db r db1 :
  register now salt token user db = (Ok r, db1) →
  let new_user :=
    {| u_id := seq (users db) + 1; u_username := rq_username user;
       u_email := rq_email user;
       u_password_hash := hash_password salt (rq_password user);
       u_public_key := rq_public_key user; u_created_at := now;
       u_last_login := None |} in
  existsb (user_conflicts (rq_username user) (rq_email user)) (rows (users db))
    = false
  ∧ r = {| rg_token := token; rg_user_id := seq (users db) + 1 |}
  ∧ seq (users db) + 1 ≠ 0
  ∧ users db1 = {| rows := rows (users db) ++ [new_user];
                   seq := seq (users db) + 1 |}
  ∧ friends db1 = friends db ∧ groups db1 = groups db
  ∧ group_members db1 = group_members db ∧ messages db1 = messages db.
Proof.
  unfold register. rewrite bind_run. unfold create_user. rewrite bind_run.
  cbn [get].
  destruct (existsb _ _) eqn:Hex; [done|].
  cbn [insert_row]. rewrite bind_modify. cbn [ret].
  destruct (bool_decide (seq (users db) + 1 = 0)) eqn:Hz; [done|].
  apply bool_decide_eq_false in Hz.
  rewrite bind_run.
  unfold create_auth_token. rewrite bind_run. cbn [get].
  destruct (existsb (λ t, bool_decide (t_token t = token)) _); cbn.
  - intros [= <- <-]. by repeat split.
  - intros [= <- <-]. by repeat split.
Qed.

Lemma filter_app_fresh {A} (Q : A → Prop) `{∀ x, Decision (Q x)} (l : list A) x :
  (∀ y, y ∈ l → ¬ Q y) → Q x → filter Q (l ++ [x]) = [x].
Proof.
  intros Hno Hx. rewrite filter_app, filter_none by done.
  by rewrite filter_cons_True.
Qed.

(** X3.  After a registration that returned (salt of 32 bytes), [login] with
    the registered name and password returns the registered user's id
    with the token of the request; with a password whose derived key is
    another one it raises 401 and leaves the database as it is. *)
Theorem login_after_register (clock : nat → Z) (now : Z) (salt : bytes)
    (token token' : string) (user : UserRegister) (db db1 : Database)
    (r : Registered) :
  length salt = 32%nat →
  register now salt token user db = (Ok r, db1) →
  (outcome (login clock token'
              {| lg_username := rq_username user;
                 lg_password := rq_password user |} db1)
   = Ok {| rg_token := token'; rg_user_id := rg_user_id r |})
  ∧ (∀ password,
       pbkdf2_hmac_sha256 (utf8_encode password) salt
       ≠ pbkdf2_hmac_sha256 (utf8_encode (rq_password user)) salt →
       login clock token'
         {| lg_username := rq_username user; lg_password := password |} db1
       = (Raised (HTTPException 401 "Invalid username or password"), db1)).
Proof.
  intros Hlen Hreg.
  destruct (register_run _ _ _ _ _ _ _ Hreg) as (Hex & -> & Hne & Hu & _).
  set (new_user := {| u_id := _ |}) in Hu.
  assert (Hfind :
    get_user_by_username (rq_username user) db1 = (Ok (Some new_user), db1)).
  { unfold get_user_by_username, gets. rewrite Hu. cbn [rows].
    rewrite filter_app_fresh; [done| |done].
    intros u Hin Heq.
    pose proof (existsb_false_forall _ _ Hex u Hin) as Hc.
    unfold user_conflicts in Hc. apply orb_false_iff in Hc as [Hc _].
    by apply bool_decide_eq_false in Hc. }
  split.
  - unfold login. cbn [lg_username lg_password]. rewrite bind_run, Hfind.
    cbn [u_password_hash new_user u_id].
    rewrite verify_password_hash, bool_decide_eq_true_2 by done.
    unfold outcome. rewrite bind_run. cbn [update_last_login modify].
    rewrite bind_run.
    destruct (create_auth_token _ _ _ _ _) as [[ok|e] db2] eqn:Hc; [done|].
    unfold create_auth_token in Hc. rewrite bind_run in Hc. cbn [get] in Hc.
    destruct (existsb (λ t, bool_decide (t_token t = token')) _); cbn in Hc; done.
  - intros password Hwrong. unfold login. cbn [lg_username lg_password].
    rewrite bind_run, Hfind. cbn [u_password_hash new_user].
    by rewrite verify_password_hash, bool_decide_eq_false_2.
Qed.

Lemma validate_auth_token_deleted now token tok db :
  validate_auth_token now tok
    (set_auth_tokens (delete_rows (λ t, t_token t = token) (auth_tokens db)) db)
  = (if decide (tok = token) then Ok None
     else outcome (validate_auth_token now tok db),
     set_auth_tokens (delete_rows (λ t, t_token t = token) (auth_tokens db)) db).
Proof.
  unfold validate_auth_token, gets, outcome. cbn. f_equal.
  rewrite list_filter_filter.
  destruct (decide (tok = token)) as [->|Hne].
  - rewrite filter_none; [done|]. intros t _ [[? _] ?]. done.
  - do 3 f_equal. apply list_filter_iff. intros t. split.
    + by intros [? _].
    + intros [Ht ?]. split; [done|]. congruence.
Qed.

(** X4.  When [logout] returns, the token it was called with is gone:
    [get_current_user] raises 401 for that header at every time.  A header
    that presents another token is answered as before, and no table but
    the tokens changes. *)
Theorem logout_revokes_token (clock : nat → Z) (authorization : option string)
    (db : Database) :
  let run := logout clock authorization db in
  let db' := state_after run in
  outcome run = Ok tt →
  (∀ now, get_current_user now authorization db'
          = (Raised (HTTPException 401 "Invalid or expired token"), db'))
  ∧ (∀ now other, bearer_token other ≠ bearer_token authorization →
       outcome (get_current_user now other db')
       = outcome (get_current_user now other db))
  ∧ users db' = users db ∧ friends db' = friends db
  ∧ groups db' = groups db ∧ group_members db' = group_members db
  ∧ messages db' = messages db.
Proof.
  intros run db'. subst run db'. unfold logout. rewrite bind_run.
  destruct (get_current_user (clock 0%nat) authorization db) as [[uid|e] db0] eqn:Hcur;
    [|done].
  assert (db0 = db) as ->.
  { unfold get_current_user in Hcur.
    destruct authorization as [header|]; [|done].
    destruct (negb _); [done|].
    destruct (split_space header !! 1%nat); [|done].
    cbn [or_raise] in Hcur. rewrite bind_ret_l, bind_run in Hcur.
    cbn [validate_auth_token gets] in Hcur.
    destruct (t_user_id <$> _) as [u|]; [|done].
    destruct (bool_decide (u = 0)); [done|]. by injection Hcur. }
  destruct authorization as [header|]; [|done].
  destruct (String.prefix "Bearer " header) eqn:Hp.
  2:{ unfold get_current_user in Hcur. by rewrite Hp in Hcur. }
  destruct (prefix_bearer_split header Hp) as [token Htok]. rewrite Htok.
  cbn [or_raise]. rewrite bind_ret_l, bind_run.
  unfold delete_auth_token. rewrite bind_run. cbn [get]. rewrite bind_modify.
  unfold outcome, state_after, ret. cbn [fst snd].
  intros _.
  set (db' := set_auth_tokens _ db).
  split; [|split; [|done]].
  - intros now. unfold get_current_user. rewrite Hp, Htok. cbn [negb or_raise].
    rewrite bind_ret_l, bind_run. unfold db'.
    rewrite validate_auth_token_deleted. by rewrite decide_True.
  - intros now other Hother. unfold bearer_token in Hother.
    rewrite Hp, Htok in Hother.
    unfold get_current_user.
    destruct other as [header'|]; [|done].
    destruct (String.prefix "Bearer " header'); cbn [negb]; [|done].
    destruct (split_space header' !! 1%nat) as [tok|]; [|done].
    cbn [or_raise]. rewrite !bind_ret_l, !bind_run. unfold db'.
    rewrite validate_auth_token_deleted.
    rewrite decide_False by congruence.
    unfold validate_auth_token, gets, outcome. cbn [fst].
    destruct (t_user_id <$> _) as [u|]; [|done].
    by destruct (bool_decide (u = 0)).
Qed.

End auth_facts.

(** ** The relay: friend requests *)


Section friend_flow.
Import Relay.
Local Open Scope py_scope.
Local Open Scope Z_scope.

Lemma user_by_username db (u : User) :
  users_consistent db → u ∈ rows (users db) →
  filter (λ v, u_username v = u_username u) (rows (users db)) = [u].
Proof.
  intros [_ Hnd] Hin.
  rewrite (filter_unique_key u_username _ _ u Hnd Hin) by done.
  by rewrite decide_True.
Qed.

Lemma user_by_id db (u : User) (id : Z) :
  users_consistent db → u ∈ rows (users db) → id = u_id u →
  filter (λ v, id = u_id v) (rows (users db)) = [u].
Proof.
  intros [Hnd _] Hin ->.
  rewrite (filter_unique_key u_id _ _ u Hnd Hin) by (by intros ? ->).
  by rewrite decide_True.
Qed.

(** X5.  Between two users with no edge in either direction,
    [add_friend_request] succeeds, and the target then finds the pending
    request, with the requester's name and the time of the request, in
    whatever [get_friend_requests] returns.  The requests of every other
    user and the friends of every user are as before. *)
Theorem friend_request_reaches_target (fetchone : list Friend → option Friend)
    (now : Z) (db : Database) (requester target : User) :
  users_consistent db →
  requester ∈ rows (users db) → target ∈ rows (users db) →
  u_id requester ≠ u_id target →
  fetchone [] = None →
  (∀ f, f ∈ rows (friends db) →
     ¬ (f_user_id f = u_id requester ∧ f_friend_id f = u_id target)
     ∧ ¬ (f_user_id f = u_id target ∧ f_friend_id f = u_id requester)) →
  let run := add_friend_request fetchone now (u_id requester)
               (u_username target) db in
  let db' := state_after run in
  outcome run = Ok {| success := true; message := "Friend request sent" |}
  ∧ (∀ result, get_friend_requests db' (u_id target) result →
       {| fq_id := seq (friends db) + 1; fq_user_id := u_id requester;
          fq_status := pending; fq_created_at := now;
          fq_username := u_username requester |} ∈ result)
  ∧ (∀ user_id, user_id ≠ u_id target →
       requests_selection db' user_id = requests_selection db user_id)
  ∧ (∀ user_id, friends_selection db' user_id = friends_selection db user_id).
Proof.
  intros Hu Hreq Htgt Hne Hnone Hfree run db'. subst run db'.
  unfold add_friend_request. rewrite bind_run.
  unfold get_user_by_username, gets. rewrite (user_by_username db target) by done.
  cbn [head]. rewrite bool_decide_eq_false_2 by done.
  rewrite bind_run. cbn [get].
  rewrite filter_none.
  2:{ intros f Hin [H|H]; by destruct (Hfree f Hin). }
  rewrite Hnone.
  rewrite forall_existsb_false.
  2:{ intros f Hin. apply bool_decide_eq_false. by destruct (Hfree f Hin). }
  cbn [insert_row]. rewrite bind_modify.
  unfold outcome, state_after, ret. cbn [fst snd].
  split; [done|].
  set (new := {| f_id := _ |}).
  split; [|split].
  - intros result Hres. unfold get_friend_requests, in_any_order in Hres.
    rewrite Hres. unfold requests_selection. cbn [friends set_friends rows users].
    rewrite filter_app, bind_app. apply elem_of_app. right.
    rewrite filter_cons_True by done. rewrite filter_nil. cbn [mbind list_bind].
    rewrite (user_by_id db requester) by done. cbn. by left.
  - intros user_id Hother. unfold requests_selection.
    cbn [friends set_friends rows users].
    rewrite filter_app, filter_cons_False, filter_nil, app_nil_r; [done|].
    cbn. by intros [? _].
  - intros user_id. unfold friends_selection.
    cbn [friends set_friends rows users].
    rewrite filter_app, filter_cons_False, filter_nil, app_nil_r; [done|].
    cbn. by intros [_ ?].
Qed.

Lemma elem_of_update_rows {R} (cond : R → bool) (f : R → R) (t : Table R) r :
  r ∈ rows t → (if cond r then f r else r) ∈ rows (update_rows cond f t).
Proof. intros Hin. cbn. by apply (list_elem_of_fmap_2 (λ r, if cond r then f r else r)). Qed.

(** X6.  When the user a request points at accepts it and no mirror edge is
    there, [respond_to_friend_request] succeeds and each of the two users
    is then among the other's [get_friends]: the requester has the target
    since the request was made, the target has the requester since the
    acceptance.  The request need not be pending. *)
Theorem accepted_request_is_mutual (now : Z) (db : Database)
    (requester target : User) (request : Friend) :
  users_consistent db →
  requester ∈ rows (users db) → target ∈ rows (users db) →
  NoDup (f_id <$> rows (friends db)) →
  request ∈ rows (friends db) →
  f_user_id request = u_id requester → f_friend_id request = u_id target →
  (∀ f, f ∈ rows (friends db) →
     ¬ (f_user_id f = u_id target ∧ f_friend_id f = u_id requester)) →
  let run := respond_to_friend_request now (f_id request) (u_id target) true db in
  let db' := state_after run in
  outcome run = Ok {| success := true; message := "Friend request accepted" |}
  ∧ (∀ result, get_friends db' (u_id requester) result →
       {| fr_id := u_id target; fr_username := u_username target;
          fr_friends_since := f_created_at request |} ∈ result)
  ∧ (∀ result, get_friends db' (u_id target) result →
       {| fr_id := u_id requester; fr_username := u_username requester;
          fr_friends_since := now |} ∈ result).
Proof.
  intros Hu Hreq Htgt Hnd Hin Hfrom Hto Hfree run db'. subst run db'.
  unfold respond_to_friend_request. rewrite bind_run. cbn [get].
  rewrite (filter_unique_key f_id _ _ request Hnd Hin) by (by intros ? [? _]).
  rewrite decide_True by done. cbn [head]. cbv zeta.
  rewrite bind_modify, bind_run.
  set (updated := update_rows _ _ (friends db)).
  assert (Hpairs : ∀ f, f ∈ rows updated →
            ¬ (f_user_id f = u_id target ∧ f_friend_id f = u_id requester)).
  { intros f Hf. cbn in Hf. apply list_elem_of_fmap in Hf as (f0 & -> & Hf0).
    specialize (Hfree f0 Hf0). by destruct (bool_decide _). }
  rewrite forall_existsb_false.
  2:{ intros f Hf. apply bool_decide_eq_false. rewrite Hfrom. by apply Hpairs. }
  cbn [insert_row]. unfold modify.
  unfold outcome, state_after, ret. cbn [fst snd].
  split; [done|].
  set (mirror := {| f_id := seq updated + 1 |}).
  assert (Hacc : {| f_id := f_id request; f_user_id := f_user_id request;
                    f_friend_id := f_friend_id request; f_status := accepted;
                    f_created_at := f_created_at request;
                    f_updated_at := Some now |} ∈ rows updated).
  { pose proof (elem_of_update_rows
      (λ f, bool_decide (f_id f = f_id request))
      (λ f, {| f_id := f_id f; f_user_id := f_user_id f;
               f_friend_id := f_friend_id f; f_status := accepted;
               f_created_at := f_created_at f; f_updated_at := Some now |})
      (friends db) request Hin) as H.
    cbv beta in H. by rewrite bool_decide_eq_true_2 in H. }
  split.
  - intros result Hres. unfold get_friends, in_any_order in Hres. rewrite Hres.
    unfold friends_selection. cbn [friends set_friends rows users set_friends].
    apply list_elem_of_bind. eexists. split; [|apply list_elem_of_filter; split;
      [|apply elem_of_app; left; exact Hacc]]; [|by cbn].
    cbn [f_friend_id]. rewrite Hto.
    rewrite (user_by_id db target) by done. cbn. by left.
  - intros result Hres. unfold get_friends, in_any_order in Hres. rewrite Hres.
    unfold friends_selection. cbn [friends set_friends rows users set_friends].
    apply list_elem_of_bind. exists mirror. split; [|apply list_elem_of_filter; split;
      [|apply elem_of_app; right; by left]]; [|by cbn].
    cbn [f_friend_id mirror]. rewrite Hfrom.
    rewrite (user_by_id db requester) by done. cbn. by left.
Qed.

End friend_flow.

(** ** The relay: sending and receiving *)

Lemma unique_key_eq {A K} (key : A → K) (l : list A) (x y : A) :
  NoDup (key <$> l) → x ∈ l → y ∈ l → key x = key y → x = y.
Proof.
  intros Hnd Hx Hy Heq.
  apply list_elem_of_lookup in Hx as [i Hi], Hy as [j Hj].
  assert (i = j) as ->; [|congruence].
  eapply NoDup_lookup; [exact Hnd|..]; rewrite list_lookup_fmap.
  - by rewrite Hi.
  - rewrite Hj. cbn. by rewrite Heq.
Qed.

Section message_flow.
Import Relay.
Local Open Scope py_scope.
Local Open Scope Z_scope.
Context {P : Primitives} {B : Builtins} {Q : Sqlite}.

Lemma relay_save_message_run now sender_id recipient_id message db :
  save_message now sender_id recipient_id (ms_encrypted_key message)
    (ms_encrypted_content message) (ms_is_group message) db
  = (Ok (seq (messages db) + 1),
     set_messages
       {| rows := rows (messages db)
                  ++ [stored_message db now sender_id recipient_id message];
          seq := seq (messages db) + 1 |} db).
Proof. reflexivity. Qed.

Lemma direct_selection_stored_one db t user_id since :
  direct_selection (set_messages t db) user_id since
  = filter (direct_for user_id since) (rows t) ≫= direct_join db.
Proof. reflexivity. Qed.

Lemma group_selection_stored_one db t user_id since :
  group_selection (set_messages t db) user_id since
  = filter (λ m, m_timestamp m > since ∧ m_is_group m = true) (rows t)
    ≫= group_join db user_id.
Proof. reflexivity. Qed.

(** X7.  A direct message that an authenticated user sends to the id of a user
    is stored under the next id with the relay's clock as its time, not
    the timestamp of the request.  The recipient receives it, with the
    sender's name, from [get_messages] for every watermark below that
    time and for no watermark from that time on; what the other users
    receive does not change.  (An id that SQLite cannot hold makes the
    lookup of the recipient raise instead.) *)
Theorem sent_message_is_received (clock : nat → Z)
    (authorization : option string) (message : MessageSend) (db : Database)
    (sender recipient : User) :
  users_consistent db →
  sender ∈ rows (users db) → recipient ∈ rows (users db) →
  get_current_user (clock 0%nat) authorization db = (Ok (u_id sender), db) →
  int_of_str (ms_recipient_id message) = Some (u_id recipient) →
  ms_is_group message = false →
  let run := send_message clock authorization message db in
  let db' := state_after run in
  let row := {| dr_id := seq (messages db) + 1; dr_sender_id := u_id sender;
                dr_sender := u_username sender;
                dr_encrypted_key := ms_encrypted_key message;
                dr_encrypted_content := ms_encrypted_content message;
                dr_timestamp := clock 1%nat; dr_is_group := false |} in
  if int64 (u_id recipient) then
    outcome run = Ok (seq (messages db) + 1)
    ∧ (∀ since result db'', clock 1%nat > since →
         get_messages (u_id recipient) since db' = (Ok result, db'') →
         row ∈ result)
    ∧ (∀ since, clock 1%nat ≤ since →
         direct_selection db' (u_id recipient) since
         = direct_selection db (u_id recipient) since)
    ∧ (∀ user_id since, user_id ≠ u_id recipient →
         direct_selection db' user_id since = direct_selection db user_id since)
  else run = (Raised OverflowError, db).
Proof.
  intros Hu Hs Hr Hauth Hint Hdirect run db' row. subst run db' row.
  unfold send_message. rewrite bind_run, Hauth, Hint, bind_run.
  rewrite get_user_by_id_run.
  destruct (int64 (u_id recipient)); [|done].
  rewrite (filter_unique_key u_id _ _ recipient (proj1 Hu) Hr) by done.
  rewrite decide_True by done. cbn [head]. rewrite bool_decide_eq_false_2 by done.
  cbn [andb]. rewrite relay_save_message_run.
  unfold outcome, state_after. cbn [fst snd]. split; [done|].
  set (new := stored_message _ _ _ _ _).
  assert (Hjoin : direct_join db new = [direct_row new sender]).
  { unfold direct_join. cbn [m_sender_id new stored_message].
    rewrite (user_by_id db sender) by done. done. }
  split; [|split].
  - intros since result db'' Hnew (_ & _ & -> & _)%get_messages_answer.
    rewrite by_timestamp_perm.
    rewrite direct_selection_stored_one. cbn [rows].
    rewrite filter_app, bind_app. apply elem_of_app. right.
    rewrite filter_cons_True.
    2:{ unfold direct_for, new, stored_message. cbn. by rewrite Hdirect. }
    rewrite filter_nil, bind_cons, Hjoin. unfold new, stored_message, direct_row.
    cbn. rewrite Hdirect. by left.
  - intros since Hold. rewrite direct_selection_stored_one. cbn [rows].
    rewrite filter_app, filter_cons_False, filter_nil, app_nil_r; [done|].
    unfold direct_for, new, stored_message. cbn. lia.
  - intros user_id since Hother. rewrite direct_selection_stored_one. cbn [rows].
    rewrite filter_app, filter_cons_False, filter_nil, app_nil_r; [done|].
    unfold direct_for, new, stored_message. cbn. by intros [? _].
Qed.

(** X8.  The route [send_message] stores a group message for whatever
    64-bit number the request names as the group: it checks neither that
    the group exists nor that the sender is a member.  When the group
    exists, each of its members receives the message from
    [get_group_messages] for a watermark below its time.  A number outside
    64 bits makes the lookup of the recipient raise [OverflowError], and
    nothing is stored. *)
Theorem group_message_needs_no_membership (clock : nat → Z)
    (authorization : option string) (message : MessageSend) (db : Database)
    (sender : User) (group_id : Z) :
  get_current_user (clock 0%nat) authorization db = (Ok (u_id sender), db) →
  int_of_str (ms_recipient_id message) = Some group_id →
  ms_is_group message = true →
  let run := send_message clock authorization message db in
  let db' := state_after run in
  if int64 group_id then
    outcome run = Ok (seq (messages db) + 1)
    ∧ (db_consistent db → sender ∈ rows (users db) →
       ∀ g member since result db'',
         g ∈ rows (groups db) → gr_id g = group_id →
         member_of db member group_id → clock 1%nat > since →
         get_group_messages member since db' = (Ok result, db'') →
         {| gw_id := seq (messages db) + 1; gw_sender_id := u_id sender;
            gw_sender := u_username sender; gw_group_id := group_id;
            gw_group_name := gr_name g;
            gw_encrypted_key := ms_encrypted_key message;
            gw_encrypted_content := ms_encrypted_content message;
            gw_timestamp := clock 1%nat |} ∈ result)
  else run = (Raised OverflowError, db).
Proof.
  intros Hauth Hint Hgroup run db'. subst run db'.
  unfold send_message. rewrite bind_run, Hauth, Hint, bind_run.
  rewrite get_user_by_id_run.
  destruct (int64 group_id); [|done].
  replace (negb (ms_is_group message)) with false by (by rewrite Hgroup).
  rewrite andb_false_r, relay_save_message_run.
  unfold outcome, state_after. cbn [fst snd]. split; [done|].
  intros Hdb Hs g member since result db'' Hg Hgid Hmem Hnew
    [-> _]%get_group_messages_answer.
  set (new := stored_message _ _ _ _ _).
  rewrite by_timestamp_perm, group_selection_stored_one. cbn [rows].
  rewrite filter_app, bind_app. apply elem_of_app. right.
  rewrite filter_cons_True by (by unfold new, stored_message; cbn).
  rewrite filter_nil, bind_cons. apply elem_of_app. left.
  destruct (sender_row db new (proj1 Hdb)) as (u & Hu & Hid & Hf).
  { by apply (list_elem_of_fmap_2 u_id). }
  assert (u = sender) as ->
    by (by apply (unique_key_eq u_id (rows (users db))); [apply Hdb|..]).
  unfold group_join. rewrite Hf, bind_singleton.
  destruct (group_rows_of db member new sender Hdb)
    as [(_ & g' & Hg' & Hgid' & ->)|(Hnot & _)]; [|done].
  assert (g' = g) as ->.
  { apply (unique_key_eq gr_id (rows (groups db))); [apply Hdb|done..|].
    cbn in Hgid'. congruence. }
  unfold group_row. cbn. rewrite Hgid. by left.
Qed.

Lemma direct_selection_mark_delivered ids db user_id since :
  direct_selection (mark_delivered ids db) user_id since
  = direct_selection db user_id since.
Proof.
  unfold mark_delivered. rewrite direct_selection_stored_one.
  unfold direct_selection, update_rows. cbn [rows].
  induction (rows (messages db)) as [|m l IH]; [done|].
  rewrite fmap_cons, !filter_cons.
  destruct (bool_decide (m_id m ∈ ids)).
  - unfold direct_for at 1 3. cbn [m_recipient_id m_timestamp m_is_group].
    fold (direct_for user_id since m).
    destruct (decide (direct_for user_id since m)); [|done].
    rewrite !bind_cons. by rewrite IH.
  - destruct (decide (direct_for user_id since m)); [|done].
    rewrite !bind_cons. by rewrite IH.
Qed.

Lemma mark_delivered_again ids ids' db :
  (∀ id, id ∈ ids' → id ∈ ids) →
  mark_delivered ids' (mark_delivered ids db) = mark_delivered ids db.
Proof.
  intros Hsub. unfold mark_delivered, set_messages, update_rows. cbn.
  f_equal. f_equal. rewrite <- list_fmap_compose.
  apply list_fmap_ext. intros i m _. cbn.
  destruct (bool_decide (m_id m ∈ ids)) eqn:Hm; cbn.
  - by destruct (bool_decide (m_id m ∈ ids')).
  - rewrite bool_decide_eq_false_2; [done|].
    apply bool_decide_eq_false in Hm. intros Hin. by apply Hm, Hsub.
Qed.

(** X9.  [get_messages] does not consume what it returns: after a call the
    selection of every user for every watermark is what it was, and a
    second call with the same watermark returns the same rows and leaves
    the database as the first call left it. *)
Theorem receive_does_not_consume (db db' : Database) (user_id since : Z)
    (result : list DirectRow) :
  get_messages user_id since db = (Ok result, db') →
  (∀ user_id' since', direct_selection db' user_id' since'
                      = direct_selection db user_id' since')
  ∧ get_messages user_id since db' = (Ok result, db')
  ∧ (∀ result' db'', get_messages user_id since db' = (Ok result', db'') →
       result' ≡ₚ result ∧ db'' = db').
Proof.
  intros (Hu & Hs & Hresult & Hfew & ->)%get_messages_answer.
  assert (Hsel : ∀ u s,
    direct_selection match result with
                     | [] => db
                     | _ => mark_delivered (dr_id <$> result) db
                     end u s = direct_selection db u s).
  { intros u s. destruct result; [done|apply direct_selection_mark_delivered]. }
  split; [exact Hsel|].
  assert (Hagain : get_messages user_id since
            match result with
            | [] => db
            | _ => mark_delivered (dr_id <$> result) db
            end
          = (Ok result,
             match result with
             | [] => db
             | _ => mark_delivered (dr_id <$> result) db
             end)).
  { rewrite get_messages_run by done. cbv zeta. rewrite Hsel, <- Hresult.
    rewrite decide_True by done. f_equal.
    destruct result as [|r result]; [done|]. by apply mark_delivered_again. }
  split; [exact Hagain|].
  intros result' db'' Hrun. rewrite Hagain in Hrun. by injection Hrun as <- <-.
Qed.

End message_flow.

Section backup_table.
Import Relay.
Local Open Scope py_scope.
Local Open Scope Z_scope.

(** X10.  [save_user_backup] keeps one backup per user: after it the user's
    only row is the new one, [get_user_backup] returns that row and
    nothing else, and the rows of the other users are as before. *)
Theorem saved_backup_is_the_only_one (now user_id : Z) (backup_data : string)
    (t : Table UserBackup) :
  let run := save_user_backup now user_id backup_data t in
  let t' := state_after run in
  outcome run = Ok true
  ∧ filter (λ b, ub_user_id b = user_id) (rows t')
    = [{| ub_id := seq t + 1; ub_user_id := user_id;
          ub_backup_data := backup_data; ub_timestamp := now |}]
  ∧ (∀ result, get_user_backup t' user_id result ↔
       result = Some {| ub_id := seq t + 1; ub_user_id := user_id;
                        ub_backup_data := backup_data; ub_timestamp := now |})
  ∧ (∀ other, other ≠ user_id →
       filter (λ b, ub_user_id b = other) (rows t')
       = filter (λ b, ub_user_id b = other) (rows t)).
Proof.
  intros run t'. subst run t'.
  unfold save_user_backup, outcome, state_after. cbn.
  set (new := {| ub_id := _ |}).
  assert (Hmine : filter (λ b, ub_user_id b = user_id)
                    (filter (λ r, ub_user_id r ≠ user_id) (rows t) ++ [new])
                  = [new]).
  { rewrite filter_app_fresh; [done| |done].
    intros b Hb%list_elem_of_filter. by destruct Hb. }
  split; [done|]. split; [exact Hmine|]. split.
  - intros result. unfold get_user_backup. cbn [rows]. rewrite Hmine. split.
    + intros (sorted & [Hperm _] & ->).
      apply Permutation_singleton_r in Hperm. by subst.
    + intros ->. exists [new]. split; [|done]. split; [done|].
      repeat constructor.
  - intros other Hother. rewrite filter_app, filter_cons_False, filter_nil, app_nil_r
      by (cbn; congruence).
    rewrite list_filter_filter. apply list_filter_iff. intros b.
    split; [by intros [? _]|]. intros Hb. split; [done|]. congruence.
Qed.

End backup_table.

(** ** The relay: groups *)


Section group_flow.
Import Relay.
Local Open Scope py_scope.
Local Open Scope Z_scope.
Context {Q : Sqlite}.

Lemma is_member_row_pairs db group_id user_id :
  existsb (is_member_row group_id user_id) (rows (group_members db)) = true
  ↔ (group_id, user_id) ∈ member_pairs db.
Proof.
  unfold member_pairs. rewrite existsb_exists. split.
  - intros (gm & Hin%list_elem_of_In & Hgm).
    apply bool_decide_eq_true in Hgm as [<- <-].
    by apply (list_elem_of_fmap_2 (λ gm, (gm_group_id gm, gm_user_id gm))).
  - intros (gm & [= -> ->] & Hin)%list_elem_of_fmap.
    exists gm. split; [by apply list_elem_of_In|].
    by apply bool_decide_eq_true.
Qed.

Lemma member_pairs_with_member now group_id user_id db :
  member_pairs (with_member now group_id user_id db)
  = member_pairs db ++ [(group_id, user_id)].
Proof. unfold member_pairs, with_member. cbn. by rewrite fmap_app. Qed.

Lemma add_group_member_run now group_id user_id db :
  add_group_member now group_id user_id db
  = if decide ((group_id, user_id) ∈ member_pairs db) then (Ok false, db)
    else (Ok true, with_member now group_id user_id db).
Proof.
  unfold add_group_member, try_except, insert_group_member.
  rewrite !bind_run. cbn [get].
  pose proof (is_member_row_pairs db group_id user_id) as Hiff.
  destruct (existsb _ _).
  - rewrite decide_True by (by apply Hiff). done.
  - rewrite decide_False; [done|]. intros Hin. by apply Hiff in Hin.
Qed.

Lemma user_lookup db name :
  users_consistent db →
  head (filter (λ u, u_username u = name) (rows (users db)))
  = match decide (name ∈ u_username <$> rows (users db)) with
    | left _ => head (filter (λ u, u_username u = name) (rows (users db)))
    | right _ => None
    end
  ∧ ∀ u, head (filter (λ u, u_username u = name) (rows (users db))) = Some u
         ↔ u ∈ rows (users db) ∧ u_username u = name.
Proof.
  intros Hu. split.
  - destruct (decide _) as [|Hno]; [done|].
    rewrite filter_none; [done|]. intros u Hin Heq. apply Hno.
    rewrite <- Heq. by apply list_elem_of_fmap_2.
  - intros u. split.
    + intros Hh. apply head_Some_elem_of in Hh.
      by apply list_elem_of_filter in Hh as [? ?].
    + intros [Hin <-]. by rewrite (user_by_username db u).
Qed.

Lemma add_listed_members_run clock tick group_id members db :
  users_consistent db →
  ∃ db', add_listed_members clock tick group_id members db = (Ok tt, db')
    ∧ db' = set_group_members (group_members db') db
    ∧ users db' = users db ∧ groups db' = groups db
    ∧ (∀ p, p ∈ member_pairs db' ↔
         p ∈ member_pairs db
         ∨ ∃ u, u ∈ rows (users db) ∧ u_username u ∈ members
                ∧ p = (group_id, u_id u))
    ∧ (NoDup (member_pairs db) → NoDup (member_pairs db')).
Proof.
  intros Hu. revert tick db Hu.
  induction members as [|name members IH]; intros tick db Hu.
  - exists db. repeat split; try done.
    + by destruct db.
    + by left.
    + intros [?|(u & _ & Hin & _)]; [done|]. by apply elem_of_nil in Hin.
  - cbn [add_listed_members]. rewrite bind_run. unfold get_user_by_username, gets.
    destruct (head _) as [u|] eqn:Hh.
    + apply (user_lookup db name Hu) in Hh as [Hin Hname].
      rewrite bind_run, add_group_member_run.
      destruct (decide ((group_id, u_id u) ∈ member_pairs db)) as [Hmem|Hnew].
      * destruct (IH (S tick) db Hu) as (db' & -> & Hframe & Husers & Hgroups & Hp & Hnd).
        exists db'. repeat split; try done.
        -- intros Hin'. apply Hp in Hin' as [?|(v & ? & ? & ?)]; [by left|].
           right. exists v. repeat split; try done. by right.
        -- intros [?|(v & Hv & Hvn & ->)]; apply Hp; [by left|].
           apply elem_of_cons in Hvn as [Heq|Hvn].
           ++ left. rewrite <- Hname in Heq.
              assert (v = u) as -> by
                (by apply (unique_key_eq u_username (rows (users db))); [apply Hu|..]).
              done.
           ++ right. by exists v.
      * set (db1 := with_member (clock tick) group_id (u_id u) db).
        assert (Hu1 : users_consistent db1) by done.
        destruct (IH (S tick) db1 Hu1) as (db' & -> & Hframe & Husers & Hgroups & Hp & Hnd).
        exists db'. repeat split; try done.
        -- intros Hin'. apply Hp in Hin' as [Hold|(v & ? & ? & ?)].
           ++ unfold db1 in Hold. rewrite member_pairs_with_member in Hold.
              apply elem_of_app in Hold as [?|Hone]; [by left|].
              apply list_elem_of_singleton in Hone as ->.
              right. exists u. repeat split; try done. rewrite Hname. by left.
           ++ right. exists v. repeat split; try done. by right.
        -- intros [Hold|(v & Hv & Hvn & ->)]; apply Hp.
           ++ left. unfold db1. rewrite member_pairs_with_member.
              apply elem_of_app. by left.
           ++ apply elem_of_cons in Hvn as [Heq|Hvn].
              ** left. rewrite <- Hname in Heq.
                 assert (v = u) as -> by
                   (by apply (unique_key_eq u_username (rows (users db))); [apply Hu|..]).
                 unfold db1. rewrite member_pairs_with_member.
                 apply elem_of_app. right. by left.
              ** right. by exists v.
        -- intros Hnd0. apply Hnd. unfold db1. rewrite member_pairs_with_member.
           apply NoDup_app. split; [done|]. split; [|apply NoDup_singleton].
           intros p Hp0 Hp1. apply list_elem_of_singleton in Hp1 as ->. done.
    + destruct (IH tick db Hu) as (db' & -> & Hframe & Husers & Hgroups & Hp & Hnd).
      exists db'. repeat split; try done.
      * intros Hin'. apply Hp in Hin' as [?|(v & ? & ? & ?)]; [by left|].
        right. exists v. repeat split; try done. by right.
      * intros [?|(v & Hv & Hvn & ->)]; apply Hp; [by left|].
        apply elem_of_cons in Hvn as [Heq|Hvn]; [|right; by exists v].
        assert (head (filter (λ u, u_username u = name) (rows (users db))) = Some v)
          as Hsome by (by apply (user_lookup db name Hu)).
        congruence.
Qed.

Lemma create_group_run now name created_by db :
  create_group now name created_by db
  = if decide ((seq (groups db) + 1, created_by) ∈ member_pairs db)
    then (Raised IntegrityError, with_group now name created_by db)
    else (Ok (seq (groups db) + 1),
          with_member now (seq (groups db) + 1) created_by
            (with_group now name created_by db)).
Proof.
  unfold create_group. rewrite bind_run. cbn [get insert_row].
  rewrite bind_modify, bind_run. fold (with_group now name created_by db).
  unfold insert_group_member. rewrite bind_run. cbn [get].
  pose proof (is_member_row_pairs (with_group now name created_by db)
                (seq (groups db) + 1) created_by) as Hiff.
  change (member_pairs (with_group now name created_by db))
    with (member_pairs db) in Hiff.
  destruct (existsb _ _).
  - rewrite decide_True by (by apply Hiff). done.
  - rewrite decide_False; [done|]. intros Hin. by apply Hiff in Hin.
Qed.

(** X11.  The route [create_group], called by an authenticated user, makes a
    group under the next id whose members are the creator and the users
    whose names are listed, and nobody else; names that no user has are
    passed over.  The members of the other groups are as before, and the
    membership pairs stay unique. *)
Theorem created_group_members (clock : nat → Z) (authorization : option string)
    (group : GroupCreate) (db : Database) (creator_id : Z) :
  users_consistent db →
  Forall (λ gm, gm_group_id gm ≤ seq (groups db)) (rows (group_members db)) →
  get_current_user (clock 0%nat) authorization db = (Ok creator_id, db) →
  let run := create_group_route clock authorization group db in
  let db' := state_after run in
  let group_id := seq (groups db) + 1 in
  outcome run = Ok group_id
  ∧ (∀ user_id, member_of db' user_id group_id ↔
       user_id = creator_id
       ∨ ∃ u, u ∈ rows (users db) ∧ u_username u ∈ gc_members group
              ∧ u_id u = user_id)
  ∧ (∀ user_id g, g ≠ group_id →
       member_of db' user_id g ↔ member_of db user_id g)
  ∧ (NoDup (member_pairs db) → NoDup (member_pairs db')).
Proof.
  intros Hu Hbound Hauth run db' group_id. subst run db'.
  assert (Hfree : ∀ user_id, (group_id, user_id) ∉ member_pairs db).
  { intros user_id (gm & [= Hg _] & Hin)%list_elem_of_fmap.
    eapply Forall_forall in Hbound; [|exact Hin]. unfold group_id in Hg. lia. }
  unfold create_group_route. rewrite bind_run, Hauth, bind_run.
  rewrite create_group_run. fold group_id. rewrite decide_False by apply Hfree.
  rewrite bind_run.
  set (db1 := with_member _ _ _ _).
  assert (Hp1 : member_pairs db1 = member_pairs db ++ [(group_id, creator_id)]).
  { unfold db1. by rewrite member_pairs_with_member. }
  destruct (add_listed_members_run clock 2 group_id (gc_members group) db1)
    as (db' & -> & Hframe & Husers & Hgroups & Hp & Hnd); [done|].
  unfold outcome, state_after, ret. cbn [fst snd].
  split; [done|].
  assert (Hids : gr_id <$> rows (groups db') = (gr_id <$> rows (groups db)) ++ [group_id]).
  { rewrite Hgroups. unfold db1. cbn. by rewrite fmap_app. }
  split; [|split].
  - intros user_id. unfold member_of. fold (member_pairs db'). rewrite Hids, Hp, Hp1.
    split.
    + intros [_ [Hin|(u & ? & ? & [= ?])]]; [|right; by exists u].
      apply elem_of_app in Hin as [Hin|Hin]; [by apply Hfree in Hin|].
      apply list_elem_of_singleton in Hin as [= ->]. by left.
    + intros Hcase. split; [apply elem_of_app; right; by left|].
      destruct Hcase as [->|(u & ? & ? & <-)].
      * left. apply elem_of_app. right. by left.
      * right. by exists u.
  - intros user_id g Hg. unfold member_of. fold (member_pairs db') (member_pairs db).
    rewrite Hids, Hp, Hp1. split.
    + intros [Hin [Hpair|(u & ? & ? & [= ? ?])]]; [|done].
      apply elem_of_app in Hin as [Hin|Hin];
        [|by apply list_elem_of_singleton in Hin].
      apply elem_of_app in Hpair as [Hpair|Hpair]; [done|].
      by apply list_elem_of_singleton in Hpair as [= ? ?].
    + intros [Hin Hpair]. split; [apply elem_of_app; by left|].
      left. apply elem_of_app. by left.
  - intros Hnd0. apply Hnd. rewrite Hp1. apply NoDup_app.
    split; [done|]. split; [|apply NoDup_singleton].
    intros p Hp0 Hp1'. apply list_elem_of_singleton in Hp1' as ->.
    by apply Hfree in Hp0.
Qed.

Lemma get_current_user_reads now authorization db :
  state_after (get_current_user now authorization db) = db.
Proof.
  unfold get_current_user, state_after.
  destruct authorization as [header|]; [|done].
  destruct (negb _); [done|].
  destruct (split_space header !! 1%nat); [|done].
  cbn [or_raise]. rewrite bind_ret_l, bind_run.
  cbn [validate_auth_token gets].
  destruct (t_user_id <$> _) as [u|]; [|done].
  by destruct (bool_decide (u = 0)).
Qed.

Lemma db_consistent_with_member now group_id user_id db :
  db_consistent db → (group_id, user_id) ∉ member_pairs db →
  db_consistent (with_member now group_id user_id db).
Proof.
  intros (Hu & Hg & Hgm & Hm) Hnew. repeat split; try done.
  fold (member_pairs (with_member now group_id user_id db)).
  rewrite member_pairs_with_member. apply NoDup_app.
  split; [done|]. split; [|apply NoDup_singleton].
  intros p Hp Hp'. by apply list_elem_of_singleton in Hp' as ->.
Qed.

(** X12.  When the route [add_group_member] returns, the caller was a member of
    the group, the named user was not, and one membership row went in.
    When the group exists, the new member then receives from
    [get_group_messages] also the messages that were sent to the group
    before they joined. *)
Theorem new_member_receives_stored_messages (clock : nat → Z)
    (authorization : option string) (group_id : Z) (username : string)
    (db : Database) (u : User) :
  db_consistent db → users_consistent db →
  u ∈ rows (users db) → u_username u = username →
  let run := add_group_member_route clock authorization group_id username db in
  let db' := state_after run in
  outcome run = Ok tt →
  (∃ caller,
     outcome (get_current_user (clock 0%nat) authorization db) = Ok caller
     ∧ (group_id, caller) ∈ member_pairs db)
  ∧ ((group_id, u_id u) ∉ member_pairs db)
  ∧ db' = with_member (clock 1%nat) group_id (u_id u) db
  ∧ (∀ m since result db'',
       group_id ∈ gr_id <$> rows (groups db) →
       m ∈ rows (messages db) → m_is_group m = true →
       m_recipient_id m = group_id → m_timestamp m > since →
       get_group_messages (u_id u) since db' = (Ok result, db'') →
       m_id m ∈ gw_id <$> result).
Proof.
  intros Hdb Hu Hin Hname run db'. subst run db'.
  unfold add_group_member_route. rewrite bind_run.
  pose proof (get_current_user_reads (clock 0%nat) authorization db) as Hread.
  unfold state_after in Hread.
  destruct (get_current_user (clock 0%nat) authorization db) as [[caller|e] db0];
    [|done].
  cbn [snd] in Hread. subst db0. rewrite bind_run. cbn [get].
  destruct (bool_decide _) eqn:Hguard; [done|].
  apply bool_decide_eq_false in Hguard.
  rewrite bind_run. unfold get_user_by_username, gets.
  rewrite <- Hname, (user_by_username db u) by done. cbn [head].
  rewrite bind_run, add_group_member_run.
  destruct (decide ((group_id, u_id u) ∈ member_pairs db)) as [|Hnew]; [done|].
  unfold outcome, state_after, ret. cbn [fst snd]. intros _.
  split; [|split; [done|split; [done|]]].
  - exists caller. split; [done|].
    destruct (filter _ _) as [|gm l] eqn:Hf; [done|].
    assert (gm ∈ filter (λ gm, gm_group_id gm = group_id ∧ gm_user_id gm = caller)
                        (rows (group_members db))) as Hgm
      by (rewrite Hf; apply list_elem_of_here).
    apply list_elem_of_filter in Hgm as [[<- <-] Hgm].
    by apply (list_elem_of_fmap_2 (λ gm, (gm_group_id gm, gm_user_id gm))).
  - intros m since result db'' Hgroup Hm Hgrp Hto Hsince
      [-> _]%get_group_messages_answer.
    pose proof (db_consistent_with_member (clock 1%nat) group_id (u_id u) db Hdb Hnew)
      as Hdb'.
    destruct (group_selection_stored _ (u_id u) since Hdb') as [Hids _].
    rewrite by_timestamp_perm, Hids.
    apply (list_elem_of_fmap_2 m_id). apply list_elem_of_filter. split; [|done].
    split; [done|]. split; [done|]. rewrite Hto. split; [done|].
    fold (member_pairs (with_member (clock 1%nat) group_id (u_id u) db)).
    rewrite member_pairs_with_member. apply elem_of_app. right. by left.
Qed.

End group_flow.

Section group_listing.
Import Relay.
Local Open Scope py_scope.
Local Open Scope Z_scope.

Lemma members_of_group_NoDup (l : list GroupMember) (group_id : Z) :
  NoDup ((λ gm, (gm_group_id gm, gm_user_id gm)) <$> l) →
  NoDup (gm_user_id <$> filter (λ gm, gm_group_id gm = group_id) l).
Proof.
  induction l as [|gm l IH]; [constructor|].
  rewrite fmap_cons, NoDup_cons. intros [Hnotin Hnd].
  destruct (decide (gm_group_id gm = group_id)) as [Hg|Hg].
  - rewrite filter_cons_True by done. rewrite fmap_cons, NoDup_cons.
    split; [|by apply IH].
    intros (gm' & Hid & [Hg' Hin]%list_elem_of_filter)%list_elem_of_fmap.
    apply Hnotin.
    replace (gm_group_id gm, gm_user_id gm)
      with (gm_group_id gm', gm_user_id gm') by congruence.
    by apply (list_elem_of_fmap_2 (λ gm, (gm_group_id gm, gm_user_id gm))).
  - rewrite filter_cons_False by done. by apply IH.
Qed.

Lemma group_members_selection_ids db group_id :
  users_consistent db →
  mr_id <$> group_members_selection db group_id
  = filter (λ user_id, user_id ∈ u_id <$> rows (users db))
      (gm_user_id <$> filter (λ gm, gm_group_id gm = group_id)
                        (rows (group_members db))).
Proof.
  intros Hu. unfold group_members_selection.
  induction (filter (λ gm, gm_group_id gm = group_id) (rows (group_members db)))
    as [|gm l IH]; [done|].
  rewrite bind_cons, fmap_app, IH, fmap_cons.
  destruct (decide (gm_user_id gm ∈ u_id <$> rows (users db))) as [Hin|Hout].
  - rewrite filter_cons_True by done.
    apply list_elem_of_fmap in Hin as (u & Hid & Hin).
    rewrite (user_by_id db u (gm_user_id gm)) by done. cbn. by rewrite <- Hid.
  - rewrite filter_cons_False by done.
    rewrite filter_none; [done|]. intros u Hin Hid. apply Hout.
    rewrite Hid. by apply list_elem_of_fmap_2.
Qed.

(** X25.  What [get_group_members] lists agrees with the membership that
    [get_group_messages] goes by: on a database with unique users and
    unique membership pairs, every listing names each member once, a user
    id is listed exactly when the user exists and has a membership row for
    the group, and the name listed with an id is that user's. *)
Theorem group_members_listing (db : Database) (group_id : Z)
    (result : list MemberRow) :
  users_consistent db → NoDup (member_pairs db) →
  get_group_members db group_id result →
  NoDup (mr_id <$> result)
  ∧ (∀ user_id, user_id ∈ mr_id <$> result ↔
       (group_id, user_id) ∈ member_pairs db
       ∧ user_id ∈ u_id <$> rows (users db))
  ∧ (∀ r, r ∈ result →
       ∃ u, u ∈ rows (users db) ∧ u_id u = mr_id r
            ∧ u_username u = mr_username r).
Proof.
  intros Hu Hpairs Hresult. unfold get_group_members, in_any_order in Hresult.
  split; [|split].
  - rewrite Hresult, group_members_selection_ids by done.
    by apply NoDup_filter, members_of_group_NoDup.
  - intros user_id. rewrite Hresult, group_members_selection_ids by done.
    unfold member_pairs. split.
    + intros [Hin (gm & -> & [Hg Hgm]%list_elem_of_filter)%list_elem_of_fmap]%list_elem_of_filter.
      split; [|done]. rewrite <- Hg.
      by apply (list_elem_of_fmap_2 (λ gm, (gm_group_id gm, gm_user_id gm))).
    + intros [(gm & [= -> ->] & Hgm)%list_elem_of_fmap Hin].
      apply list_elem_of_filter. split; [done|].
      apply list_elem_of_fmap_2. by apply list_elem_of_filter.
  - intros r Hr. rewrite Hresult in Hr. unfold group_members_selection in Hr.
    apply list_elem_of_bind in Hr as (gm & Hr & _).
    apply list_elem_of_bind in Hr as (u & Hr & [_ Hin]%list_elem_of_filter).
    apply list_elem_of_singleton in Hr as ->. by exists u.
Qed.

End group_listing.

(** ** The relay: what every reachable database satisfies *)

Section invariant_facts.
Import Relay.
Local Open Scope py_scope.
Local Open Scope Z_scope.
Context {P : Primitives} {B : Builtins} {engine : Sqlite}.

Lemma relay_invariant_empty : relay_invariant empty_database.
Proof. repeat split; try constructor; done. Qed.

Lemma relay_invariant_consistent db :
  relay_invariant db →
  db_consistent db ∧ tokens_consistent db ∧ users_consistent db
  ∧ NoDup (edge_pairs (friends db)).
Proof.
  intros ((Hid & Hname & Hseq & Hb) & (Htok & Hown) & (Hg & Hgb & Hgm & Hgmb) & Hm & Hf).
  repeat split; try done.
  apply Forall_forall. intros t Ht Hz.
  eapply Forall_forall in Hown; [|exact Ht].
  apply list_elem_of_fmap in Hown as (u & Hu & Hin).
  eapply Forall_forall in Hb; [|exact Hin]. lia.
Qed.

Lemma set_same_table (db : Database) :
  set_users (users db) db = db ∧ set_auth_tokens (auth_tokens db) db = db
  ∧ set_friends (friends db) db = db ∧ set_messages (messages db) db = db
  ∧ set_groups (groups db) db = db
  ∧ set_group_members (group_members db) db = db.
Proof. by destruct db. Qed.

Ltac invariant_split :=
  repeat split; unfold member_pairs in *;
  cbn [users auth_tokens friends groups group_members messages
       set_users set_auth_tokens set_friends set_groups set_group_members
       set_messages rows seq] in *;
  try (done || tauto).

Lemma invariant_set_friends db t :
  relay_invariant db → NoDup (edge_pairs t) → relay_invariant (set_friends t db).
Proof. intros (Hu & Ht & Hg & Hm & _) Hf. by invariant_split. Qed.

Lemma invariant_set_messages db t :
  relay_invariant db →
  Forall (λ m, m_sender_id m ∈ u_id <$> rows (users db)) (rows t) →
  relay_invariant (set_messages t db).
Proof. intros (Hu & Ht & Hg & _ & Hf) Hm. by invariant_split. Qed.

Lemma invariant_set_auth_tokens db t :
  relay_invariant db →
  NoDup (t_token <$> rows t) →
  Forall (λ t, t_user_id t ∈ u_id <$> rows (users db)) (rows t) →
  relay_invariant (set_auth_tokens t db).
Proof. intros (Hu & _ & Hg & Hm & Hf) Hnd Hown. by invariant_split. Qed.

Lemma invariant_set_group_members db t :
  relay_invariant db →
  NoDup ((λ gm, (gm_group_id gm, gm_user_id gm)) <$> rows t) →
  Forall (λ gm, gm_group_id gm ≤ seq (groups db)) (rows t) →
  relay_invariant (set_group_members t db).
Proof.
  intros (Hu & Ht & (Hg & Hgb & _ & _) & Hm & Hf) Hnd Hb.
  by invariant_split.
Qed.

Lemma invariant_create_auth_token now user_id token expires_in db :
  relay_invariant db → user_id ∈ u_id <$> rows (users db) →
  relay_invariant (state_after (create_auth_token now user_id token expires_in db)).
Proof.
  intros Hinv Huid. unfold create_auth_token. rewrite bind_run. cbn [get].
  destruct (existsb _ _) eqn:Hex; [done|].
  cbn [insert_row]. rewrite bind_modify. unfold state_after, ret. cbn [snd].
  pose proof Hinv as (_ & (Hnd & Hown) & _).
  apply invariant_set_auth_tokens; [done|..]; cbn [rows].
  - rewrite fmap_app. apply NoDup_app. split; [done|].
    split; [|apply NoDup_singleton].
    intros tok (t & -> & Hin)%list_elem_of_fmap Hone.
    apply list_elem_of_singleton in Hone. cbn in Hone.
    pose proof (existsb_false_forall _ _ Hex t Hin) as Hne.
    by apply bool_decide_eq_false in Hne.
  - apply Forall_app. split; [done|]. by apply Forall_singleton.
Qed.

Lemma invariant_create_user now username email password_hash public_key db :
  relay_invariant db →
  let run := create_user now username email password_hash public_key db in
  relay_invariant (state_after run)
  ∧ ∀ id, outcome run = Ok id → id ≠ 0 →
      id ∈ u_id <$> rows (users (state_after run)).
Proof.
  intros Hinv run. subst run. unfold create_user. rewrite bind_run. cbn [get].
  destruct (existsb _ _) eqn:Hex.
  { split; [done|]. by intros id [= <-]. }
  cbn [insert_row]. rewrite bind_modify. unfold state_after, outcome, ret.
  cbn [fst snd].
  destruct Hinv as ((Hid & Hname & Hseq & Hb) & (Htok & Hown) & Hg & Hm & Hf).
  split.
  - assert (Hsub : ∀ x, x ∈ u_id <$> rows (users db) →
              x ∈ u_id <$> (rows (users db) ++
                [{| u_id := seq (users db) + 1; u_username := username;
                    u_email := email; u_password_hash := password_hash;
                    u_public_key := public_key; u_created_at := now;
                    u_last_login := None |}])).
    { intros x Hx. rewrite fmap_app. apply elem_of_app. by left. }
    invariant_split.
    + rewrite fmap_app. apply NoDup_app. split; [done|].
      split; [|apply NoDup_singleton].
      intros id (u & -> & Hin)%list_elem_of_fmap Hone.
      apply list_elem_of_singleton in Hone. cbn in Hone.
      eapply Forall_forall in Hb; [|exact Hin]. lia.
    + rewrite fmap_app. apply NoDup_app. split; [done|].
      split; [|apply NoDup_singleton].
      intros name (u & -> & Hin)%list_elem_of_fmap Hone.
      apply list_elem_of_singleton in Hone. cbn in Hone.
      pose proof (existsb_false_forall _ _ Hex u Hin) as Hc.
      unfold user_conflicts in Hc. apply orb_false_iff in Hc as [Hc _].
      by apply bool_decide_eq_false in Hc.
    + lia.
    + apply Forall_app. split.
      * eapply Forall_impl; [exact Hb|]. cbn. intros; lia.
      * apply Forall_singleton. cbn. lia.
    + eapply Forall_impl; [exact Hown|]. intros t. apply Hsub.
    + eapply Forall_impl; [exact Hm|]. intros m. apply Hsub.
  - intros id [= <-] _. cbn [users set_users rows].
    rewrite fmap_app. apply elem_of_app. right. by left.
Qed.

Lemma invariant_register now salt token user db :
  relay_invariant db →
  relay_invariant (state_after (register now salt token user db)).
Proof.
  intros Hinv. unfold register. rewrite bind_run.
  destruct (invariant_create_user now (rq_username user) (rq_email user)
              (hash_password salt (rq_password user)) (rq_public_key user) db Hinv)
    as [Hinv1 Hid].
  unfold state_after, outcome in *.
  destruct (create_user _ _ _ _ _ db) as [[id|e] db1]; [|done].
  cbn [fst snd] in *.
  destruct (bool_decide (id = 0)) eqn:Hz; [done|].
  apply bool_decide_eq_false in Hz. rewrite bind_run.
  pose proof (invariant_create_auth_token now id token 604800 db1 Hinv1
                (Hid id eq_refl Hz)) as Hinv2.
  unfold state_after in Hinv2.
  by destruct (create_auth_token _ _ _ _ db1) as [[ok|e] db2].
Qed.

Lemma fmap_update_rows {R K} (key : R → K) (cond : R → bool) (f : R → R)
    (t : Table R) :
  (∀ r, key (f r) = key r) →
  key <$> rows (update_rows cond f t) = key <$> rows t.
Proof.
  intros Hkey. cbn. rewrite <- list_fmap_compose.
  apply list_fmap_ext. intros i r _. cbn. destruct (cond r); [apply Hkey|done].
Qed.

Lemma Forall_update_rows {R} (Q : R → Prop) (cond : R → bool) (f : R → R)
    (t : Table R) :
  (∀ r, Q r → Q (f r)) → Forall Q (rows t) →
  Forall Q (rows (update_rows cond f t)).
Proof.
  intros Hf Hall. cbn. apply Forall_fmap. eapply Forall_impl; [exact Hall|].
  intros r Hr. cbn. destruct (cond r); [by apply Hf|done].
Qed.

Lemma invariant_update_last_login now user_id db :
  relay_invariant db →
  relay_invariant (state_after (update_last_login now user_id db))
  ∧ u_id <$> rows (users (state_after (update_last_login now user_id db)))
    = u_id <$> rows (users db).
Proof.
  intros ((Hid & Hname & Hseq & Hb) & (Htok & Hown) & Hg & Hm & Hf).
  unfold update_last_login, modify, state_after. cbn [snd].
  split; [|by apply fmap_update_rows].
  repeat split; unfold member_pairs;
    cbn [users set_users auth_tokens messages friends groups group_members];
    rewrite ?fmap_update_rows by done; try (done || tauto).
  by apply Forall_update_rows.
Qed.

Lemma invariant_login clock token user db :
  relay_invariant db →
  relay_invariant (state_after (login clock token user db)).
Proof.
  intros Hinv. unfold login. rewrite bind_run.
  unfold get_user_by_username, gets.
  destruct (head _) as [u|] eqn:Hh; [|done].
  destruct (verify_password _ _); [|done].
  apply head_Some_elem_of, list_elem_of_filter in Hh as [_ Hin].
  rewrite bind_run.
  destruct (invariant_update_last_login (clock 0%nat) (u_id u) db Hinv)
    as [Hinv1 Hids].
  unfold state_after in *.
  destruct (update_last_login _ _ db) as [[[]|e] db1] eqn:Hup; [|done].
  cbn [snd] in *. rewrite bind_run.
  pose proof (invariant_create_auth_token (clock 1%nat) (u_id u) token 604800 db1
                Hinv1) as Hinv2.
  unfold state_after in Hinv2.
  destruct (create_auth_token _ _ _ _ db1) as [[ok|e] db2]; apply Hinv2;
    rewrite Hids; by apply (list_elem_of_fmap_2 u_id).
Qed.

Lemma get_current_user_owner now authorization db user_id db' :
  relay_invariant db →
  get_current_user now authorization db = (Ok user_id, db') →
  db' = db ∧ user_id ∈ u_id <$> rows (users db).
Proof.
  intros (_ & (_ & Hown) & _) Hrun.
  pose proof (get_current_user_reads now authorization db) as Hread.
  rewrite Hrun in Hread. unfold state_after in Hread. cbn in Hread.
  split; [done|]. clear Hread. unfold get_current_user in Hrun.
  destruct authorization as [header|]; [|done].
  destruct (negb _); [done|].
  destruct (split_space header !! 1%nat) as [tok|]; [|done].
  cbn [or_raise] in Hrun. rewrite bind_ret_l, bind_run in Hrun.
  cbn [validate_auth_token gets] in Hrun.
  destruct (head _) as [t|] eqn:Hh; [|done]. cbn [fmap option_fmap option_map] in Hrun.
  destruct (bool_decide (t_user_id t = 0)); [done|].
  injection Hrun as <- _.
  apply head_Some_elem_of, list_elem_of_filter in Hh as [_ Hin].
  by eapply Forall_forall in Hown.
Qed.

Lemma invariant_logout clock authorization db :
  relay_invariant db →
  relay_invariant (state_after (logout clock authorization db)).
Proof.
  intros Hinv. unfold logout. rewrite bind_run.
  destruct (get_current_user _ _ db) as [[uid|e] db0] eqn:Hcur.
  2:{ pose proof (get_current_user_reads (clock 0%nat) authorization db) as Hr.
      rewrite Hcur in Hr. by subst. }
  apply (get_current_user_owner _ _ _ _ _ Hinv) in Hcur as [-> _].
  destruct authorization as [header|]; [|done].
  destruct (split_space header !! 1%nat) as [tok|]; [|done].
  cbn [or_raise]. rewrite bind_ret_l, bind_run.
  unfold delete_auth_token. rewrite bind_run. cbn [get]. rewrite bind_modify.
  unfold state_after, ret. cbn [snd].
  pose proof Hinv as (_ & (Hnd & Hown) & _).
  apply invariant_set_auth_tokens; [done|..]; cbn [rows delete_rows].
  - eapply sublist_NoDup; [exact Hnd|]. apply fmap_sublist, sublist_filter.
  - apply Forall_forall. intros t [_ Ht]%list_elem_of_filter.
    by eapply Forall_forall in Hown.
Qed.

Lemma add_friend_request_frame fetchone now user_id friend_username db :
  let db' := state_after (add_friend_request fetchone now user_id friend_username db) in
  db' = set_friends (friends db') db.
Proof.
  cbv zeta. unfold add_friend_request. rewrite bind_run.
  cbn [get_user_by_username gets].
  destruct (head _) as [friend|]; [|by destruct db].
  destruct (bool_decide (user_id = u_id friend)); [by destruct db|].
  rewrite bind_run. cbn [get].
  destruct (fetchone _) as [e|].
  - destruct (f_status e); try by destruct db.
  - destruct (existsb _ _); [by destruct db|]. done.
Qed.

Lemma respond_to_friend_request_frame now request_id user_id accept db :
  let db' := state_after (respond_to_friend_request now request_id user_id accept db) in
  db' = set_friends (friends db') db.
Proof.
  cbv zeta. unfold respond_to_friend_request. rewrite bind_run. cbn [get].
  destruct (head _) as [request|]; [|by destruct db].
  cbv zeta. rewrite bind_modify.
  destruct accept; [|done]. rewrite bind_run.
  by destruct (existsb _ _).
Qed.

Lemma invariant_add_friend fetchone clock authorization username db :
  relay_invariant db →
  relay_invariant (state_after (add_friend fetchone clock authorization username db)).
Proof.
  intros Hinv. unfold add_friend. rewrite bind_run.
  destruct (get_current_user _ _ db) as [[uid|e] db0] eqn:Hcur.
  2:{ pose proof (get_current_user_reads (clock 0%nat) authorization db) as Hr.
      rewrite Hcur in Hr. by subst. }
  apply (get_current_user_owner _ _ _ _ _ Hinv) in Hcur as [-> _].
  rewrite bind_run.
  pose proof (add_friend_request_frame fetchone (clock 1%nat) uid username db) as Hfr.
  pose proof Hinv as (_ & _ & _ & _ & Hf).
  pose proof (proj1 (friend_edges_stay_unique db Hf) fetchone (clock 1%nat) uid username)
    as Hnd.
  cbv zeta in Hfr. unfold state_after in *.
  destruct (add_friend_request _ _ _ _ db) as [[result|e] db1]; cbn [snd] in *.
  - rewrite Hfr. destruct (success result); by apply invariant_set_friends.
  - rewrite Hfr. by apply invariant_set_friends.
Qed.

Lemma invariant_respond clock authorization request_id accept db :
  relay_invariant db →
  relay_invariant (state_after (respond clock authorization request_id accept db)).
Proof.
  intros Hinv. unfold respond. rewrite bind_run.
  destruct (get_current_user _ _ db) as [[uid|e] db0] eqn:Hcur.
  2:{ pose proof (get_current_user_reads (clock 0%nat) authorization db) as Hr.
      rewrite Hcur in Hr. by subst. }
  apply (get_current_user_owner _ _ _ _ _ Hinv) in Hcur as [-> _].
  rewrite bind_run.
  pose proof (respond_to_friend_request_frame (clock 1%nat) request_id uid accept db)
    as Hfr.
  pose proof Hinv as (_ & _ & _ & _ & Hf).
  pose proof (proj2 (friend_edges_stay_unique db Hf) (clock 1%nat) request_id uid accept)
    as Hnd.
  cbv zeta in Hfr. unfold state_after in *.
  destruct (respond_to_friend_request _ _ _ _ db) as [[result|e] db1]; cbn [snd] in *.
  - rewrite Hfr. destruct (success result); by apply invariant_set_friends.
  - rewrite Hfr. by apply invariant_set_friends.
Qed.

Lemma invariant_send_message clock authorization message db :
  relay_invariant db →
  relay_invariant (state_after (send_message clock authorization message db)).
Proof.
  intros Hinv. unfold send_message. rewrite bind_run.
  destruct (get_current_user _ _ db) as [[uid|e] db0] eqn:Hcur.
  2:{ pose proof (get_current_user_reads (clock 0%nat) authorization db) as Hr.
      rewrite Hcur in Hr. by subst. }
  apply (get_current_user_owner _ _ _ _ _ Hinv) in Hcur as [-> Hown].
  destruct (int_of_str _) as [recipient_id|]; [|done].
  rewrite bind_run, get_user_by_id_run.
  destruct (int64 recipient_id); [|done].
  destruct (_ && _); [done|].
  rewrite relay_save_message_run. unfold state_after. cbn [snd].
  apply invariant_set_messages; [done|]. cbn [rows].
  apply Forall_app. split; [apply Hinv|]. by apply Forall_singleton.
Qed.

Lemma invariant_mark_delivered ids db :
  relay_invariant db → relay_invariant (mark_delivered ids db).
Proof.
  intros Hinv. unfold mark_delivered. apply invariant_set_messages; [done|].
  apply Forall_update_rows; [done|apply Hinv].
Qed.

Lemma invariant_receive_messages clock authorization since db :
  relay_invariant db →
  relay_invariant (state_after (receive_messages clock authorization since db)).
Proof.
  intros Hinv. unfold receive_messages. rewrite bind_run.
  pose proof (get_current_user_reads (clock 0%nat) authorization db) as Hr.
  destruct (get_current_user _ _ db) as [[uid|e] db0]; cbn in Hr; subst db0;
    [|done].
  destruct (get_messages_state db uid since) as [->|[ids ->]]; [done|].
  by apply invariant_mark_delivered.
Qed.

Lemma invariant_receive_group_messages clock authorization since db :
  relay_invariant db →
  relay_invariant
    (state_after (receive_group_messages clock authorization since db)).
Proof.
  intros Hinv. unfold receive_group_messages. rewrite bind_run.
  pose proof (get_current_user_reads (clock 0%nat) authorization db) as Hr.
  destruct (get_current_user _ _ db) as [[uid|e] db0]; cbn in Hr; subst db0;
    [|done].
  by rewrite get_group_messages_state.
Qed.

Lemma invariant_with_member now group_id user_id db :
  relay_invariant db → (group_id, user_id) ∉ member_pairs db →
  group_id ≤ seq (groups db) →
  relay_invariant (with_member now group_id user_id db).
Proof.
  intros Hinv Hnew Hb. pose proof Hinv as (_ & _ & (_ & _ & Hnd & Hgmb) & _).
  apply invariant_set_group_members; [done|..]; cbn [rows].
  - rewrite fmap_app. apply NoDup_app. split; [done|].
    split; [|apply NoDup_singleton].
    intros p Hp Hone. by apply list_elem_of_singleton in Hone as ->.
  - apply Forall_app. split; [done|]. by apply Forall_singleton.
Qed.

Lemma invariant_add_group_member_route clock authorization group_id username db :
  relay_invariant db →
  relay_invariant
    (state_after (add_group_member_route clock authorization group_id username db)).
Proof.
  intros Hinv. unfold add_group_member_route. rewrite bind_run.
  destruct (get_current_user _ _ db) as [[uid|e] db0] eqn:Hcur.
  2:{ pose proof (get_current_user_reads (clock 0%nat) authorization db) as Hr.
      rewrite Hcur in Hr. by subst. }
  apply (get_current_user_owner _ _ _ _ _ Hinv) in Hcur as [-> _].
  rewrite bind_run. cbn [get].
  destruct (bool_decide _) eqn:Hguard; [done|].
  apply bool_decide_eq_false in Hguard.
  assert (Hb : group_id ≤ seq (groups db)).
  { destruct (filter _ _) as [|gm l] eqn:Hf; [done|].
    assert (gm ∈ filter (λ gm, gm_group_id gm = group_id ∧ gm_user_id gm = uid)
                        (rows (group_members db))) as Hgm
      by (rewrite Hf; apply list_elem_of_here).
    apply list_elem_of_filter in Hgm as [[<- _] Hgm].
    destruct Hinv as (_ & _ & (_ & _ & _ & Hgmb) & _).
    by eapply Forall_forall in Hgmb. }
  rewrite bind_run. cbn [get_user_by_username gets].
  destruct (head _) as [u|]; [|done].
  rewrite bind_run, add_group_member_run.
  destruct (decide _) as [|Hnew]; [done|].
  unfold state_after, ret. cbn [snd]. by apply invariant_with_member.
Qed.

Lemma invariant_create_group_route clock authorization group db :
  relay_invariant db →
  relay_invariant (state_after (create_group_route clock authorization group db)).
Proof.
  intros Hinv. unfold create_group_route. rewrite bind_run.
  destruct (get_current_user _ _ db) as [[uid|e] db0] eqn:Hcur.
  2:{ pose proof (get_current_user_reads (clock 0%nat) authorization db) as Hr.
      rewrite Hcur in Hr. by subst. }
  apply (get_current_user_owner _ _ _ _ _ Hinv) in Hcur as [-> _].
  rewrite bind_run, create_group_run.
  pose proof Hinv as (Hu & Ht & (Hg & Hgb & Hnd & Hgmb) & Hm & Hf).
  set (group_id := seq (groups db) + 1).
  assert (Hfree : ∀ user_id, (group_id, user_id) ∉ member_pairs db).
  { intros user_id (gm & [= Hgid _] & Hin)%list_elem_of_fmap.
    eapply Forall_forall in Hgmb; [|exact Hin]. unfold group_id in Hgid. lia. }
  rewrite decide_False by apply Hfree.
  set (db1 := with_group _ _ _ db).
  assert (Hinv1 : relay_invariant db1).
  { unfold db1, with_group. invariant_split.
    - rewrite fmap_app. apply NoDup_app. split; [done|].
      split; [|apply NoDup_singleton].
      intros id (g & -> & Hin)%list_elem_of_fmap Hone.
      apply list_elem_of_singleton in Hone. cbn in Hone.
      eapply Forall_forall in Hgb; [|exact Hin]. lia.
    - apply Forall_app. split.
      + eapply Forall_impl; [exact Hgb|]. cbn. intros; lia.
      + apply Forall_singleton. cbn. lia.
    - eapply Forall_impl; [exact Hgmb|]. cbn. intros; lia. }
  set (db2 := with_member _ _ _ db1).
  assert (Hinv2 : relay_invariant db2).
  { apply invariant_with_member; [done|apply Hfree|]. unfold db1. cbn. lia. }
  rewrite bind_run.
  destruct (add_listed_members_run clock 2 group_id (gc_members group) db2)
    as (db' & -> & Hframe & Husers & Hgroups & Hp & Hnd').
  { apply (relay_invariant_consistent db2 Hinv2). }
  unfold state_after, ret. cbn [snd]. rewrite Hframe.
  apply invariant_set_group_members; [done|..].
  - apply Hnd'. apply Hinv2.
  - apply Forall_forall. intros gm Hgm.
    assert ((gm_group_id gm, gm_user_id gm) ∈ member_pairs db') as Hpair
      by (by apply (list_elem_of_fmap_2 (λ gm, (gm_group_id gm, gm_user_id gm)))).
    apply Hp in Hpair as [Hold|(u & _ & _ & [= -> _])].
    + apply list_elem_of_fmap in Hold as (gm' & [= -> _] & Hin').
      destruct Hinv2 as (_ & _ & (_ & _ & _ & Hb2) & _).
      by eapply Forall_forall in Hb2.
    + unfold db2, db1. cbn. unfold group_id. lia.
Qed.

(** X13.  Every database that the relay reaches from the empty one by serving
    requests (registration, login, logout, friend requests and answers,
    sending, receiving, making groups, adding members), whether a request
    returns or raises, is consistent: user ids, usernames, group ids,
    tokens, membership pairs and friendship pairs are unique, a token
    belongs to a user, and the sender of a stored message is a user. *)
Theorem reachable_databases_are_consistent (db : Database) :
  reachable db →
  db_consistent db ∧ tokens_consistent db ∧ users_consistent db
  ∧ NoDup (edge_pairs (friends db)).
Proof.
  intros Hreach. apply relay_invariant_consistent.
  induction Hreach as [|req db db' _ IH Hserves]; [apply relay_invariant_empty|].
  destruct req; cbn [serves] in Hserves.
  - subst. by apply invariant_register.
  - subst. by apply invariant_login.
  - subst. by apply invariant_logout.
  - subst. by apply invariant_add_friend.
  - subst. by apply invariant_respond.
  - subst. by apply invariant_send_message.
  - subst. by apply invariant_receive_messages.
  - subst. by apply invariant_receive_group_messages.
  - subst. by apply invariant_create_group_route.
  - subst. by apply invariant_add_group_member_route.
Qed.

End invariant_facts.

(** ** The client: key files *)

Lemma append_cons c s t : String c s +:+ t = String c (s +:+ t).
Proof. reflexivity. Qed.

Lemma append_nil_l t : "" +:+ t = t.
Proof. reflexivity. Qed.

Lemma length_append s t :
  String.length (s +:+ t) = String.length s + String.length t.
Proof.
  induction s as [|c s IH]; [done|].
  rewrite append_cons. cbn. by rewrite IH.
Qed.

Lemma append_inj_l s1 s2 t : s1 +:+ t = s2 +:+ t → s1 = s2.
Proof.
  revert s2. induction s1 as [|c s1 IH]; intros [|c' s2] Heq; [done|..].
  - apply (f_equal String.length) in Heq.
    rewrite append_nil_l, append_cons in Heq. cbn in Heq.
    rewrite length_append in Heq. lia.
  - apply (f_equal String.length) in Heq.
    rewrite append_nil_l, append_cons in Heq. cbn in Heq.
    rewrite length_append in Heq. lia.
  - rewrite !append_cons in Heq. injection Heq as -> Heq. f_equal. by apply IH.
Qed.

(** The three key files have plain names: they open. *)
Ltac open_key_files :=
  unfold Client.write_file_bytes, Client.open_for_writing;
  change (Client.open_error "UserData/Keys" "symmetric.key") with (@None Exn);
  change (Client.open_error "UserData/Keys" "private.pem") with (@None Exn);
  change (Client.open_error "UserData/Keys" "public.pem") with (@None Exn);
  change (Client.file_in "UserData/Keys" "symmetric.key")
    with Client.symmetric_key_path;
  change (Client.file_in "UserData/Keys" "private.pem")
    with Client.private_key_path;
  change (Client.file_in "UserData/Keys" "public.pem")
    with Client.public_key_path.

Section key_facts.
Import Client.
Local Open Scope py_scope.
Context {P : Primitives} {F : FileSystem} {B : Builtins} {K : KeyFormats P}.

Lemma friend_key_path_inj n1 n2 : friend_key_path n1 = friend_key_path n2 → n1 = n2.
Proof.
  unfold friend_key_path. intros Heq.
  apply (String.app_inj "UserData/Keys/friends/") in Heq.
  by apply append_inj_l in Heq.
Qed.


Lemma load_keys_from_disk (em : EncryptionManager) (w : Messenger) :
  keys_on_disk em (fs (env w)) →
  load_or_generate_keys w
  = (Ok tt,
     with_em (λ em0, set_public_key (public_key em)
                       (set_private_key (private_key em)
                          (set_symmetric_key (symmetric_key em) em0))) w).
Proof.
  intros (Hsym & (d1 & Hpriv & Hsk) & (d2 & Hpub & Hpk)).
  unfold load_or_generate_keys, load_or_generate_symmetric_key,
    load_or_generate_key_pair, try_except, bind, read_file, modify.
  rewrite Hsym. cbn. rewrite Hpriv. cbn. rewrite Hsk. cbn.
  rewrite Hpub. cbn. rewrite Hpk. cbn. done.
Qed.

Lemma keys_on_disk_after_load {KL : KeyFormatsLaws P K} (w : Messenger) :
  outcome (load_or_generate_keys w) = Ok tt →
  keys_on_disk (encryption_manager (state_after (load_or_generate_keys w)))
               (fs (env (state_after (load_or_generate_keys w)))).
Proof.
  unfold load_or_generate_keys, load_or_generate_symmetric_key,
    load_or_generate_key_pair.
  open_key_files.
  unfold try_except, bind, read_file, modify, ret,
    os_urandom, outcome, state_after, keys_on_disk.
  destruct (fs (env w) !! symmetric_key_path) as [k|] eqn:Hsym; cbn;
    rewrite ?lookup_insert_ne by done;
    (destruct (fs (env w) !! private_key_path) as [d1|] eqn:Hpriv; cbn;
     [destruct (load_pem_private_key d1) as [sk|] eqn:Hsk; cbn; [|done];
      rewrite ?lookup_insert_ne by done;
      destruct (fs (env w) !! public_key_path) as [d2|] eqn:Hpub; cbn;
      [destruct (load_pem_public_key d2) as [pk|] eqn:Hpk; cbn; [|done]|]|]);
    intros _;
    repeat (first [rewrite lookup_insert_eq | rewrite lookup_insert_ne by done]);
    rewrite ?Hsym, ?Hpriv, ?Hpub;
    (split; [done|]); split; eexists; (split; [done|]);
    first [done | apply load_pem_private_key_bytes | apply load_pem_public_key_bytes].
Qed.

(** X15.  The keys survive a restart: a client that starts from the files that
    [load_or_generate_keys] left loads the same symmetric key, private key
    and public key, draws no entropy and writes no file. *)
Theorem keys_survive_restart {KL : KeyFormatsLaws P K} (w w2 : Messenger) :
  let w1 := state_after (load_or_generate_keys w) in
  outcome (load_or_generate_keys w) = Ok tt →
  fs (env w2) = fs (env w1) →
  let run := load_or_generate_keys w2 in
  outcome run = Ok tt
  ∧ symmetric_key (encryption_manager (state_after run))
    = symmetric_key (encryption_manager w1)
  ∧ private_key (encryption_manager (state_after run))
    = private_key (encryption_manager w1)
  ∧ public_key (encryption_manager (state_after run))
    = public_key (encryption_manager w1)
  ∧ env (state_after run) = env w2.
Proof.
  intros w1 Hok Hfs run. subst run.
  pose proof (keys_on_disk_after_load w Hok) as Hdisk. fold w1 in Hdisk.
  rewrite <- Hfs in Hdisk.
  rewrite (load_keys_from_disk _ w2 Hdisk). done.
Qed.

End key_facts.

(** ** The client: friends and groups on disk *)


Section relations_facts.
Import Client.
Local Open Scope py_scope.
Context {P : Primitives} {F : FileSystem} {B : Builtins} {K : KeyFormats P}.
Context {HL : PrimitivesLaws P} {JL : JsonFileLaws P}.

Lemma foldl_dict_set_fresh (tag : string) (names : list string) (d : dict json) :
  NoDup names →
  (∀ n, n ∈ names → tag +:+ n ∉ dict_keys d) →
  foldl (λ data n, dict_set (tag +:+ n) (JDict []) data) d names
  = d ++ ((λ n, (tag +:+ n, JDict [])) <$> names).
Proof.
  revert d. induction names as [|n names IH]; intros d Hnd Hfresh.
  - by rewrite app_nil_r.
  - apply NoDup_cons in Hnd as [Hn Hnd]. cbn [foldl fmap list_fmap].
    rewrite dict_set_fresh by (apply Hfresh; left).
    rewrite IH; [by rewrite <- app_assoc|done|].
    intros m Hm. unfold dict_keys. rewrite fmap_app. cbn.
    intros [Hin|Hin]%elem_of_app.
    + apply (Hfresh m); [by right|done].
    + apply list_elem_of_singleton in Hin.
      apply String.app_inj in Hin. by subst.
Qed.

Lemma relations_data_keys fr gr :
  NoDup fr → NoDup gr →
  relations_data fr gr
  = (λ k, (k, JDict [])) <$> relation_keys fr gr.
Proof.
  intros Hf Hg. unfold relations_data, relation_keys.
  rewrite (foldl_dict_set_fresh "f_" fr []) by (done || (intros; apply not_elem_of_nil)).
  rewrite (foldl_dict_set_fresh "g_" gr) by
    (done || (intros n _ (kv & Hk & (m & -> & _)%list_elem_of_fmap)%list_elem_of_fmap;
              done)).
  rewrite fmap_app, <- !list_fmap_compose. done.
Qed.

Lemma dict_keys_pairs {V} (v : V) (l : list string) :
  dict_keys ((λ k, (k, v)) <$> l) = l.
Proof.
  unfold dict_keys. rewrite <- list_fmap_compose.
  induction l as [|k l IH]; cbn; [done|]. by rewrite IH.
Qed.

Lemma relation_keys_NoDup fr gr :
  NoDup fr → NoDup gr → NoDup (relation_keys fr gr).
Proof.
  intros Hf Hg. unfold relation_keys. apply NoDup_app. split; [|split].
  - apply NoDup_fmap_2; [apply String.app_inj|done].
  - intros k (f & -> & _)%list_elem_of_fmap (g & Heq & _)%list_elem_of_fmap. done.
  - apply NoDup_fmap_2; [apply String.app_inj|done].
Qed.

Lemma relations_json_wf fr gr :
  NoDup fr → NoDup gr → json_wf (JDict (relations_data fr gr)).
Proof.
  intros Hf Hg. rewrite relations_data_keys by done. cbn. split.
  - fold (dict_keys ((λ k, (k, JDict [])) <$> relation_keys fr gr)).
    rewrite dict_keys_pairs. by apply relation_keys_NoDup.
  - induction (relation_keys fr gr) as [|k l IH]; cbn; [done|]. split; [|done].
    split; [apply NoDup_nil_2|done].
Qed.

Lemma prefix_append s t : String.prefix s (s +:+ t) = true.
Proof.
  induction s as [|c s IH]; [by destruct t|].
  rewrite append_cons. cbn. by destruct (ascii_dec c c).
Qed.

Lemma load_relation_friend f (w : Messenger) :
  load_relation ("f_" +:+ f) w
  = (Ok tt, with_dm (λ dm, set_friends (friends dm ++ [f]) dm) w).
Proof. unfold load_relation. by rewrite prefix_append. Qed.

Lemma load_relation_group g (w : Messenger) :
  load_relation ("g_" +:+ g) w
  = (Ok tt, with_dm (λ dm, set_groups (groups dm ++ [g]) dm) w).
Proof.
  unfold load_relation. rewrite prefix_append.
  by change (String.prefix "f_" ("g_" +:+ g)) with false.
Qed.

Lemma load_relation_friends fr (w : Messenger) :
  for_each (String.append "f_" <$> fr) load_relation w
  = (Ok tt, with_dm (λ dm, set_friends (friends dm ++ fr) dm) w).
Proof.
  revert w. induction fr as [|f fr IH]; intros w.
  - cbn. f_equal. destruct w as [? [] ? ? ? ?].
    unfold with_dm, set_friends. cbn. by rewrite app_nil_r.
  - cbn [fmap list_fmap for_each]. rewrite bind_run.
    rewrite load_relation_friend, IH. f_equal. destruct w as [? [] ? ? ? ?].
    unfold with_dm, set_friends. cbn. by rewrite <- app_assoc.
Qed.

Lemma load_relation_groups gr (w : Messenger) :
  for_each (String.append "g_" <$> gr) load_relation w
  = (Ok tt, with_dm (λ dm, set_groups (groups dm ++ gr) dm) w).
Proof.
  revert w. induction gr as [|g gr IH]; intros w.
  - cbn. f_equal. destruct w as [? [] ? ? ? ?].
    unfold with_dm, set_groups. cbn. by rewrite app_nil_r.
  - cbn [fmap list_fmap for_each]. rewrite bind_run.
    rewrite load_relation_group, IH. f_equal. destruct w as [? [] ? ? ? ?].
    unfold with_dm, set_groups. cbn. by rewrite <- app_assoc.
Qed.

Lemma for_each_app {S A} (l1 l2 : list A) (body : A → Py S unit) (s : S) :
  for_each (l1 ++ l2) body s
  = match for_each l1 body s with
    | (Ok _, s') => for_each l2 body s'
    | r => r
    end.
Proof.
  revert s. induction l1 as [|x l1 IH]; intros s; [done|].
  cbn [app for_each]. rewrite !bind_run.
  destruct (body x s) as [[[]|e] s1]; [apply IH|done].
Qed.

(** X17.  [load_relations] reads back what [save_relations] wrote: lists of
    friends and groups without repeats come back as they were, in order. *)
Theorem relations_survive_restart (w w2 : Messenger) :
  NoDup (friends (data_manager w)) → NoDup (groups (data_manager w)) →
  let w1 := state_after (save_relations w) in
  fs (env w2) !! relations_path = fs (env w1) !! relations_path →
  let run := load_relations w2 in
  outcome run = Ok tt
  ∧ friends (data_manager (state_after run)) = friends (data_manager w)
  ∧ groups (data_manager (state_after run)) = groups (data_manager w).
Proof.
  intros Hf Hg w1 Hfs run. subst run.
  assert (Hfile : fs (env w2) !! relations_path
            = Some (utf8_encode (json_dumps_indent
                (JDict (relations_data (friends (data_manager w))
                                       (groups (data_manager w))))))).
  { rewrite Hfs. unfold w1, save_relations, state_after. cbn.
    apply lookup_insert_eq. }
  unfold load_relations, try_except, read_text. rewrite !bind_run.
  unfold read_file. rewrite Hfile. rewrite utf8_decode_encode. cbn [or_raise ret].
  rewrite json_loads_dumps_indent by (by apply relations_json_wf).
  cbn [or_raise ret]. rewrite bind_ret_l, !bind_modify.
  rewrite relations_data_keys by done. rewrite dict_keys_pairs.
  unfold relation_keys.
  rewrite for_each_app, load_relation_friends, load_relation_groups.
  unfold outcome, state_after. cbn. done.
Qed.

(** X18.  [DataManager.add_friend] keeps the list of friends free of repeats:
    it returns whether the name is new, the list then holds the name and
    what it held, a second call returns [False] and changes nothing, and
    a new name is written to [relations.json]. *)
Theorem add_friend_keeps_friends_unique (w : Messenger) (username : string) :
  NoDup (friends (data_manager w)) →
  let run := add_friend username w in
  let w' := state_after run in
  outcome run = Ok (bool_decide (username ∉ friends (data_manager w)))
  ∧ NoDup (friends (data_manager w'))
  ∧ (∀ f, f ∈ friends (data_manager w') ↔
          f = username ∨ f ∈ friends (data_manager w))
  ∧ add_friend username w' = (Ok false, w')
  ∧ (username ∉ friends (data_manager w) →
     fs (env w') !! relations_path
     = Some (utf8_encode (json_dumps_indent
               (JDict (relations_data (friends (data_manager w) ++ [username])
                                      (groups (data_manager w))))))).
Proof.
  intros Hnd run w'. subst run w'. unfold add_friend. rewrite bind_gets.
  destruct (decide (username ∈ friends (data_manager w))) as [Hin|Hnew].
  - rewrite bool_decide_eq_true_2 by done.
    rewrite bool_decide_eq_false_2 by (by intros ?).
    unfold outcome, state_after, ret. cbn [fst snd].
    repeat split; try done.
    + by right.
    + by intros [->|?].
    + rewrite bind_gets. by rewrite bool_decide_eq_true_2.
  - rewrite bool_decide_eq_false_2 by done.
    rewrite bool_decide_eq_true_2 by done.
    rewrite bind_modify. unfold save_relations, outcome, state_after. cbn.
    repeat split; try done.
    + apply NoDup_app. split; [done|]. split; [|apply NoDup_singleton].
      intros f Hf Hone. by apply list_elem_of_singleton in Hone as ->.
    + intros [?|Hone]%elem_of_app; [by right|].
      apply list_elem_of_singleton in Hone. by left.
    + intros [->|?]; apply elem_of_app; [right; by left|by left].
    + rewrite bool_decide_eq_true_2; [done|].
      apply elem_of_app. right. by left.
    + intros _. apply lookup_insert_eq.
Qed.

End relations_facts.

(** ** The client: conversations on disk *)



Section storage_facts.
Import Client.
Local Open Scope py_scope.
Context {P : Primitives} {F : FileSystem} {B : Builtins} {K : KeyFormats P}.

(** X16.  When the private key file holds a key and the public key file is
    missing, [load_or_generate_keys] does not derive the public key: it
    generates a new pair and overwrites the private key file. *)
Theorem missing_public_key_replaces_key_pair (w : Messenger) (data : bytes)
    (sk : privkey) :
  fs (env w) !! private_key_path = Some data →
  load_pem_private_key data = Some sk →
  fs (env w) !! public_key_path = None →
  let run := load_or_generate_keys w in
  let w' := state_after run in
  ∃ n, let new := rsa_generate_private_key (entropy (env w) n) in
    outcome run = Ok tt
    ∧ private_key (encryption_manager w') = new
    ∧ public_key (encryption_manager w') = public_of new
    ∧ fs (env w') !! private_key_path = Some (private_bytes new)
    ∧ fs (env w') !! public_key_path = Some (public_bytes (public_of new)).
Proof.
  intros Hpriv Hsk Hpub run w'. subst run w'.
  unfold load_or_generate_keys, load_or_generate_symmetric_key,
    load_or_generate_key_pair.
  open_key_files.
  unfold try_except, bind, read_file, modify, ret, os_urandom, outcome,
    state_after.
  destruct (fs (env w) !! symmetric_key_path) as [k|] eqn:Hsym; cbn;
    rewrite ?lookup_insert_ne by done; rewrite Hpriv; cbn; rewrite Hsk; cbn;
    rewrite ?lookup_insert_ne by done; rewrite Hpub; cbn;
    eexists; repeat split;
    repeat (first [rewrite lookup_insert_eq | rewrite lookup_insert_ne by done]);
    done.
Qed.

Lemma load_history_run (key : string) (w : Messenger) :
  load_history key w
  = (Ok tt,
     match stored_history (fs (env w)) key with
     | Some messages =>
         with_dm (λ dm,
           set_message_history (dict_set key messages (message_history dm)) dm) w
     | None => w
     end).
Proof.
  unfold load_history, stored_history, try_except, path_exists, read_text,
    read_file, bind, gets, modify.
  destruct (fs (env w) !! history_path key) as [data|] eqn:Hfile; cbn.
  - rewrite ?Hfile. cbn.
    destruct (utf8_decode data) as [text|]; cbn; [|done].
    destruct (json_loads text); cbn; done.
  - done.
Qed.

Lemma load_histories_run (keys : list string) (w : Messenger) :
  ∃ w', for_each keys load_history w = (Ok tt, w')
    ∧ encryption_manager w' = encryption_manager w
    ∧ friends (data_manager w') = friends (data_manager w)
    ∧ groups (data_manager w') = groups (data_manager w)
    ∧ last_sync_time (data_manager w') = last_sync_time (data_manager w)
    ∧ env w' = env w
    ∧ ∀ key, dict_get key (message_history (data_manager w'))
        = if decide (key ∈ keys)
          then match stored_history (fs (env w)) key with
               | Some messages => Some messages
               | None => dict_get key (message_history (data_manager w))
               end
          else dict_get key (message_history (data_manager w)).
Proof.
  revert w. induction keys as [|k keys IH]; intros w.
  - exists w. repeat split; try done.
  - cbn [for_each]. rewrite bind_run, load_history_run.
    set (w1 := match stored_history _ _ with Some _ => _ | None => w end).
    assert (Hsame : encryption_manager w1 = encryption_manager w
              ∧ friends (data_manager w1) = friends (data_manager w)
              ∧ groups (data_manager w1) = groups (data_manager w)
              ∧ last_sync_time (data_manager w1) = last_sync_time (data_manager w)
              ∧ env w1 = env w).
    { unfold w1. by destruct (stored_history _ _). }
    destruct Hsame as (Hem & Hfr & Hgr & Hls & Henv).
    destruct (IH w1) as (w' & -> & Hem' & Hfr' & Hgr' & Hls' & Henv' & Hget).
    exists w'. split; [done|].
    split; [congruence|]. split; [congruence|]. split; [congruence|].
    split; [congruence|]. split; [congruence|].
    intros key. rewrite Hget, Henv.
    assert (Hk : dict_get key (message_history (data_manager w1))
              = if decide (key = k)
                then match stored_history (fs (env w)) key with
                     | Some messages => Some messages
                     | None => dict_get key (message_history (data_manager w))
                     end
                else dict_get key (message_history (data_manager w))).
    { unfold w1. destruct (decide (key = k)) as [->|Hne].
      - destruct (stored_history _ _); [|done]. cbn. apply dict_get_set_eq.
      - destruct (stored_history _ k); [|done]. cbn.
        by apply dict_get_set_ne. }
    destruct (decide (key ∈ keys)) as [Hin|Hout].
    + rewrite decide_True by (by right).
      destruct (stored_history (fs (env w)) key); [done|].
      rewrite Hk. by destruct (decide (key = k)).
    + rewrite Hk. destruct (decide (key = k)) as [->|Hne].
      * by rewrite decide_True by (by left).
      * rewrite decide_False; [done|]. by intros [?|?]%elem_of_cons.
Qed.

Lemma for_each_fmap {S A A'} (f : A → A') (l : list A) (body : A' → Py S unit) :
  for_each (f <$> l) body = for_each l (λ x, body (f x)).
Proof. induction l as [|x l IH]; cbn; [done|]. by rewrite IH. Qed.

Lemma load_message_history_run (w : Messenger) :
  ∃ w', load_message_history w = (Ok tt, w')
    ∧ encryption_manager w' = encryption_manager w
    ∧ friends (data_manager w') = friends (data_manager w)
    ∧ groups (data_manager w') = groups (data_manager w)
    ∧ last_sync_time (data_manager w') = last_sync_time (data_manager w)
    ∧ env w' = env w
    ∧ ∀ key, dict_get key (message_history (data_manager w'))
        = if decide (key ∈ listed_keys (data_manager w))
          then stored_history (fs (env w)) key
          else None.
Proof.
  unfold load_message_history. rewrite bind_modify, bind_gets.
  set (w0 := with_dm (set_message_history []) w).
  rewrite bind_run.
  destruct (load_histories_run (friends (data_manager w0)) w0)
    as (w1 & -> & Hem1 & Hfr1 & Hgr1 & Hls1 & Henv1 & Hget1).
  rewrite bind_gets, <- (for_each_fmap (String.append "group_")).
  destruct (load_histories_run (String.append "group_" <$> groups (data_manager w1)) w1)
    as (w2 & -> & Hem2 & Hfr2 & Hgr2 & Hls2 & Henv2 & Hget2).
  exists w2. split; [done|]. unfold w0 in *. cbn in Hem1, Hfr1, Hgr1, Hls1, Henv1.
  split; [by rewrite Hem2, Hem1|]. split; [by rewrite Hfr2, Hfr1|].
  split; [by rewrite Hgr2, Hgr1|]. split; [by rewrite Hls2, Hls1|].
  split; [by rewrite Henv2, Henv1|].
  intros key. rewrite Hget2, Hget1, Henv1, Hgr1. unfold listed_keys.
  cbn [with_dm set_message_history data_manager friends groups env
       message_history dict_get].
  destruct (decide (key ∈ String.append "group_" <$> groups (data_manager w)))
    as [Hg|Hg], (decide (key ∈ friends (data_manager w))) as [Hf|Hf],
    (stored_history (fs (env w)) key);
    destruct (decide (key ∈ friends (data_manager w)
                      ++ (String.append "group_" <$> groups (data_manager w))))
      as [Hl|Hl]; try done; rewrite elem_of_app in Hl; tauto.
Qed.

End storage_facts.


Section persistence_facts.
Import Client.
Local Open Scope py_scope.
Context {P : Primitives} {F : FileSystem} {B : Builtins} {K : KeyFormats P}.

Lemma save_message_run recipient message is_group (w : Messenger) :
  let key := history_key recipient is_group in
  match history_lines w key with
  | Some l =>
      ∃ w', save_message recipient message is_group w
            = (Ok match open_error "MessageHistory" (history_file key) with
                  | None => true
                  | Some _ => false
                  end, w')
        ∧ dict_get key (message_history (data_manager w'))
          = Some (JList (l ++ [JStr message]))
        ∧ (∀ k, k ≠ key →
             dict_get k (message_history (data_manager w'))
             = dict_get k (message_history (data_manager w)))
        ∧ fs (env w')
          = match open_error "MessageHistory" (history_file key) with
            | None =>
                <[history_path key :=
                    utf8_encode (json_dumps_indent (JList (l ++ [JStr message])))]>
                  (fs (env w))
            | Some _ => fs (env w)
            end
        ∧ encryption_manager w' = encryption_manager w
        ∧ friends (data_manager w') = friends (data_manager w)
        ∧ groups (data_manager w') = groups (data_manager w)
        ∧ last_sync_time (data_manager w') = last_sync_time (data_manager w)
        ∧ auth_token w' = auth_token w ∧ current_chat w' = current_chat w
        ∧ ui w' = ui w
        ∧ entropy (env w') = entropy (env w) ∧ drawn (env w') = drawn (env w)
        ∧ clock (env w') = clock (env w) ∧ ticks (env w') = ticks (env w)
  | None => save_message recipient message is_group w = (Raised AttributeError, w)
  end.
Proof.
  intros key. unfold history_lines, save_message. fold key.
  rewrite bind_gets.
  destruct (dict_get key (message_history (data_manager w))) as [j|] eqn:Hget.
  - rewrite bind_ret_l, bind_gets, Hget.
    destruct j; try done.
    rewrite bind_modify. unfold try_except, write_file, open_for_writing.
    rewrite !bind_run.
    destruct (open_error "MessageHistory" (history_file key));
      (eexists; split; [reflexivity|]); cbn;
      (split; [apply dict_get_set_eq|]); (split; [|done]);
      intros k Hk; by apply dict_get_set_ne.
  - rewrite bind_modify, bind_gets. cbn [with_dm data_manager set_message_history
      message_history].
    rewrite dict_get_set_eq.
    rewrite bind_modify. unfold try_except, write_file, open_for_writing.
    rewrite !bind_run.
    destruct (open_error "MessageHistory" (history_file key));
      (eexists; split; [reflexivity|]); cbn;
      (split; [apply dict_get_set_eq|]); (split; [|done]);
      intros k Hk; by rewrite !dict_get_set_ne.
Qed.

Lemma json_wf_list_snoc (l : list json) (j : json) :
  json_wf (JList l) → json_wf j → json_wf (JList (l ++ [j])).
Proof. induction l as [|x l IH]; cbn; [done|]. intros [? ?] ?. split; [done|]. by apply IH. Qed.

(** X19.  [save_message] appends the line to the conversation in memory
    and, when the conversation's file can be opened, writes the
    conversation to it and returns True.  After a restart
    [load_message_history] then brings the conversation back with the line
    when its key is that of a listed friend or group; the conversation of
    a name that is not listed is saved but not loaded.  When the file
    cannot be opened (a name with a slash or a NUL, or one that is too
    long) the call returns False and no file changes: the line is in
    memory only. *)
Theorem saved_message_survives_restart {HL : PrimitivesLaws P}
    {JL : JsonFileLaws P} (w w2 : Messenger) (recipient message : string)
    (is_group : bool) (l : list json) :
  let key := history_key recipient is_group in
  let run := save_message recipient message is_group w in
  let w1 := state_after run in
  history_lines w key = Some l → json_wf (JList l) →
  fs (env w2) !! history_path key = fs (env w1) !! history_path key →
  let w3 := state_after (load_message_history w2) in
  dict_get key (message_history (data_manager w1))
  = Some (JList (l ++ [JStr message]))
  ∧ outcome (load_message_history w2) = Ok tt
  ∧ match open_error "MessageHistory" (history_file key) with
    | None =>
        outcome run = Ok true
        ∧ (key ∈ listed_keys (data_manager w2) →
           dict_get key (message_history (data_manager w3))
           = Some (JList (l ++ [JStr message])))
        ∧ (key ∉ listed_keys (data_manager w2) →
           dict_get key (message_history (data_manager w3)) = None)
    | Some _ => outcome run = Ok false ∧ fs (env w1) = fs (env w)
    end.
Proof.
  intros key run w1 Hl Hwf Hfs w3. subst run w1 w3.
  pose proof (save_message_run recipient message is_group w) as Hsave.
  cbv zeta in Hsave. fold key in Hsave. rewrite Hl in Hsave.
  destruct Hsave as (w1 & Hrun & Hget & _ & Hfile & _).
  rewrite Hrun in *. unfold outcome, state_after in *. cbn [fst snd] in *.
  destruct (load_message_history_run w2) as (w3 & -> & _ & _ & _ & _ & _ & Hload).
  cbn [fst snd]. split; [done|]. split; [done|].
  destruct (open_error "MessageHistory" (history_file key)); [done|].
  assert (Hstored : stored_history (fs (env w2)) key
                    = Some (JList (l ++ [JStr message]))).
  { unfold stored_history. rewrite Hfs, Hfile, lookup_insert_eq. cbn.
    rewrite utf8_decode_encode. cbn.
    rewrite json_loads_dumps_indent by (by apply json_wf_list_snoc). done. }
  split; [done|]. split.
  - intros Hin. by rewrite Hload, decide_True.
  - intros Hout. by rewrite Hload, decide_False.
Qed.

(** X20.  [save_sync_time] reads the clock twice: the file gets the first
    reading and the memory the second, so [load_sync_time] restores the
    first.  A file that is missing or is not a number gives the
    watermark 0. *)
Theorem sync_time_survives_restart {HL : PrimitivesLaws P}
    {BL : BuiltinsLaws B} (w : Messenger) :
  let w1 := state_after (save_sync_time w) in
  (∀ w2, fs (env w2) !! sync_time_path = fs (env w1) !! sync_time_path →
     load_sync_time w2
     = (Ok tt, with_dm (set_last_sync_time (clock (env w) (ticks (env w)))) w2))
  ∧ last_sync_time (data_manager w1) = clock (env w) (S (ticks (env w)))
  ∧ (∀ w2, (data ← fs (env w2) !! sync_time_path;
            text ← utf8_decode data;
            int_of_str (str_strip text)) = None →
       load_sync_time w2 = (Ok tt, with_dm (set_last_sync_time 0) w2)).
Proof.
  intros w1. subst w1. split; [|split; [done|]].
  - intros w2 Hfs.
    assert (Hfile : fs (env w2) !! sync_time_path
              = Some (utf8_encode (pretty (clock (env w) (ticks (env w)))))).
    { rewrite Hfs. unfold save_sync_time, state_after. cbn.
      apply lookup_insert_eq. }
    unfold load_sync_time, try_except, read_text, read_file, bind.
    rewrite Hfile. cbn. rewrite utf8_decode_encode. cbn.
    rewrite str_strip_pretty, int_of_str_pretty. done.
  - intros w2 Hbad.
    unfold load_sync_time, try_except, read_text, read_file, bind.
    destruct (fs (env w2) !! sync_time_path) as [data|]; cbn in *; [|done].
    destruct (utf8_decode data) as [text|]; cbn in *; [|done].
    by rewrite Hbad.
Qed.

Lemma history_path_inj k1 k2 : history_path k1 = history_path k2 → k1 = k2.
Proof.
  unfold history_path. intros Heq.
  apply (String.app_inj "MessageHistory/") in Heq.
  by apply append_inj_l in Heq.
Qed.

Lemma ensure_files_run (keys : list string) (w : Messenger) :
  ∃ r w', for_each keys ensure_file w = (r, w')
    ∧ encryption_manager w' = encryption_manager w
    ∧ data_manager w' = data_manager w
    ∧ auth_token w' = auth_token w ∧ current_chat w' = current_chat w
    ∧ ui w' = ui w
    ∧ (∀ path data, fs (env w) !! path = Some data →
         fs (env w') !! path = Some data)
    ∧ (∀ path, fs (env w) !! path = None →
         fs (env w') !! path = None
         ∨ fs (env w') !! path = Some (utf8_encode (json_dumps (JList []))))
    ∧ (Forall (λ key, is_Some (fs (env w) !! history_path key)
                      ∨ open_error "MessageHistory" (history_file key) = None)
              keys →
       r = Ok tt
       ∧ ∀ key, key ∈ keys → is_Some (fs (env w') !! history_path key))
    ∧ (∀ key, key ∈ keys → fs (env w) !! history_path key = None →
         open_error "MessageHistory" (history_file key) ≠ None →
         ∃ e, r = Raised e).
Proof.
  revert w. induction keys as [|k keys IH]; intros w.
  - exists (Ok tt), w. split; [done|]. do 5 (split; [done|]).
    split; [done|]. split; [by left|]. split.
    + intros _. split; [done|]. intros key Hin. by apply elem_of_nil in Hin.
    + intros key Hin. by apply elem_of_nil in Hin.
  - cbn [for_each]. rewrite bind_run. unfold ensure_file at 1.
    rewrite bind_run. unfold path_exists at 1. cbn [gets].
    destruct (fs (env w) !! history_path k) as [data|] eqn:Hk.
    + rewrite bool_decide_eq_true_2 by done. cbn [ret].
      destruct (IH w)
        as (r & w' & -> & Hem & Hdm & Hau & Hcc & Hui & Hkeep & Hnew & Hall & Hone).
      exists r, w'. split; [done|]. do 5 (split; [done|]).
      split; [done|]. split; [done|]. split.
      * intros [_ Hgood]%Forall_cons. destruct (Hall Hgood) as [-> Hfiles].
        split; [done|]. intros key [->|Hin]%elem_of_cons; [|by apply Hfiles].
        rewrite (Hkeep _ _ Hk). by eexists.
      * intros key [->|Hin]%elem_of_cons Hnone Hrefused; [congruence|].
        by eapply Hone.
    + rewrite bool_decide_eq_false_2 by (by intros [? ?]).
      unfold write_file, open_for_writing. rewrite bind_run.
      destruct (open_error "MessageHistory" (history_file k)) as [e|] eqn:Hopen.
      * cbn [raise]. exists (Raised e), w. split; [done|].
        do 5 (split; [done|]). split; [done|]. split; [by left|]. split.
        -- intros [[[? ?]|?] _]%Forall_cons; congruence.
        -- intros. by eexists.
      * cbn [ret modify].
        change (file_in "MessageHistory" (history_file k)) with (history_path k).
        set (w1 := with_env _ w).
        assert (Hfs1 : ∀ path, fs (env w1) !! path
                  = if decide (path = history_path k)
                    then Some (utf8_encode (json_dumps (JList [])))
                    else fs (env w) !! path).
        { intros path. unfold w1. cbn. destruct (decide _) as [->|].
          - apply lookup_insert_eq.
          - by apply lookup_insert_ne. }
        destruct (IH w1)
          as (r & w' & -> & Hem & Hdm & Hau & Hcc & Hui & Hkeep & Hnew & Hall & Hone).
        exists r, w'. split; [done|]. do 5 (split; [done|]).
        split; [|split; [|split]].
        -- intros path data Hp. apply Hkeep. rewrite Hfs1.
           destruct (decide _) as [->|]; [congruence|done].
        -- intros path Hp. destruct (decide (path = history_path k)) as [->|Hne].
           ++ right. apply Hkeep. rewrite Hfs1. by rewrite decide_True.
           ++ apply Hnew. rewrite Hfs1. by rewrite decide_False.
        -- intros [_ Hgood]%Forall_cons.
           destruct Hall as [-> Hfiles].
           { eapply Forall_impl; [exact Hgood|].
             intros key [Hthere|Ho]; [left|by right]. rewrite Hfs1.
             by destruct (decide _). }
           split; [done|]. intros key [->|Hin]%elem_of_cons; [|by apply Hfiles].
           erewrite Hkeep; [by eexists|]. rewrite Hfs1. by rewrite decide_True.
        -- intros key [->|Hin]%elem_of_cons Hnone Hrefused; [congruence|].
           eapply Hone; [done| |done]. rewrite Hfs1.
           destruct (decide _) as [Heq%history_path_inj|]; [|done].
           subst. congruence.
Qed.

Lemma ensure_message_files_exist_run (w : Messenger) :
  ensure_message_files_exist w
  = for_each (listed_keys (data_manager w)) ensure_file w.
Proof.
  unfold ensure_message_files_exist, listed_keys.
  rewrite for_each_app, bind_gets, !bind_run.
  destruct (ensure_files_run (friends (data_manager w)) w)
    as (r & w1 & -> & _ & Hdm & _).
  destruct r as [[]|e]; [|done].
  by rewrite bind_gets, Hdm, for_each_fmap.
Qed.

(** X21.  [ensure_message_files_exist] changes no file that is there and no
    data in memory, and a file that it made holds the empty list.  When
    the missing file of every listed friend and group can be opened it
    returns, and each of them has a history file then; when one of them
    cannot (a name with a slash or a NUL, or one that is too long) the
    call raises. *)
Theorem ensure_message_files_keeps_histories (w : Messenger) :
  let run := ensure_message_files_exist w in
  let w' := state_after run in
  data_manager w' = data_manager w
  ∧ (∀ path data, fs (env w) !! path = Some data →
       fs (env w') !! path = Some data)
  ∧ (∀ path, fs (env w) !! path = None →
       fs (env w') !! path = None
       ∨ fs (env w') !! path = Some (utf8_encode (json_dumps (JList []))))
  ∧ (Forall (λ key, is_Some (fs (env w) !! history_path key)
                    ∨ open_error "MessageHistory" (history_file key) = None)
            (listed_keys (data_manager w)) →
     outcome run = Ok tt
     ∧ ∀ key, key ∈ listed_keys (data_manager w) →
         is_Some (fs (env w') !! history_path key))
  ∧ (∀ key, key ∈ listed_keys (data_manager w) →
       fs (env w) !! history_path key = None →
       open_error "MessageHistory" (history_file key) ≠ None →
       ∃ e, outcome run = Raised e).
Proof.
  intros run w'. subst run w'. rewrite ensure_message_files_exist_run.
  destruct (ensure_files_run (listed_keys (data_manager w)) w)
    as (r & w1 & -> & _ & Hdm & _ & _ & _ & Hkeep & Hnew & Hall & Hone).
  unfold outcome, state_after. cbn [fst snd]. auto 10.
Qed.

End persistence_facts.

(** ** The client: the window *)

Section window_facts.
Import Client.
Local Open Scope py_scope.
Context {P : Primitives} {F : FileSystem} {B : Builtins} {K : KeyFormats P}.

Lemma decrypt_message_reads envelope (w : Messenger) :
  state_after (decrypt_message envelope w) = w.
Proof.
  unfold decrypt_message, try_except, bind, gets, state_after.
  destruct (b64decode (env_key envelope)); cbn; [|done].
  destruct (b64decode (env_message envelope)); cbn; [|done].
  destruct (rsa_oaep_decrypt _ _); cbn; [|done].
  destruct (fernet_key_ok _); cbn; [|done].
  destruct (fernet_decrypt _ _); cbn; [|done].
  destruct (utf8_decode _); cbn; done.
Qed.

Lemma decrypt_message_same_key envelope (w w' : Messenger) :
  encryption_manager w' = encryption_manager w →
  outcome (decrypt_message envelope w') = outcome (decrypt_message envelope w).
Proof.
  intros Hem. unfold decrypt_message, try_except, bind, gets, outcome.
  destruct (b64decode (env_key envelope)); cbn; [|done].
  destruct (b64decode (env_message envelope)); cbn; [|done].
  rewrite Hem.
  destruct (rsa_oaep_decrypt _ _); cbn; [|done].
  destruct (fernet_key_ok _); cbn; [|done].
  destruct (fernet_decrypt _ _); cbn; [|done].
  destruct (utf8_decode _); cbn; done.
Qed.

Lemma str_truthy_true s : s ≠ ""%string → str_truthy s = true.
Proof. intros Hs. unfold str_truthy. by apply bool_decide_eq_true. Qed.

Lemma poll_direct_run (msg : DirectMessage) (w : Messenger) (text : string)
    (l : list json) :
  outcome (decrypt_message {| env_key := d_encrypted_key msg;
                              env_message := d_encrypted_content msg |} w)
    = Ok (Some text) →
  text ≠ ""%string →
  history_lines w (d_sender msg) = Some l →
  ∃ w', poll_direct msg w = (Ok tt, w')
    ∧ history_lines w' (d_sender msg)
      = Some (l ++ [JStr (d_sender msg +:+ ": " +:+ text)])
    ∧ encryption_manager w' = encryption_manager w
    ∧ last_sync_time (data_manager w') = last_sync_time (data_manager w)
    ∧ auth_token w' = auth_token w.
Proof.
  intros Hdec Htext Hl. unfold poll_direct. rewrite bind_run.
  pose proof (decrypt_message_reads
                {| env_key := d_encrypted_key msg;
                   env_message := d_encrypted_content msg |} w) as Hread.
  unfold outcome, state_after in *.
  destruct (decrypt_message _ w) as [r w0]. cbn [fst snd] in *. subst.
  rewrite str_truthy_true by done.
  unfold deliver. rewrite bind_run.
  pose proof (save_message_run (d_sender msg)
                (d_sender msg +:+ ": " +:+ text) false w) as Hsave.
  cbv zeta in Hsave. cbn [history_key] in Hsave. rewrite Hl in Hsave.
  destruct Hsave as (w1 & -> & Hget & _ & _ & Hem & _ & _ & Hls & Hau & Hcc & Hui & _).
  rewrite bind_gets.
  assert (Hlines : ∀ w2, data_manager w2 = data_manager w1 →
            history_lines w2 (d_sender msg)
            = Some (l ++ [JStr (d_sender msg +:+ ": " +:+ text)])).
  { intros w2 Hdm. unfold history_lines. by rewrite Hdm, Hget. }
  destruct (bool_decide (current_chat w1 = Some (d_sender msg))) eqn:Hcur.
  - rewrite bool_decide_eq_false_2
      by (apply bool_decide_eq_true in Hcur; by intros ?).
    eexists. split; [reflexivity|]. cbn. split; [by apply Hlines|done].
  - rewrite bool_decide_eq_true_2 by (by apply bool_decide_eq_false in Hcur).
    eexists. split; [reflexivity|]. cbn. split; [by apply Hlines|done].
Qed.

Lemma poll_once_run relay_direct relay_group (msg : DirectMessage)
    (w : Messenger) (text : string) (l : list json) :
  token_truthy (auth_token w) = true →
  relay_direct (last_sync_time (data_manager w)) = Reply true [msg] →
  relay_group (last_sync_time (data_manager w)) = Reply true [] →
  outcome (decrypt_message {| env_key := d_encrypted_key msg;
                              env_message := d_encrypted_content msg |} w)
    = Ok (Some text) →
  text ≠ ""%string →
  history_lines w (d_sender msg) = Some l →
  ∃ w', poll_for_messages relay_direct relay_group w = (Ok tt, w')
    ∧ history_lines w' (d_sender msg)
      = Some (l ++ [JStr (d_sender msg +:+ ": " +:+ text)])
    ∧ encryption_manager w' = encryption_manager w
    ∧ last_sync_time (data_manager w') = last_sync_time (data_manager w)
    ∧ auth_token w' = auth_token w.
Proof.
  intros Htok Hdirect Hgroup Hdec Htext Hl.
  unfold poll_for_messages. rewrite bind_gets, Htok, bind_gets.
  unfold api_get_messages. rewrite !bind_run. cbn [gets].
  rewrite Htok, Hdirect. cbn [ret fst snd for_each]. rewrite !bind_run.
  destruct (poll_direct_run msg w text l Hdec Htext Hl)
    as (w1 & -> & Hlines & Hem & Hls & Hau).
  cbn [ret gets]. rewrite !bind_run. cbn [gets].
  rewrite Hls, Hgroup, !bind_run. cbn [gets]. rewrite Hau, Htok. cbn.
  by exists w1.
Qed.

(** X22.  Polling does not move the watermark, so a relay that answers by the
    watermark answers two polls with the same message: the line is then
    appended to the sender's conversation once for each poll. *)
Theorem repeated_poll_duplicates_messages
    (relay_direct : Z → HttpReply (list DirectMessage))
    (relay_group : Z → HttpReply (list GroupMessage))
    (msg : DirectMessage) (w : Messenger) (text : string) (l : list json) :
  token_truthy (auth_token w) = true →
  relay_direct (last_sync_time (data_manager w)) = Reply true [msg] →
  relay_group (last_sync_time (data_manager w)) = Reply true [] →
  outcome (decrypt_message {| env_key := d_encrypted_key msg;
                              env_message := d_encrypted_content msg |} w)
    = Ok (Some text) →
  text ≠ ""%string →
  history_lines w (d_sender msg) = Some l →
  let line := JStr (d_sender msg +:+ ": " +:+ text) in
  let once := state_after (poll_for_messages relay_direct relay_group w) in
  let twice := state_after (poll_for_messages relay_direct relay_group once) in
  history_lines once (d_sender msg) = Some (l ++ [line])
  ∧ history_lines twice (d_sender msg) = Some (l ++ [line; line]).
Proof.
  intros Htok Hdirect Hgroup Hdec Htext Hl line once twice. subst once twice.
  destruct (poll_once_run relay_direct relay_group msg w text l)
    as (w1 & Hrun1 & Hl1 & Hem1 & Hls1 & Hau1); try done.
  rewrite Hrun1. unfold state_after. cbn [snd].
  split; [done|].
  destruct (poll_once_run relay_direct relay_group msg w1 text (l ++ [line]))
    as (w2 & Hrun2 & Hl2 & _); try done.
  - by rewrite Hau1.
  - by rewrite Hls1.
  - by rewrite Hls1.
  - by rewrite (decrypt_message_same_key _ w w1 Hem1).
  - rewrite Hrun2. cbn [snd].
    by rewrite Hl2, <- app_assoc.
Qed.

Lemma encrypt_message_frame message name (w : Messenger) :
  ∃ r w', encrypt_message message name w = (Ok r, w')
    ∧ data_manager w' = data_manager w ∧ auth_token w' = auth_token w
    ∧ current_chat w' = current_chat w ∧ ui w' = ui w
    ∧ fs (env w') = fs (env w).
Proof.
  assert (Hbody : ∀ w0 : Messenger,
    ∃ r w', try_except (encrypt_message_body message name) (λ _, ret None) w0
            = (Ok r, w')
      ∧ data_manager w' = data_manager w0 ∧ auth_token w' = auth_token w0
      ∧ current_chat w' = current_chat w0 ∧ ui w' = ui w0
      ∧ fs (env w') = fs (env w0)).
  { intros w0. unfold encrypt_message_body, try_except, bind, os_urandom,
      time_time, gets. cbn.
    destruct (fernet_key_ok _); cbn; [|by eexists _, _].
    destruct (friend_public_keys (encryption_manager w0) !! name); cbn;
      [|by eexists _, _].
    destruct (rsa_oaep_encrypt _ _ _); cbn; by eexists _, _. }
  assert (Hload : ∃ loaded w1, load_friend_public_key name w = (Ok loaded, w1)
      ∧ data_manager w1 = data_manager w ∧ auth_token w1 = auth_token w
      ∧ current_chat w1 = current_chat w ∧ ui w1 = ui w
      ∧ fs (env w1) = fs (env w)).
  { unfold load_friend_public_key, try_except, bind, read_file.
    destruct (fs (env w) !! friend_key_path name) as [data|]; cbn;
      [|by eexists _, _].
    destruct (load_pem_public_key data) as [pk|]; cbn; by eexists _, _. }
  unfold encrypt_message. rewrite bind_gets.
  destruct (friend_public_keys (encryption_manager w) !! name) as [pk|].
  - rewrite bind_ret_l. apply Hbody.
  - rewrite bind_run.
    destruct Hload as (loaded & w1 & -> & Hdm & Hau & Hcc & Hui & Hfs).
    destruct loaded; [|by exists None, w1].
    destruct (Hbody w1) as (r & w' & -> & H). exists r, w'.
    split; [done|]. destruct H as (-> & -> & -> & -> & ->). done.
Qed.

Lemma send_direct_run
    (group_branch : string → string → Py Messenger unit)
    (relay : string → Envelope → Z → SendReply) (w w1 : Messenger)
    (message chat : string) (l : list json) (envelope : Envelope) :
  current_chat w = Some chat →
  message ≠ ""%string → chat ≠ ""%string →
  String.prefix "group_" chat = false →
  history_lines w chat = Some l →
  encrypt_message message chat w = (Ok (Some envelope), w1) →
  let run := send_message group_branch relay message w in
  let line := ("You: " +:+ message)%string in
  outcome run = Ok tt
  ∧ history_lines (state_after run) chat = Some (l ++ [JStr line])
  ∧ ui (state_after run)
    = ui w ++ ChatAppend line ::
        (if token_truthy (auth_token w) then
           match relay chat envelope (clock (env w1) (ticks (env w1))) with
           | SendAnswer true _ _ => []
           | SendAnswer false _ text =>
               [Notification ("Failed to send message: "
                              +:+ default "Failed to send message" text)]
           | SendFailed error =>
               [Notification ("Failed to send message: "
                              +:+ ("Network error: " +:+ error))]
           end
         else [Notification ("Failed to send message: " +:+ "Not authenticated")]).
Proof.
  intros Hchat Hmsg Hne Hdirect Hl Henc run line. subst run.
  unfold send_message. fold line. rewrite bind_gets, Hchat.
  rewrite !str_truthy_true by done. cbn [negb orb]. rewrite Hdirect.
  rewrite bind_run, Henc.
  destruct (encrypt_message_frame message chat w)
    as (r & w1' & Henc' & Hdm & Hau & Hcc & Hui & Hfs).
  rewrite Henc in Henc'. injection Henc' as <- <-.
  rewrite bind_run.
  pose proof (save_message_run chat line false w1) as Hsave.
  cbv zeta in Hsave. cbn [history_key] in Hsave.
  assert (Hl1 : history_lines w1 chat = Some l)
    by (unfold history_lines; by rewrite Hdm).
  rewrite Hl1 in Hsave.
  destruct Hsave as (w2 & -> & Hget & _ & _ & _ & _ & _ & _ & Hau2 & _ & Hui2
                     & _ & _ & Hclock & Hticks).
  unfold chat_area_append. rewrite bind_modify, bind_run.
  unfold api_send_message. rewrite bind_run. cbn [gets with_ui auth_token].
  assert (Hlines : ∀ w3 : Messenger,
            message_history (data_manager w3) = message_history (data_manager w2) →
            history_lines w3 chat = Some (l ++ [JStr line])).
  { intros w3 Hh. unfold history_lines. by rewrite Hh, Hget. }
  rewrite Hau2, Hau.
  destruct (token_truthy (auth_token w)).
  - rewrite bind_run. cbn [time_time with_ui env]. rewrite Hclock, Hticks.
    destruct (relay _ _ _) as [error|[] id text];
      unfold outcome, state_after, ret, show_notification, modify;
      cbn [fst snd ui with_ui with_env]; rewrite Hui2, Hui;
      (split; [done|]); (split; [by apply Hlines|]);
      by rewrite <- ?app_assoc.
  - unfold outcome, state_after, ret, show_notification, modify.
    cbn [fst snd ui with_ui]. rewrite Hui2, Hui.
    split; [done|]. split; [by apply Hlines|]. by rewrite <- app_assoc.
Qed.

(** X23.  [MessengerWindow.send_message] saves a direct message before it
    uploads it: when the encryption succeeds, the line is appended to the
    conversation and to the chat area whatever the relay answers, and an
    upload that fails only adds a notification.  When the encryption
    fails, nothing is saved or written and a notification is shown. *)
Theorem unsent_message_stays_in_history
    (group_branch : string → string → Py Messenger unit)
    (relay : string → Envelope → Z → SendReply) (w : Messenger)
    (message chat : string) (l : list json) :
  current_chat w = Some chat →
  message ≠ ""%string → chat ≠ ""%string →
  String.prefix "group_" chat = false →
  history_lines w chat = Some l →
  let run := send_message group_branch relay message w in
  let w' := state_after run in
  let line := ("You: " +:+ message)%string in
  outcome run = Ok tt
  ∧ (outcome (encrypt_message message chat w) = Ok None →
     data_manager w' = data_manager w ∧ fs (env w') = fs (env w)
     ∧ ui w' = ui w ++ [Notification
         "Failed to encrypt message. Make sure you have the recipient's public key."])
  ∧ (outcome (encrypt_message message chat w) ≠ Ok None →
     history_lines w' chat = Some (l ++ [JStr line])
     ∧ (ui w' = ui w ++ [ChatAppend line]
        ∨ ∃ text, ui w' = ui w ++ [ChatAppend line;
                    Notification ("Failed to send message: " +:+ text)])
     ∧ ((∀ r e t id text, relay r e t ≠ SendAnswer true id text) →
        ∃ text, ui w' = ui w ++ [ChatAppend line;
                    Notification ("Failed to send message: " +:+ text)])).
Proof.
  intros Hchat Hmsg Hne Hdirect Hl run w' line.
  destruct (encrypt_message_frame message chat w)
    as (r & w1 & Henc & Hdm & Hau & Hcc & Hui & Hfs).
  destruct r as [envelope|].
  - destruct (send_direct_run group_branch relay w w1 message chat l envelope
                Hchat Hmsg Hne Hdirect Hl Henc) as (Hok & Hlines & Hsent).
    fold run line in Hok, Hlines, Hsent. fold w' in Hlines, Hsent.
    split; [done|]. split; [by rewrite Henc|]. intros _.
    split; [done|]. rewrite Hsent.
    destruct (token_truthy (auth_token w)).
    + destruct (relay _ _ _) as [error|[] id text] eqn:Hrelay.
      * split; [right|intros _]; by eexists.
      * split; [by left|]. intros Hnever. by destruct (Hnever _ _ _ _ _ Hrelay).
      * split; [right|intros _]; by eexists.
    + split; [right|intros _]; by eexists.
  - subst w' run. unfold send_message. rewrite bind_gets, Hchat.
    rewrite !str_truthy_true by done. cbn [negb orb]. rewrite Hdirect.
    rewrite bind_run, Henc.
    unfold outcome, state_after, show_notification, modify. cbn [fst snd].
    split; [done|]. split; [|done]. intros _. cbn. by rewrite Hdm, Hfs, Hui.
Qed.

End window_facts.

(** ** The client against the relay *)

Section wire_facts.
Import Client.
Local Open Scope py_scope.
Context {P : Primitives} {F : FileSystem} {B : Builtins} {K : KeyFormats P}.

Lemma relay_refuses_a_name (clock : nat → Z) (authorization : option string)
    (recipient : string) (envelope : Envelope) (timestamp user_id : Z)
    (db : Relay.Database) :
  Relay.get_current_user (clock 0%nat) authorization db = (Ok user_id, db) →
  int_of_str recipient = None →
  Relay.send_message clock authorization
    (Wire.send_body recipient envelope timestamp) db
  = (Raised (HTTPException 400 "Invalid recipient ID"), db).
Proof.
  intros Hauth Hint. unfold Relay.send_message. rewrite bind_run, Hauth.
  cbn [Relay.ms_recipient_id Wire.send_body]. by rewrite Hint.
Qed.

(** X24.  A direct message never reaches a friend who is named by a
    username: the window hands the name of the chat to
    [ServerAPI.send_message] as [recipient_id], and the route
    [send_message] of the relay reads that field with [int].  When the
    name is not a numeral, the relay of a logged-in client raises 400 and
    stores nothing, while the client has saved the line in the
    conversation, shows it in the chat area and notifies a network
    error. *)
Theorem message_to_username_is_refused
    (group_branch : string → string → Py Messenger unit)
    (describe : Exn → string) (clock : nat → Z) (db : Relay.Database)
    (w : Messenger) (message chat : string) (l : list json) (user_id : Z) :
  current_chat w = Some chat →
  message ≠ ""%string → chat ≠ ""%string →
  String.prefix "group_" chat = false →
  history_lines w chat = Some l →
  outcome (encrypt_message message chat w) ≠ Ok None →
  token_truthy (auth_token w) = true →
  Relay.get_current_user (clock 0%nat) (Wire.session_header (auth_token w)) db
    = (Ok user_id, db) →
  int_of_str chat = None →
  let relay := Wire.messages_send describe clock (auth_token w) db in
  let w' := state_after (send_message group_branch relay message w) in
  let line := ("You: " +:+ message)%string in
  let refused := HTTPException 400 "Invalid recipient ID" in
  (∀ envelope timestamp,
     Relay.send_message clock (Wire.session_header (auth_token w))
       (Wire.send_body chat envelope timestamp) db
     = (Raised refused, db))
  ∧ history_lines w' chat = Some (l ++ [JStr line])
  ∧ ui w' = ui w ++ [ChatAppend line;
                     Notification ("Failed to send message: "
                                   +:+ ("Network error: " +:+ describe refused))].
Proof.
  intros Hchat Hmsg Hne Hdirect Hl Henc Htok Hauth Hint relay w' line refused.
  assert (Hrefused : ∀ envelope timestamp,
    Relay.send_message clock (Wire.session_header (auth_token w))
      (Wire.send_body chat envelope timestamp) db = (Raised refused, db))
    by (intros; by eapply relay_refuses_a_name).
  split; [exact Hrefused|].
  destruct (encrypt_message_frame message chat w)
    as (r & w1 & Hrun & _).
  destruct r as [envelope|]; [|by rewrite Hrun in Henc].
  destruct (send_direct_run group_branch relay w w1 message chat l envelope
              Hchat Hmsg Hne Hdirect Hl Hrun) as (_ & Hlines & Hsent).
  split; [exact Hlines|].
  fold w' in Hsent. rewrite Hsent, Htok.
  unfold relay, Wire.messages_send. by rewrite Hrefused.
Qed.

End wire_facts.

(** ** The small instance meets the contracts *)

Section toy_facts.
Import Toy.

Lemma bits_pos_bits p : bits_pos (pos_bits p) = Some p.
Proof. induction p as [p IH|p IH|]; cbn; [by rewrite IH..|done]. Qed.

Lemma tree_to_json_to_tree j : tree_to_json (json_to_tree j) = j.
Proof.
  revert j. fix IH 1. intros [| | | |l|d]; cbn; try done.
  - f_equal. induction l as [|x l IHl]; cbn; [done|]. by rewrite IH, IHl.
  - f_equal. induction d as [|[k v] d IHd]; cbn; [done|]. by rewrite IH, IHd.
Qed.

Lemma toy_json_loads_dumps j : toy_json_loads (toy_json_dumps j) = Some j.
Proof.
  unfold toy_json_loads, toy_json_dumps.
  rewrite bits_pos_bits. cbn. rewrite decode_encode. cbn.
  by rewrite tree_to_json_to_tree.
Qed.

Lemma toy_laws : PrimitivesLaws toy.
Proof.
  split; simpl.
  - intros b. by rewrite list_byte_of_string_of_list_byte.
  - intros [|x b]; done.
  - intros s. by rewrite string_of_list_byte_of_string.
  - intros [|c s]; done.
  - intros j _. apply toy_json_loads_dumps.
  - done.
  - done.
  - intros k r t m _. unfold toy_fernet_decrypt, toy_fernet_encrypt.
    rewrite take_app_length, decide_True by done. by rewrite drop_app_length.
  - done.
  - intros k tok m. unfold toy_fernet_decrypt, toy_fernet_encrypt.
    destruct tok as [|b rest]; [done|].
    destruct (decide (b = x80)) as [->|Hne].
    + destruct (decide (take (length k) rest = k)) as [Heq|]; [|done].
      intros [= <-]. exists 0%N, 0%Z. rewrite <- Heq at 1.
      by rewrite take_drop.
    + destruct b; done.
  - intros sk r r'. by eexists.
  - intros sk r m c [= <-]. unfold toy_rsa_decrypt. by rewrite decide_True.
Qed.

Lemma digit_value_pretty_N_char (d : N) :
  (d < 10)%N → digit_value (pretty_N_char d) = Some d.
Proof.
  intros Hd.
  assert (d = 0 ∨ d = 1 ∨ d = 2 ∨ d = 3 ∨ d = 4 ∨ d = 5 ∨ d = 6 ∨ d = 7
          ∨ d = 8 ∨ d = 9)%N as Hcases by lia.
  repeat (destruct Hcases as [->|Hcases]; [reflexivity|]). by subst.
Qed.

Lemma parse_digits_pretty_N_go (x : N) :
  ∃ m, ∀ s acc,
    parse_digits (pretty_N_go x s) acc = parse_digits s (acc * m + x)%N.
Proof.
  induction (N.lt_wf_0 x) as [x _ IH].
  destruct (decide (x = 0)%N) as [->|Hx].
  - exists 1%N. intros s acc. rewrite pretty_N_go_0. f_equal. lia.
  - destruct (IH (x `div` 10)%N) as [m Hm]; [apply N.div_lt; lia|].
    exists (m * 10)%N. intros s acc.
    rewrite pretty_N_go_step, Hm by lia. cbn [parse_digits].
    rewrite digit_value_pretty_N_char by (apply N.mod_lt; lia). cbn.
    f_equal. pose proof (N.div_mod x 10). lia.
Qed.

Lemma pretty_N_go_nonempty (x : N) (s : string) :
  s ≠ ""%string → pretty_N_go x s ≠ ""%string.
Proof.
  revert s. induction (N.lt_wf_0 x) as [x _ IH]. intros s Hs.
  destruct (decide (x = 0)%N) as [->|Hx].
  - by rewrite pretty_N_go_0.
  - rewrite pretty_N_go_step by lia. apply IH; [apply N.div_lt; lia|done].
Qed.

Lemma pretty_positive_digits (p : positive) :
  ∃ c s, pretty p = String c s ∧ parse_digits (String c s) 0 = Some (Npos p).
Proof.
  unfold pretty, pretty_positive, pretty, pretty_N.
  rewrite decide_False by done.
  destruct (parse_digits_pretty_N_go (Npos p)) as [m Hm].
  pose proof (Hm ""%string 0%N) as Hparse. cbn [parse_digits] in Hparse.
  destruct (pretty_N_go (N.pos p) "") as [|c s] eqn:Heq.
  - exfalso. rewrite pretty_N_go_step in Heq by lia.
    by apply pretty_N_go_nonempty in Heq.
  - exists c, s. split; [done|]. rewrite Hparse. f_equal.
Qed.

Lemma toy_builtins_laws : BuiltinsLaws toy_builtins.
Proof.
  split; [done|]. intros z. change (toy_int_of_str (pretty z) = Some z).
  destruct z as [|p|p].
  - reflexivity.
  - change (pretty (Z.pos p)) with (pretty p).
    destruct (pretty_positive_digits p) as (c & s & -> & Hparse).
    unfold toy_int_of_str. by rewrite Hparse.
  - change (pretty (Z.neg p)) with ("-" +:+ pretty p)%string.
    destruct (pretty_positive_digits p) as (c & s & -> & Hparse).
    change ("-" +:+ String c s)%string with (String "-" (String c s)).
    unfold toy_int_of_str.
    change (parse_digits (String "-" (String c s)) 0) with (@None N).
    cbn [Ascii.eqb Bool.eqb]. by rewrite Hparse.
Qed.

Lemma toy_key_formats_laws : KeyFormatsLaws toy toy_key_formats.
Proof. by split. Qed.

Lemma toy_json_file_laws : JsonFileLaws toy.
Proof. split. intros j _. apply toy_json_loads_dumps. Qed.

End toy_facts.

(** ** The properties at the small instance *)

Section toy_witnesses.
Import Client Toy.
#[local] Existing Instance toy.
#[local] Existing Instance toy_file_system.

Lemma decrypt_encrypt_message_witness :
  known_public_key alice "bob"
    = Some (public_of (private_key (encryption_manager bob)))
  ∧ ∃ envelope,
      outcome (encrypt_message "hi" "bob" alice) = Ok (Some envelope)
      ∧ outcome (decrypt_message envelope bob) = Ok (Some "hi"%string).
Proof.
  assert (H : known_public_key alice "bob"
              = Some (public_of (private_key (encryption_manager bob))))
    by reflexivity.
  split; [exact H|].
  exact (@decrypt_encrypt_message toy toy_laws alice bob "hi" "bob" H).
Defined.

Lemma encrypt_group_message_witness :
  NoDup ["bob"%string]
  ∧ ∃ envelopes envelope,
      outcome (encrypt_group_message "hi" ["bob"%string] alice)
        = Ok (Some envelopes)
      ∧ dict_keys envelopes = ["bob"%string]
      ∧ dict_get "bob" envelopes = Some envelope
      ∧ outcome (decrypt_message envelope bob) = Ok (Some "hi"%string).
Proof.
  assert (H : NoDup ["bob"%string]) by (apply (bool_decide_unpack _); reflexivity).
  split; [exact H|].
  destruct (@encrypt_group_message_all_or_nothing toy toy_laws alice
              "hi" ["bob"%string] H) as (Hshape & Hentries & Hcomplete & _).
  destruct Hcomplete as [envelopes Hok].
  { intros member Hin. apply list_elem_of_singleton in Hin. subst member.
    exists x0b. reflexivity. }
  destruct (Hentries envelopes Hok [] "bob"%string [] eq_refl)
    as (envelope & _ & Hget & Hopen).
  exists envelopes, envelope. split; [exact Hok|].
  split; [|split; [exact Hget|exact (Hopen bob eq_refl)]].
  destruct Hshape as [Hnone|(envelopes' & Hsome & Hkeys & _)].
  - rewrite Hok in Hnone. discriminate Hnone.
  - rewrite Hok in Hsome. injection Hsome as <-. exact Hkeys.
Defined.

Lemma storage_roundtrip_counterexample :
  ∃ c b,
    outcome (encrypt_data_for_storage (PJson (JList [JStr "hi"])) alice)
      = Ok (Some c)
    ∧ outcome (decrypt_data_from_storage c alice) = Ok (Some b)
    ∧ b = utf8_encode (json_dumps (JList [JStr "hi"]))
    ∧ PBytes b ≠ PJson (JList [JStr "hi"]).
Proof. eexists _, _. repeat split; [vm_compute; reflexivity..|done]. Qed.

Lemma storage_open_seal_bytes_witness :
  fernet_key_ok (symmetric_key (encryption_manager alice)) = true
  ∧ symmetric_key (encryption_manager alice)
    = symmetric_key (encryption_manager alice)
  ∧ ∃ c b,
      outcome (encrypt_data_for_storage (PJson (JList [JStr "hi"])) alice)
        = Ok (Some c)
      ∧ outcome (decrypt_data_from_storage c alice) = Ok (Some b)
      ∧ storage_bytes (PJson (JList [JStr "hi"])) = Some b.
Proof.
  assert (H : fernet_key_ok (symmetric_key (encryption_manager alice)) = true)
    by reflexivity.
  split; [exact H|]. split; [reflexivity|].
  destruct (@storage_open_seal_bytes toy toy_laws alice alice
              (JList [JStr "hi"]) H eq_refl
              (or_intror (or_introl (ex_intro _ [JStr "hi"] eq_refl))))
    as [(c & b & H1 & H2 & H3 & _) _].
  exists c, b. split; [exact H1|]. split; [exact H2|exact H3].
Defined.

Lemma restore_merge_counterexample :
  (outcome (restore_from_backup (Some bare_snapshot) alice) = Ok true
   ∧ b_message_history bare_snapshot = Some []
   ∧ dict_get "bob" (message_history (data_manager alice))
     = Some (JList [JStr "bob: hi"])
   ∧ dict_get "bob"
       (message_history
          (data_manager
             (state_after (restore_from_backup (Some bare_snapshot) alice))))
     = Some (JList [JStr "bob: hi"]))
  ∧ ∃ b,
      outcome (prepare_backup_data alice) = Ok b
      ∧ message_history (data_manager alice)
        = [("bob"%string, JList [JStr "bob: hi"])]
      ∧ message_history (data_manager alice_reinstalled) = []
      ∧ outcome (restore_from_backup (Some b) alice_reinstalled) = Ok true
      ∧ friends
          (data_manager
             (state_after (restore_from_backup (Some b) alice_reinstalled)))
        = ["bob"%string]
      ∧ message_history
          (data_manager
             (state_after (restore_from_backup (Some b) alice_reinstalled)))
        = [].
Proof.
  split; [repeat split; vm_compute; reflexivity|].
  eexists. split; [vm_compute; reflexivity|].
  repeat split; vm_compute; reflexivity.
Qed.

Lemma restore_overwrites_per_conversation_witness :
  ∃ b,
    outcome (prepare_backup_data alice) = Ok b
    ∧ fernet_key_ok (symmetric_key (encryption_manager alice)) = true
    ∧ symmetric_key (encryption_manager fresh_vault)
      = symmetric_key (encryption_manager alice)
    ∧ message_history (data_manager fresh_vault) = []
    ∧ NoDup (dict_keys (message_history (data_manager alice)))
    ∧ Forall (λ kv, (∃ l, kv.2 = JList l) ∧ json_wf kv.2
                    ∧ open_error "MessageHistory" (history_file kv.1) = None)
             (message_history (data_manager alice))
    ∧ outcome (restore_from_backup (Some b) fresh_vault) = Ok true
    ∧ friends
        (data_manager (state_after (restore_from_backup (Some b) fresh_vault)))
      = friends (data_manager alice)
    ∧ message_history
        (data_manager (state_after (restore_from_backup (Some b) fresh_vault)))
      = message_history (data_manager alice).
Proof.
  eexists.
  assert (H1 : fernet_key_ok (symmetric_key (encryption_manager alice)) = true)
    by reflexivity.
  assert (H2 : NoDup (dict_keys (message_history (data_manager alice))))
    by (apply (bool_decide_unpack _); reflexivity).
  assert (H3 : Forall (λ kv, (∃ l, kv.2 = JList l) ∧ json_wf kv.2
                   ∧ open_error "MessageHistory" (history_file kv.1) = None)
                 (message_history (data_manager alice))).
  { repeat constructor. by eexists. }
  split; [vm_compute; reflexivity|].
  split; [exact H1|]. split; [reflexivity|]. split; [reflexivity|].
  split; [exact H2|]. split; [exact H3|].
  destruct (proj1 (proj2 (@restore_overwrites_per_conversation
              toy toy_file_system toy_laws))
              alice fresh_vault _ eq_refl H1 eq_refl eq_refl H2 H3)
    as (Hok & Hfriends & _ & Hhistory).
  split; [exact Hok|]. split; [exact Hfriends|exact Hhistory].
Defined.

Lemma backup_watermark_counterexample :
  let run := backup_user_data relay_accepts alice in
  ∃ b, outcome run = Ok (Some (b, true))
    ∧ b_timestamp b = Some 100%Z
    ∧ fs (env (state_after run)) !! sync_time_path = Some (utf8_encode "102")
    ∧ last_sync_time (data_manager (state_after run)) = 103%Z.
Proof. eexists. repeat split; vm_compute; reflexivity. Qed.

Lemma backup_watermark_is_clock_witness :
  ∃ b, outcome (backup_user_data relay_accepts alice) = Ok (Some (b, true))
    ∧ ticks (env (state_after (prepare_backup_data alice))) = 2
    ∧ b_timestamp b = Some (clock (env alice) 0)
    ∧ fs (env (state_after (backup_user_data relay_accepts alice)))
        !! sync_time_path
      = Some (utf8_encode (pretty (clock (env alice) 2)))
    ∧ last_sync_time
        (data_manager (state_after (backup_user_data relay_accepts alice)))
      = clock (env alice) 3.
Proof.
  eexists.
  assert (H : outcome (backup_user_data relay_accepts alice)
              = Ok (Some (_, true))) by (vm_compute; reflexivity).
  split; [exact H|].
  destruct (@backup_watermark_is_clock toy toy_file_system relay_accepts alice _ H)
    as (_ & _ & _ & Hsnapshot & Hdisk & Hmemory & _).
  split; [vm_compute; reflexivity|].
  split; [exact Hsnapshot|]. split; [exact Hdisk|exact Hmemory].
Defined.


End toy_witnesses.

(** ** The relay at the sample databases *)

Section relay_samples.
Import Relay.
Local Open Scope Z_scope.

(** C9.  The friend graph leaves the specified lifecycle.  After a request,
    its acceptance, a rejection of each of the two edges by the user it
    points at, and a new request, one edge is pending while its mirror
    exists and is rejected, whichever of the two rows the engine hands to
    [add_friend_request].  Accepting that pending request raises
    [IntegrityError] from the [INSERT] of the mirror edge, and leaves the
    edge accepted and its mirror rejected: no accepted mirror edge. *)
Theorem accept_after_rejections_raises :
  (let asked := request_after_rejections first_row two_users in
   let accepted_it :=
     bind (request_after_rejections first_row)
          (λ _, respond_to_friend_request 15 1 2 true) two_users in
   edges (state_after asked) = [(1, 1, 2, pending); (2, 2, 1, rejected)]
   ∧ outcome accepted_it = Raised IntegrityError
   ∧ edges (state_after accepted_it)
     = [(1, 1, 2, accepted); (2, 2, 1, rejected)])
  ∧ (let asked := request_after_rejections last_row two_users in
     let accepted_it :=
       bind (request_after_rejections last_row)
            (λ _, respond_to_friend_request 15 2 1 true) two_users in
     edges (state_after asked) = [(1, 1, 2, rejected); (2, 2, 1, pending)]
     ∧ outcome accepted_it = Raised IntegrityError
     ∧ edges (state_after accepted_it)
       = [(1, 1, 2, rejected); (2, 2, 1, accepted)]).
Proof. repeat split; vm_compute; reflexivity. Qed.

Lemma three_messages_consistent : db_consistent three_messages.
Proof.
  unfold db_consistent.
  repeat split; try (apply (bool_decide_unpack _); by vm_compute).
Qed.



Lemma token_expiry_boundary_counterexample :
  (t_expires_at <$> rows (auth_tokens one_token)) = [100]
  ∧ ¬ (100 > 100)
  ∧ get_current_user 100 (Some "Bearer tok"%string) one_token
    = (Raised (HTTPException 401 "Invalid or expired token"), one_token).
Proof. split; [done|]. split; [lia|]. by vm_compute. Qed.

Lemma one_token_consistent : tokens_consistent one_token.
Proof.
  unfold tokens_consistent.
  split; apply (bool_decide_unpack _); by vm_compute.
Qed.

Lemma token_checked_at_call_witness :
  tokens_consistent one_token
  ∧ outcome (get_current_user 99 (Some "Bearer tok"%string) one_token) = Ok 1.
Proof.
  split; [exact one_token_consistent|].
  refine (proj1 (proj2 (proj2 (token_checked_at_call one_token 99
            (Some "Bearer tok"%string) one_token_consistent)))
            {| t_id := 1; t_user_id := 1; t_token := "tok";
               t_created_at := 0; t_expires_at := 100 |} _ eq_refl _).
  - by left.
  - reflexivity.
Defined.

Lemma register_conflict_witness :
  (∃ u, u ∈ rows (users two_users)
        ∧ (u_username u = "alice"%string ∨ u_email u = "a@example.org"%string))
  ∧ register (P := Toy.toy) 50 [x00] "tok"
      {| rq_username := "alice"; rq_password := "pw";
         rq_email := "a@example.org"; rq_public_key := "pem" |} two_users
    = (Raised (HTTPException 400 "Username or email already exists"), two_users).
Proof.
  assert (H : ∃ u, u ∈ rows (users two_users)
        ∧ (u_username u = "alice"%string ∨ u_email u = "a@example.org"%string)).
  { exists (sample_user 1 "alice"). split; [by left|by left]. }
  split; [exact H|].
  exact (register_conflict_has_no_effect (P := Toy.toy) 50 [x00] "tok"
           {| rq_username := "alice"; rq_password := "pw";
              rq_email := "a@example.org"; rq_public_key := "pem" |}
           two_users H).
Defined.

End relay_samples.

(** ** The relay's further properties at the sample databases *)

Section relay_witnesses.
Import Relay Toy.
Local Open Scope Z_scope.
#[local] Existing Instance toy.
#[local] Existing Instance toy_builtins.
#[local] Existing Instance toy_sqlite.

Lemma two_users_consistent : users_consistent two_users.
Proof. split; apply (bool_decide_unpack _); by vm_compute. Qed.

Lemma one_token_users : users_consistent one_token.
Proof. exact two_users_consistent. Qed.

Lemma verify_password_hash_password_witness :
  length salt32 = 32%nat
  ∧ verify_password (hash_password salt32 "pw") "pw" = true.
Proof.
  split; [reflexivity|].
  exact (proj2 (verify_password_hash_password (HL := toy_laws)
                  salt32 "pw" "pw" eq_refl)).
Defined.

Lemma fresh_token_lifetime_witness :
  let db' := state_after (create_auth_token 10 2 "new" 50 one_token) in
  tokens_consistent one_token ∧ no_space "new" = true
  ∧ get_current_user 59 (Some "Bearer new"%string) db' = (Ok 2, db')
  ∧ get_current_user 60 (Some "Bearer new"%string) db'
    = (Raised (HTTPException 401 "Invalid or expired token"), db').
Proof.
  assert (Hfresh : ∀ t, t ∈ rows (auth_tokens one_token) → t_token t ≠ "new"%string).
  { intros t Ht. apply list_elem_of_singleton in Ht as ->. done. }
  assert (Hne : 2 ≠ 0) by lia.
  pose proof (fresh_token_lifetime one_token 10 50 2 "new"
                one_token_consistent Hne eq_refl Hfresh) as (_ & _ & H).
  split; [exact one_token_consistent|]. split; [reflexivity|].
  split; [exact (H 59)|exact (H 60)].
Defined.

Lemma login_after_register_witness :
  register 50 salt32 "c4r0l" carol two_users
    = (Ok {| rg_token := "c4r0l"; rg_user_id := 3 |}, carol_registered)
  ∧ outcome (login at_50 "n3w" {| lg_username := "carol"; lg_password := "pw" |}
               carol_registered)
    = Ok {| rg_token := "n3w"; rg_user_id := 3 |}.
Proof.
  assert (H : register 50 salt32 "c4r0l" carol two_users
              = (Ok {| rg_token := "c4r0l"; rg_user_id := 3 |}, carol_registered))
    by (vm_compute; reflexivity).
  split; [exact H|].
  exact (proj1 (login_after_register (HL := toy_laws) at_50 50 salt32
                  "c4r0l" "n3w" carol two_users carol_registered _ eq_refl H)).
Defined.

Lemma logout_revokes_token_witness :
  let db' := state_after (logout at_50 alice_header one_token) in
  outcome (logout at_50 alice_header one_token) = Ok tt
  ∧ ∀ now, get_current_user now alice_header db'
           = (Raised (HTTPException 401 "Invalid or expired token"), db').
Proof.
  assert (H : outcome (logout at_50 alice_header one_token) = Ok tt)
    by (vm_compute; reflexivity).
  split; [exact H|].
  exact (proj1 (logout_revokes_token at_50 alice_header one_token H)).
Defined.

Lemma friend_request_reaches_target_witness :
  users_consistent two_users ∧ first_row (A := Friend) [] = None
  ∧ outcome (add_friend_request first_row 10 1 "bob" two_users)
    = Ok {| success := true; message := "Friend request sent" |}.
Proof.
  split; [exact two_users_consistent|]. split; [reflexivity|].
  refine (proj1 (friend_request_reaches_target first_row 10 two_users
            (sample_user 1 "alice") (sample_user 2 "bob")
            two_users_consistent _ _ _ eq_refl _)).
  - by left.
  - right. by left.
  - cbn. lia.
  - intros f Hf. by apply elem_of_nil in Hf.
Defined.

Lemma alice_asked_bob_users : users_consistent alice_asked_bob.
Proof. exact two_users_consistent. Qed.

Lemma accepted_request_is_mutual_witness :
  let request := {| f_id := 1; f_user_id := 1; f_friend_id := 2;
                    f_status := pending; f_created_at := 10;
                    f_updated_at := None |} in
  request ∈ rows (friends alice_asked_bob)
  ∧ outcome (respond_to_friend_request 20 1 2 true alice_asked_bob)
    = Ok {| success := true; message := "Friend request accepted" |}.
Proof.
  intros request.
  assert (Hin : request ∈ rows (friends alice_asked_bob)) by (by left).
  split; [exact Hin|].
  refine (proj1 (accepted_request_is_mutual 20 alice_asked_bob
            (sample_user 1 "alice") (sample_user 2 "bob") request
            alice_asked_bob_users _ _ _ Hin eq_refl eq_refl _)).
  - by left.
  - right. by left.
  - apply (bool_decide_unpack _). by vm_compute.
  - intros f Hf. apply list_elem_of_singleton in Hf as ->. cbn. lia.
Defined.

Lemma sent_message_is_received_witness :
  get_current_user 50 alice_header one_token = (Ok 1, one_token)
  ∧ int_of_str (ms_recipient_id to_bob) = Some 2
  ∧ outcome (send_message at_50 alice_header to_bob one_token) = Ok 1.
Proof.
  split; [reflexivity|]. split; [reflexivity|].
  refine (proj1 (sent_message_is_received at_50 alice_header to_bob one_token
            (sample_user 1 "alice") (sample_user 2 "bob")
            one_token_users _ _ eq_refl eq_refl eq_refl)).
  - by left.
  - right. by left.
Defined.

Lemma group_message_needs_no_membership_witness :
  rows (groups one_token) = []
  ∧ int_of_str (ms_recipient_id to_group_7) = Some 7
  ∧ outcome (send_message at_50 alice_header to_group_7 one_token) = Ok 1.
Proof.
  split; [reflexivity|]. split; [reflexivity|].
  exact (proj1 (group_message_needs_no_membership at_50 alice_header to_group_7
                  one_token (sample_user 1 "alice") 7 eq_refl eq_refl eq_refl)).
Defined.

Lemma receive_does_not_consume_witness :
  ∃ result db',
    get_messages 1 15 three_messages = (Ok result, db')
    ∧ dr_id <$> result = [2; 3]
    ∧ get_messages 1 15 db' = (Ok result, db').
Proof.
  eexists _, _.
  assert (H : get_messages 1 15 three_messages = (Ok _, _))
    by (vm_compute; reflexivity).
  split; [exact H|]. split; [reflexivity|].
  exact (proj1 (proj2 (receive_does_not_consume _ _ 1 15 _ H))).
Defined.

Lemma created_group_members_witness :
  get_current_user 50 alice_header one_token = (Ok 1, one_token)
  ∧ outcome (create_group_route at_50 alice_header
               {| gc_name := "friends"; gc_members := ["bob"%string] |} one_token)
    = Ok 1.
Proof.
  split; [reflexivity|].
  exact (proj1 (created_group_members at_50 alice_header
                  {| gc_name := "friends"; gc_members := ["bob"%string] |}
                  one_token 1 one_token_users (Forall_nil_2 _) eq_refl)).
Defined.

Lemma alice_group_consistent : db_consistent alice_group ∧ users_consistent alice_group.
Proof.
  split; [|exact two_users_consistent].
  unfold db_consistent.
  repeat split; try (apply (bool_decide_unpack _); by vm_compute).
Qed.

Lemma new_member_receives_stored_messages_witness :
  let run := add_group_member_route at_50 alice_header 1 "bob" alice_group in
  outcome run = Ok tt
  ∧ state_after run = with_member 50 1 2 alice_group.
Proof.
  intros run.
  assert (H : outcome run = Ok tt) by (vm_compute; reflexivity).
  split; [exact H|].
  refine (proj1 (proj2 (proj2 (new_member_receives_stored_messages at_50
            alice_header 1 "bob" alice_group (sample_user 2 "bob")
            (proj1 alice_group_consistent) (proj2 alice_group_consistent)
            _ eq_refl H)))).
  right. by left.
Defined.

Lemma reachable_databases_are_consistent_witness :
  let db := state_after (register 50 salt32 "c4r0l" carol empty_database) in
  reachable db
  ∧ db_consistent db ∧ tokens_consistent db ∧ users_consistent db
  ∧ NoDup (edge_pairs (friends db)).
Proof.
  intros db.
  assert (H : reachable db).
  { apply (reachable_serves (Register 50 salt32 "c4r0l" carol) empty_database).
    - apply reachable_empty.
    - reflexivity. }
  split; [exact H|]. exact (reachable_databases_are_consistent db H).
Defined.

Lemma group_members_listing_witness :
  let result := group_members_selection alice_group 1 in
  get_group_members alice_group 1 result
  ∧ mr_username <$> result = ["alice"%string]
  ∧ NoDup (mr_id <$> result).
Proof.
  intros result.
  assert (H : get_group_members alice_group 1 result)
    by (unfold get_group_members, in_any_order; reflexivity).
  split; [exact H|]. split; [reflexivity|].
  exact (proj1 (group_members_listing alice_group 1 result
                  (proj2 alice_group_consistent)
                  (proj1 (proj2 (proj2 (proj1 alice_group_consistent)))) H)).
Defined.

End relay_witnesses.

(** ** The client's further properties at the small instance *)

Section client_witnesses.
Import Client Toy.
#[local] Existing Instance toy.
#[local] Existing Instance toy_file_system.
#[local] Existing Instance toy_builtins.
#[local] Existing Instance toy_key_formats.

Lemma keys_survive_restart_witness :
  let run := load_or_generate_keys alice_started in
  outcome (load_or_generate_keys alice) = Ok tt
  ∧ outcome run = Ok tt
  ∧ private_key (encryption_manager (state_after run))
    = private_key (encryption_manager alice_started)
  ∧ env (state_after run) = env alice_started.
Proof.
  intros run.
  assert (H : outcome (load_or_generate_keys alice) = Ok tt)
    by (vm_compute; reflexivity).
  split; [exact H|].
  destruct (keys_survive_restart (KL := toy_key_formats_laws)
              alice alice_started H eq_refl) as (H1 & _ & H2 & _ & H3).
  split; [exact H1|]. split; [exact H2|exact H3].
Defined.

Lemma missing_public_key_replaces_key_pair_witness :
  fs (env alice_half_keys) !! private_key_path = Some [x0a]
  ∧ fs (env alice_half_keys) !! public_key_path = None
  ∧ ∃ n, private_key (encryption_manager
             (state_after (load_or_generate_keys alice_half_keys)))
         = rsa_generate_private_key (entropy (env alice_half_keys) n).
Proof.
  assert (H1 : fs (env alice_half_keys) !! private_key_path = Some [x0a])
    by (vm_compute; reflexivity).
  assert (H2 : fs (env alice_half_keys) !! public_key_path = None)
    by (vm_compute; reflexivity).
  split; [exact H1|]. split; [exact H2|].
  assert (H3 : load_pem_private_key [x0a] = Some x0a) by reflexivity.
  destruct (missing_public_key_replaces_key_pair (K := toy_key_formats)
              alice_half_keys [x0a] x0a H1 H3 H2) as (n & _ & H & _).
  exists n. exact H.
Defined.

Lemma alice_friends_NoDup :
  NoDup (friends (data_manager alice)) ∧ NoDup (groups (data_manager alice)).
Proof. split; apply (bool_decide_unpack _); by vm_compute. Qed.

Lemma relations_survive_restart_witness :
  let run := load_relations (state_after (save_relations alice)) in
  NoDup (friends (data_manager alice))
  ∧ outcome run = Ok tt
  ∧ friends (data_manager (state_after run)) = ["bob"%string].
Proof.
  intros run. split; [exact (proj1 alice_friends_NoDup)|].
  destruct (relations_survive_restart (HL := toy_laws) (JL := toy_json_file_laws)
              alice (state_after (save_relations alice))
              (proj1 alice_friends_NoDup) (proj2 alice_friends_NoDup) eq_refl)
    as (H1 & H2 & _).
  split; [exact H1|exact H2].
Defined.

Lemma add_friend_keeps_friends_unique_witness :
  NoDup (friends (data_manager alice))
  ∧ outcome (add_friend "carol" alice) = Ok true
  ∧ NoDup (friends (data_manager (state_after (add_friend "carol" alice)))).
Proof.
  split; [exact (proj1 alice_friends_NoDup)|].
  destruct (add_friend_keeps_friends_unique alice "carol"
              (proj1 alice_friends_NoDup)) as (H1 & H2 & _).
  split; [exact H1|exact H2].
Defined.

Lemma saved_message_survives_restart_witness :
  let run := save_message "bob" "bob: again" false alice in
  history_lines alice "bob" = Some [JStr "bob: hi"]
  ∧ outcome run = Ok true
  ∧ dict_get "bob" (message_history (data_manager
        (state_after (load_message_history (state_after run)))))
    = Some (JList [JStr "bob: hi"; JStr "bob: again"]).
Proof.
  intros run.
  assert (Hwf : json_wf (JList [JStr "bob: hi"])) by (cbn; tauto).
  destruct (saved_message_survives_restart (HL := toy_laws)
              (JL := toy_json_file_laws) alice (state_after run)
              "bob" "bob: again" false [JStr "bob: hi"] eq_refl Hwf eq_refl)
    as (_ & _ & Hopened).
  destruct Hopened as (H1 & H2 & _).
  split; [reflexivity|]. split; [exact H1|].
  apply H2. by left.
Defined.


Lemma ensure_message_files_keeps_histories_witness :
  (outcome (ensure_message_files_exist alice) = Ok tt
   ∧ fs (env (state_after (ensure_message_files_exist alice)))
       !! history_path "bob"
     = Some (utf8_encode (json_dumps (JList []))))
  ∧ ∃ e, outcome (ensure_message_files_exist alice_odd_friend) = Raised e.
Proof.
  split.
  - destruct (ensure_message_files_keeps_histories alice)
      as (_ & _ & _ & Hopened & _).
    destruct Hopened as [Hok _].
    { constructor; [right; reflexivity|constructor]. }
    split; [exact Hok|]. vm_compute. reflexivity.
  - destruct (ensure_message_files_keeps_histories alice_odd_friend)
      as (_ & _ & _ & _ & Hrefused).
    apply (Hrefused "eve/x"%string).
    + left.
    + reflexivity.
    + discriminate.
Defined.

Lemma sync_time_survives_restart_witness :
  let w1 := state_after (save_sync_time alice) in
  load_sync_time w1 = (Ok tt, with_dm (set_last_sync_time 100) w1)
  ∧ last_sync_time (data_manager w1) = 101%Z.
Proof.
  intros w1.
  destruct (sync_time_survives_restart (HL := toy_laws)
              (BL := toy_builtins_laws) alice) as (H1 & H2 & _).
  split; [exact (H1 w1 eq_refl)|exact H2].
Defined.

Lemma repeated_poll_duplicates_messages_witness :
  let once := state_after (poll_for_messages relay_has_hello
                             relay_has_no_group_message alice) in
  let twice := state_after (poll_for_messages relay_has_hello
                              relay_has_no_group_message once) in
  outcome (decrypt_message
             {| env_key := d_encrypted_key hello_from_bob;
                env_message := d_encrypted_content hello_from_bob |} alice)
    = Ok (Some "hi"%string)
  ∧ history_lines alice "bob" = Some [JStr "bob: hi"]
  ∧ history_lines twice "bob"
    = Some [JStr "bob: hi"; JStr "bob: hi"; JStr "bob: hi"].
Proof.
  intros once twice.
  assert (H : outcome (decrypt_message
             {| env_key := d_encrypted_key hello_from_bob;
                env_message := d_encrypted_content hello_from_bob |} alice)
              = Ok (Some "hi"%string)) by (vm_compute; reflexivity).
  assert (Hne : "hi"%string ≠ ""%string) by done.
  split; [exact H|]. split; [reflexivity|].
  exact (proj2 (repeated_poll_duplicates_messages relay_has_hello
                  relay_has_no_group_message hello_from_bob alice "hi"
                  [JStr "bob: hi"] eq_refl eq_refl eq_refl H Hne eq_refl)).
Defined.

Lemma unsent_message_stays_in_history_witness :
  let run := send_message (λ _ _, ret tt) relay_is_down "hello" alice_chatting in
  current_chat alice_chatting = Some "bob"%string
  ∧ history_lines alice_chatting "bob" = Some [JStr "bob: hi"]
  ∧ outcome run = Ok tt
  ∧ history_lines (state_after run) "bob"
    = Some [JStr "bob: hi"; JStr "You: hello"].
Proof.
  intros run.
  assert (H1 : "hello"%string ≠ ""%string) by done.
  assert (H2 : "bob"%string ≠ ""%string) by done.
  destruct (unsent_message_stays_in_history (λ _ _, ret tt) relay_is_down
              alice_chatting "hello" "bob" [JStr "bob: hi"]
              eq_refl H1 H2 eq_refl eq_refl) as (Hok & _ & Hsent).
  split; [reflexivity|]. split; [reflexivity|]. split; [exact Hok|].
  apply Hsent. by vm_compute.
Defined.

End client_witnesses.

(** ** The client against the relay at the small instance *)

Section wire_witnesses.
Import Client Toy.
#[local] Existing Instance toy.
#[local] Existing Instance toy_file_system.
#[local] Existing Instance toy_builtins.

Lemma message_to_username_is_refused_witness :
  let relay := Wire.messages_send http_error_text at_50 (Some "tok"%string)
                 Relay.one_token in
  let w' := state_after (send_message (λ _ _, ret tt) relay "hello"
                           alice_chatting) in
  int_of_str "bob" = None
  ∧ Relay.get_current_user 50 (Wire.session_header (auth_token alice_chatting))
      Relay.one_token = (Ok 1%Z, Relay.one_token)
  ∧ history_lines w' "bob" = Some [JStr "bob: hi"; JStr "You: hello"]
  ∧ ui w' = [ChatAppend "You: hello";
             Notification
               "Failed to send message: Network error: 400 Client Error"].
Proof.
  intros relay w'.
  assert (H1 : "hello"%string ≠ ""%string) by done.
  assert (H2 : "bob"%string ≠ ""%string) by done.
  assert (H3 : outcome (encrypt_message "hello" "bob" alice_chatting) ≠ Ok None)
    by (by vm_compute).
  assert (H4 : int_of_str "bob" = None) by reflexivity.
  assert (H5 : Relay.get_current_user 50
                 (Wire.session_header (auth_token alice_chatting))
                 Relay.one_token = (Ok 1%Z, Relay.one_token)) by reflexivity.
  destruct (message_to_username_is_refused (λ _ _, ret tt) http_error_text
              at_50 Relay.one_token alice_chatting "hello" "bob"
              [JStr "bob: hi"] 1%Z eq_refl H1 H2 eq_refl eq_refl H3 eq_refl
              H5 H4) as (_ & Hl & Hu).
  split; [exact H4|]. split; [exact H5|]. split; [exact Hl|exact Hu].
Defined.

End wire_witnesses.
